(** * numalign: PCI device discovery, NUMA distances and the fake sysfs builder

    A shallow embedding of three Go packages of the repository:

    - [pcidev]    : [NewPCIDevices], [PCIDevices.PerNUMA], [FindByAddress];
    - [distances] : [nodeDistancesFromString], [NewDistancesFromSysfs],
                    [Distances.BetweenNodes];
    - [fakesysfs] : [tree.Add], [FakeSysfs.AddTree].

    Go values are modelled as follows.  [int], [int64] and [uint64] are [Z]
    (wrap-around is written out where an operation can leave the range);
    [string] and [[]byte] are [string]; a Go result pair [(v, err)] is a Rocq
    pair [(v, o)] with [o : option error] ([None] is [nil]); a returned
    pointer that may be [nil] is an [option]; a run-time panic is the
    constructor [Panics] of [exec].  The operating system (directory
    listing, [stat], [readlink], file reads) is a record of functions. *)

From Stdlib Require Import ZArith Ascii String List Lia Bool.
From Stdlib Require DecimalString.
From stdpp Require Import base option list gmap strings.

Local Open Scope string_scope.
Local Open Scope list_scope.
Local Open Scope Z_scope.

(** ** Errors *)

(** [syscall.Errno] values that the file-system calls may report. *)
Inductive Errno := ENOENT | EACCES | ENOTDIR | EIO | EINVAL | ELOOP.

(** The [Err] field of [strconv.NumError]. *)
Inductive NumErr := ErrSyntax | ErrRange | ErrBase (base : Z) | ErrBitSize (bits : Z).

(** Go [error] values produced by the modelled code:
    [*os.PathError], [*strconv.NumError], and the two [fmt.Errorf] values of
    package [distances] (kept structured; [Error] renders them). *)
Inductive error :=
| PathError (op path : string) (errno : Errno)
| NumError (fn num : string) (err : NumErr)
| ErrDistanceCount (found expected : Z)
| ErrUnknownNode (node : Z).

(** A computation that either returns or panics. *)
Inductive exec (A : Type) :=
| Returns (a : A)
| Panics (msg : string).
Arguments Returns {A} a.
Arguments Panics {A} msg.

(** [os.IsNotExist] *)
Definition IsNotExist (e : error) : bool :=
  match e with
  | PathError _ _ ENOENT => true
  | _ => false
  end.

(** ** Package fmt: the verb [%d] *)
Module fmt.

Definition d (n : Z) : string := DecimalString.NilZero.string_of_int (Z.to_int n).

End fmt.

(** [error.Error()] for the two [fmt.Errorf] values; the other messages are
    the operating system's and [strconv]'s. *)
Definition Error (e : error) : string :=
  match e with
  | ErrDistanceCount found expected =>
      "found " +:+ fmt.d found +:+ " distance values, expected " +:+ fmt.d expected
  | ErrUnknownNode node => "unknown NUMA node: " +:+ fmt.d node
  | PathError op path _ => op +:+ " " +:+ path
  | NumError fn num _ => "strconv." +:+ fn +:+ ": parsing " +:+ num
  end.

(** ** Package strconv *)
Module strconv.

Definition byteZ (c : ascii) : Z := Z.of_N (N_of_ascii c).

(** [lower(c)]: [c | ('x' - 'X')] *)
Definition lower (c : Z) : Z := Z.lor c 32.

Definition maxUint64 : Z := 2 ^ 64 - 1.
Definition IntSize : Z := 64.

Definition syntaxError (fn str : string) : error := NumError fn str ErrSyntax.
Definition rangeError (fn str : string) : error := NumError fn str ErrRange.

(** [underscoreOK]: underscores only between digits or after a base prefix.
    [saw] is one of the bytes [^], [0], [_], [!]. *)
Fixpoint underscoreOK_loop (hex : bool) (saw : Z) (s : string) : bool :=
  match s with
  | EmptyString => negb (saw =? 95)
  | String ch rest =>
      let c := byteZ ch in
      if ((48 <=? c) && (c <=? 57)) || (hex && (97 <=? lower c) && (lower c <=? 102))
      then underscoreOK_loop hex 48 rest
      else if c =? 95
      then (if saw =? 48 then underscoreOK_loop hex 95 rest else false)
      else if saw =? 95 then false
      else underscoreOK_loop hex 33 rest
  end.

Definition underscoreOK (s : string) : bool :=
  let s := match s with
           | String ch rest => if (byteZ ch =? 45) || (byteZ ch =? 43) then rest else s
           | EmptyString => s
           end in
  match s with
  | String c0 (String c1 rest) =>
      if (byteZ c0 =? 48)
         && ((lower (byteZ c1) =? 98) || (lower (byteZ c1) =? 111) || (lower (byteZ c1) =? 120))
      then underscoreOK_loop (lower (byteZ c1) =? 120) 48 rest
      else underscoreOK_loop false 94 s
  | _ => underscoreOK_loop false 94 s
  end.

(** The digit loop of [ParseUint].  The result carries the [underscores]
    flag next to the Go result pair; [None] for the pair means that the loop
    ran to the end of the string with the accumulated value [n]. *)
Fixpoint ParseUint_loop (base0 : bool) (base cutoff maxVal : Z) (s0 : string)
    (s : string) (underscores : bool) (n : Z) : Z * option error * bool :=
  match s with
  | EmptyString => (n, None, underscores)
  | String ch rest =>
      let c := byteZ ch in
      if (c =? 95) && base0
      then ParseUint_loop base0 base cutoff maxVal s0 rest true n
      else
        let digit :=
          if (48 <=? c) && (c <=? 57) then Some (c - 48)
          else if (97 <=? lower c) && (lower c <=? 122) then Some (lower c - 97 + 10)
          else None in
        match digit with
        | None => (0, Some (syntaxError "ParseUint" s0), underscores)
        | Some d =>
            if base <=? d then (0, Some (syntaxError "ParseUint" s0), underscores)
            else if cutoff <=? n then (maxVal, Some (rangeError "ParseUint" s0), underscores)
            else
              let n := n * base in
              let n1 := (n + d) mod 2 ^ 64 in
              if (n1 <? n) || (maxVal <? n1)
              then (maxVal, Some (rangeError "ParseUint" s0), underscores)
              else ParseUint_loop base0 base cutoff maxVal s0 rest underscores n1
        end
  end.

Definition ParseUint (s : string) (base bitSize : Z) : Z * option error :=
  match s with
  | EmptyString => (0, Some (syntaxError "ParseUint" s))
  | String c0 tl =>
      let base0 := base =? 0 in
      let s0 := s in
      let obase_s :=
        if (2 <=? base) && (base <=? 36) then Some (base, s)
        else if base =? 0 then
          if byteZ c0 =? 48 then
            match tl with
            | String c1 (String c2 tl2) =>
                if lower (byteZ c1) =? 98 then Some (2, String c2 tl2)
                else if lower (byteZ c1) =? 111 then Some (8, String c2 tl2)
                else if lower (byteZ c1) =? 120 then Some (16, String c2 tl2)
                else Some (8, tl)
            | _ => Some (8, tl)
            end
          else Some (10, s)
        else None in
      match obase_s with
      | None => (0, Some (NumError "ParseUint" s0 (ErrBase base)))
      | Some (base, s) =>
          if (bitSize <? 0) || (64 <? bitSize)
          then (0, Some (NumError "ParseUint" s0 (ErrBitSize bitSize)))
          else
            let bitSize := if bitSize =? 0 then IntSize else bitSize in
            let cutoff := maxUint64 / base + 1 in
            let maxVal := 2 ^ bitSize - 1 in
            match ParseUint_loop base0 base cutoff maxVal s0 s false 0 with
            | (n, Some e, _) => (n, Some e)
            | (n, None, underscores) =>
                if underscores && negb (underscoreOK s0)
                then (0, Some (syntaxError "ParseUint" s0))
                else (n, None)
            end
      end
  end.

Definition ParseInt (s : string) (base bitSize : Z) : Z * option error :=
  match s with
  | EmptyString => (0, Some (syntaxError "ParseInt" s))
  | String c0 tl =>
      let s0 := s in
      let '(neg, s) :=
        if byteZ c0 =? 43 then (false, tl)
        else if byteZ c0 =? 45 then (true, tl)
        else (false, s) in
      let '(un, err) := ParseUint s base bitSize in
      match err with
      | Some (NumError _ _ ErrRange) | None =>
          let bitSize := if bitSize =? 0 then IntSize else bitSize in
          let cutoff := 2 ^ (bitSize - 1) in
          if negb neg && (cutoff <=? un) then (cutoff - 1, Some (rangeError "ParseInt" s0))
          else if neg && (cutoff <? un) then (- cutoff, Some (rangeError "ParseInt" s0))
          else (if neg then - un else un, None)
      | Some (NumError _ _ k) => (0, Some (NumError "ParseInt" s0 k))
      | Some e => (0, Some e)
      end
  end.

(** [Atoi] is [ParseInt(s, 10, 0)] converted to [int] (64 bits), with the
    error's [Func] set to [Atoi]; its fast path for short strings computes
    the same pair. *)
Definition Atoi (s : string) : Z * option error :=
  match ParseInt s 10 0 with
  | (i64, Some (NumError _ num k)) => (i64, Some (NumError "Atoi" num k))
  | r => r
  end.

End strconv.

(** ** Package strings *)
Module gostrings.

Import strconv.

Definition asciiSpace (c : Z) : bool :=
  (c =? 9) || (c =? 10) || (c =? 11) || (c =? 12) || (c =? 13) || (c =? 32).

(** The UTF-8 encodings of the non-ASCII runes for which [unicode.IsSpace]
    holds: U+0085, U+00A0 (two bytes); U+1680, U+2000..U+200A, U+2028,
    U+2029, U+202F, U+205F, U+3000 (three bytes). *)
Definition space2 (a b : Z) : bool :=
  (a =? 194) && ((b =? 133) || (b =? 160)).

Definition space3 (a b c : Z) : bool :=
  ((a =? 225) && (b =? 154) && (c =? 128))
  || ((a =? 226) && (b =? 128)
      && (((128 <=? c) && (c <=? 138)) || (c =? 168) || (c =? 169) || (c =? 175)))
  || ((a =? 226) && (b =? 129) && (c =? 159))
  || ((a =? 227) && (b =? 128) && (c =? 128)).

(** [TrimLeftFunc(s, unicode.IsSpace)] on the bytes of [s] *)
Fixpoint trimLeft (s : list ascii) : list ascii :=
  match s with
  | a :: r1 =>
      if asciiSpace (byteZ a) then trimLeft r1
      else match r1 with
           | b :: r2 =>
               if space2 (byteZ a) (byteZ b) then trimLeft r2
               else match r2 with
                    | c :: r3 =>
                        if space3 (byteZ a) (byteZ b) (byteZ c) then trimLeft r3 else s
                    | [] => s
                    end
           | [] => s
           end
  | [] => []
  end.

(** [TrimRightFunc(s, unicode.IsSpace)], on the reversed bytes of [s] *)
Fixpoint trimRight_rev (s : list ascii) : list ascii :=
  match s with
  | a :: r1 =>
      if asciiSpace (byteZ a) then trimRight_rev r1
      else match r1 with
           | b :: r2 =>
               if space2 (byteZ b) (byteZ a) then trimRight_rev r2
               else match r2 with
                    | c :: r3 =>
                        if space3 (byteZ c) (byteZ b) (byteZ a) then trimRight_rev r3 else s
                    | [] => s
                    end
           | [] => s
           end
  | [] => []
  end.

(** [TrimSpace]: all leading and trailing white space (as Unicode defines
    it) removed. *)
Definition TrimSpace (s : string) : string :=
  string_of_list_ascii
    (rev (trimRight_rev (rev (trimLeft (list_ascii_of_string s))))).

(** [Split(s, sep)] for a non-empty [sep]: [s] cut at every occurrence of
    [sep], left to right.  [skip] counts the bytes of a separator still to
    pass over; the result is the token being read and the tokens after it. *)
Fixpoint Split_from (sep : string) (skip : nat) (s : string) : string * list string :=
  match s with
  | EmptyString => (EmptyString, [])
  | String c rest =>
      match skip with
      | S k => Split_from sep k rest
      | O =>
          if String.prefix sep s
          then (EmptyString,
                let '(t, ts) := Split_from sep (Nat.pred (String.length sep)) rest in t :: ts)
          else let '(t, ts) := Split_from sep 0 rest in (String c t, ts)
      end
  end.

(** For [sep = ""] Go explodes [s] into its UTF-8 sequences; that branch is
    taken bytewise here (the repository only splits at [" "]). *)
Definition Split (s sep : string) : list string :=
  match sep with
  | EmptyString => (fun c => String c EmptyString) <$> list_ascii_of_string s
  | _ => let '(t, ts) := Split_from sep 0 s in t :: ts
  end.

(** [Index(s, sep)]: the position of the first occurrence of [sep] in
    [s]; [None] is Go's -1. *)
Fixpoint Index (s sep : string) : option nat :=
  if String.prefix sep s then Some O
  else match s with
       | EmptyString => None
       | String _ rest => S <$> Index rest sep
       end.

(** The slice expressions [s[:m]] and [s[m:]], for [m] within [s]. *)
Definition sliceTo (s : string) (m : nat) : string :=
  string_of_list_ascii (take m (list_ascii_of_string s)).

Definition sliceFrom (s : string) (m : nat) : string :=
  string_of_list_ascii (drop m (list_ascii_of_string s)).

(** The loop of [genSplit]: at most [n] cuts at [sep], then the rest. *)
Fixpoint genSplit_loop (sep : string) (n : nat) (s : string) : list string :=
  match n with
  | O => [s]
  | S n' =>
      match Index s sep with
      | None => [s]
      | Some m => sliceTo s m :: genSplit_loop sep n' (sliceFrom s (m + String.length sep))
      end
  end.

(** [SplitN(s, sep, n)]: nil for [n = 0], all the substrings for [n < 0],
    otherwise at most [n] of them, the last being the unsplit remainder.  As
    for [Split], the branch of the empty separator is taken bytewise. *)
Definition SplitN (s sep : string) (n : Z) : list string :=
  if n =? 0 then []
  else if n <? 0 then Split s sep
  else
    let n := Z.min n (Z.of_nat (String.length s) + 1) in
    match sep with
    | EmptyString =>
        let chars := list_ascii_of_string s in
        let n := Z.to_nat (Z.min n (Z.of_nat (String.length s))) in
        match chars with
        | [] => []
        | _ => ((fun c => String c EmptyString) <$> take (Nat.pred n) chars)
               ++ [string_of_list_ascii (drop (Nat.pred n) chars)]
        end
    | _ => genSplit_loop sep (Nat.pred (Z.to_nat n)) s
    end.

End gostrings.

(** ** Package path/filepath (Unix) *)
Module filepath.

Import strconv.

Definition Separator : ascii := "/"%char.
Definition IsPathSeparator (c : ascii) : bool := Ascii.eqb c Separator.

Definition byteAt (s : string) (i : nat) : ascii :=
  match String.get i s with Some c => c | None => Ascii.zero end.

(** The backtracking of [Clean] at a [..] element: [w] goes down while it
    is above [dotdot] and the byte at [w] is not a separator. *)
Fixpoint backtrack (out : string) (dotdot : nat) (w : nat) : nat :=
  match w with
  | O => O
  | S w' =>
      if (dotdot <? w)%nat && negb (IsPathSeparator (byteAt out w))
      then backtrack out dotdot w'
      else w
  end.

Definition startsElemEnd (s : string) : bool :=
  match s with
  | EmptyString => true
  | String c _ => IsPathSeparator c
  end.

(** The main loop of [Clean]; [path] is the part still to read, [out] the
    buffer written so far; [copying] holds inside a path element that is
    being copied. *)
Fixpoint Clean_loop (rooted : bool) (path : string) (copying : bool)
    (out : string) (dotdot : nat) : string :=
  match path with
  | EmptyString => out
  | String c rest =>
      if IsPathSeparator c then Clean_loop rooted rest false out dotdot
      else if copying then Clean_loop rooted rest true (out +:+ String c EmptyString) dotdot
      else if Ascii.eqb c "."%char && startsElemEnd rest
      then Clean_loop rooted rest false out dotdot
      else
        let real :=
          let out := if (rooted && negb (String.length out =? 1)%nat)
                        || (negb rooted && negb (String.length out =? 0)%nat)
                     then out +:+ String Separator EmptyString else out in
          Clean_loop rooted rest true (out +:+ String c EmptyString) dotdot in
        match rest with
        | String c1 rest2 =>
            if Ascii.eqb c "."%char && Ascii.eqb c1 "."%char && startsElemEnd rest2
            then
              if (dotdot <? String.length out)%nat
              then
                let w := backtrack out dotdot (Nat.pred (String.length out)) in
                Clean_loop rooted rest2 false (String.substring 0 w out) dotdot
              else if negb rooted
              then
                let out := if (0 <? String.length out)%nat
                           then out +:+ String Separator EmptyString else out in
                let out := out +:+ ".." in
                Clean_loop rooted rest2 false out (String.length out)
              else Clean_loop rooted rest2 false out dotdot
            else real
        | EmptyString => real
        end
  end.

Definition Clean (path : string) : string :=
  match path with
  | EmptyString => "."
  | String c _ =>
      let rooted := IsPathSeparator c in
      let out :=
        if rooted then Clean_loop rooted path false (String Separator EmptyString) 1
        else Clean_loop rooted path false EmptyString 0 in
      if (String.length out =? 0)%nat then "." else out
  end.

(** [strings.Join(elem, "/")] *)
Fixpoint joinSep (elem : list string) : string :=
  match elem with
  | [] => EmptyString
  | [e] => e
  | e :: rest => e +:+ String Separator EmptyString +:+ joinSep rest
  end.

(** [Join]: the elements from the first non-empty one on, joined and cleaned *)
Fixpoint Join (elem : list string) : string :=
  match elem with
  | [] => EmptyString
  | e :: rest => if String.eqb e EmptyString then Join rest else Clean (joinSep elem)
  end.

(** [Base] works from the end of [path]: both helpers read its bytes in
    reverse.  [stripSeparators] drops the trailing separators,
    [lastElement] takes the bytes up to the next separator. *)
Fixpoint stripSeparators (rpath : list ascii) : list ascii :=
  match rpath with
  | c :: r => if IsPathSeparator c then stripSeparators r else rpath
  | [] => []
  end.

Fixpoint lastElement (rpath : list ascii) : list ascii :=
  match rpath with
  | c :: r => if IsPathSeparator c then [] else c :: lastElement r
  | [] => []
  end.

(** [Base]: the last element of [path], trailing separators removed first *)
Definition Base (path : string) : string :=
  match path with
  | EmptyString => "."
  | _ =>
      match lastElement (stripSeparators (rev (list_ascii_of_string path))) with
      | [] => String Separator EmptyString
      | last => string_of_list_ascii (rev last)
      end
  end.

End filepath.

(** ** The operating system as the code sees it *)

(** The four calls of packages [os] and [io/ioutil] that [pcidev] makes.
    [ReadDir] gives the names of the entries ([entry.Name()]), [Stat] only
    the error ([nil] when the path can be stat-ed, symbolic links followed). *)
Record FileSystem := {
  ReadDir : string -> list string * option error;
  Stat : string -> option error;
  Readlink : string -> string * option error;
  ReadFile : string -> string * option error;
}.

(** ** Package pcidev *)
Module pcidev.

Definition PathBusPCIDevices : string := "bus/pci/devices/".
Definition NUMANodeUnknown : Z := -1.
Definition DevClassNetwork : Z := 0x0200.

(** The methods of interface [PCIDeviceInfo] that the collection uses. *)
Class PCIDeviceInfo (T : Type) := {
  Address : T -> string;
  DevClass : T -> Z;
  Vendor : T -> Z;
  Device : T -> Z;
  SysfsPath : T -> string;
  NUMANode : T -> Z;
}.

Record SRIOVDeviceInfo := {
  IsPhysFn : bool;
  NumVFS : Z;
  IsVFn : bool;
  ParentFn : string;
  address : string;
  numaNode : Z;
  devClass : Z;
  vendor : Z;
  device : Z;
  sysfsPath : string;
}.

#[export] Instance SRIOVDeviceInfo_PCIDeviceInfo : PCIDeviceInfo SRIOVDeviceInfo := {
  Address := address;
  DevClass := devClass;
  Vendor := vendor;
  Device := device;
  SysfsPath := sysfsPath;
  NUMANode := numaNode;
}.

(** The zero value [SRIOVDeviceInfo{}] *)
Definition SRIOVDeviceInfo_zero : SRIOVDeviceInfo :=
  {| IsPhysFn := false; NumVFS := 0; IsVFn := false; ParentFn := "";
     address := ""; numaNode := 0; devClass := 0; vendor := 0; device := 0;
     sysfsPath := "" |}.

Record PCIDevices (T : Type) := { Items : list T }.
Arguments Items {T} _.

Section Collection.
Context {T : Type} `{PCIDeviceInfo T}.

(** [PerNUMA]: a missing key reads as the nil list, to which [append]
    adds the device. *)
Definition PerNUMA (pd : PCIDevices T) : gmap Z (list T) :=
  foldl (fun numaNodePCIDevs devInfo =>
           let nodeNum := NUMANode devInfo in
           let pciDevs := default [] (numaNodePCIDevs !! nodeNum) in
           let pciDevs := pciDevs ++ [devInfo] in
           <[nodeNum := pciDevs]> numaNodePCIDevs)
        ∅ (Items pd).
End Collection.

Fixpoint FindByAddress_loop (items : list SRIOVDeviceInfo) (addr : string)
    : SRIOVDeviceInfo * bool :=
  match items with
  | [] => (SRIOVDeviceInfo_zero, false)
  | devInfo :: rest =>
      if String.eqb (Address devInfo) addr then (devInfo, true)
      else FindByAddress_loop rest addr
  end.

Definition FindByAddress (pd : PCIDevices SRIOVDeviceInfo) (addr : string)
    : SRIOVDeviceInfo * bool :=
  FindByAddress_loop (Items pd) addr.

Section Discovery.
Variable fs : FileSystem.

Definition readHexInt64 (path : string) : Z * option error :=
  match ReadFile fs path with
  | (_, Some err) => (0, Some err)
  | (content, None) => strconv.ParseInt (gostrings.TrimSpace content) 0 64
  end.

Definition readInt (path : string) : Z * option error :=
  match ReadFile fs path with
  | (_, Some err) => (0, Some err)
  | (content, None) => strconv.Atoi (gostrings.TrimSpace content)
  end.

(** The body of the loop of [NewPCIDevices] for one directory entry:
    [inl devInfo] is the device appended to [allPCIDevs], [inr err] is
    [return nil, err]. *)
Definition scanEntry (sysfsPath : string) (entry : string) : SRIOVDeviceInfo + error :=
  let devPath := filepath.Join [sysfsPath; entry] in
  let isPhysFn := false in
  let isVFn := false in
  let numVfs := 0 in
  let parentFn := "" in
  let numvfsPath := filepath.Join [devPath; "sriov_numvfs"] in
  let sriov :=
    match Stat fs numvfsPath with
    | None => inl (true, fst (readInt numvfsPath))
    | Some err => if negb (IsNotExist err) then inr err else inl (isPhysFn, numVfs)
    end in
  match sriov with
  | inr err => inr err
  | inl (isPhysFn, numVfs) =>
      let physFnPath := filepath.Join [devPath; "physfn"] in
      let virt :=
        match Stat fs physFnPath with
        | None =>
            inl (true,
                 match Readlink fs physFnPath with
                 | (dest, None) => filepath.Base dest
                 | (_, Some _) => parentFn
                 end)
        | Some err => if negb (IsNotExist err) then inr err else inl (isVFn, parentFn)
        end in
      match virt with
      | inr err => inr err
      | inl (isVFn, parentFn) =>
          let '(nodeNum, err) := readInt (filepath.Join [devPath; "numa_node"]) in
          let '(devClass, err) := readHexInt64 (filepath.Join [devPath; "class"]) in
          match err with
          | Some err => inr err
          | None =>
              let '(vendor, err) := readHexInt64 (filepath.Join [devPath; "vendor"]) in
              match err with
              | Some err => inr err
              | None =>
                  let '(device, err) := readHexInt64 (filepath.Join [devPath; "device"]) in
                  match err with
                  | Some err => inr err
                  | None =>
                      inl {| IsPhysFn := isPhysFn;
                             NumVFS := numVfs;
                             IsVFn := isVFn;
                             ParentFn := parentFn;
                             address := entry;
                             numaNode := nodeNum;
                             devClass := Z.shiftr devClass 8;
                             vendor := vendor;
                             device := device;
                             sysfsPath := devPath |}
                  end
              end
          end
      end
  end.

Fixpoint NewPCIDevices_loop (sysfsPath : string) (entries : list string)
    (allPCIDevs : list SRIOVDeviceInfo)
    : option (PCIDevices SRIOVDeviceInfo) * option error :=
  match entries with
  | [] => (Some {| Items := allPCIDevs |}, None)
  | entry :: rest =>
      match scanEntry sysfsPath entry with
      | inr err => (None, Some err)
      | inl devInfo => NewPCIDevices_loop sysfsPath rest (allPCIDevs ++ [devInfo])
      end
  end.

Definition NewPCIDevices (sysfs : string)
    : option (PCIDevices SRIOVDeviceInfo) * option error :=
  let sysfsPath := filepath.Join [sysfs; PathBusPCIDevices] in
  match ReadDir fs sysfsPath with
  | (_, Some err) => (None, Some err)
  | (entries, None) => NewPCIDevices_loop sysfsPath entries []
  end.
End Discovery.

End pcidev.

(** ** Package distances *)
Module distances.

Definition distanceSeparator : string := " ".

Record nodeDistances := { values : list Z }.

(** The loop of [nodeDistancesFromString]: [ret.values[idx] = val] for every
    token, stopping at the first one that [Atoi] rejects. *)
Fixpoint nodeDistancesFromString_loop (dists : list string) (idx : nat)
    (ret : nodeDistances) : nodeDistances * option error :=
  match dists with
  | [] => (ret, None)
  | dist :: rest =>
      let '(val, err) := strconv.Atoi dist in
      match err with
      | Some err => (ret, Some err)
      | None =>
          nodeDistancesFromString_loop rest (S idx)
            {| values := <[idx := val]> (values ret) |}
      end
  end.

Definition nodeDistancesFromString (numaNodes : Z) (data : string)
    : nodeDistances * option error :=
  let ret := {| values := [] |} in
  let dists := gostrings.Split data distanceSeparator in
  if negb (Z.of_nat (length dists) =? numaNodes)
  then (ret, Some (ErrDistanceCount (Z.of_nat (length dists)) numaNodes))
  else
    let ret := {| values := replicate (Z.to_nat numaNodes) 0 |} in
    nodeDistancesFromString_loop dists 0 ret.

Record Distances := {
  onlineNodes : gmap Z bool;
  byNode : list nodeDistances;
}.

(** A slice index expression [l[i]]: out of range is a run-time panic,
    with the message of the Go runtime. *)
Definition index {A : Type} (l : list A) (i : Z) : exec A :=
  if i <? 0
  then Panics ("runtime error: index out of range [" +:+ fmt.d i +:+ "]")
  else match l !! Z.to_nat i with
       | Some x => Returns x
       | None =>
           Panics ("runtime error: index out of range [" +:+ fmt.d i
                   +:+ "] with length " +:+ fmt.d (Z.of_nat (length l)))
       end.

Definition BetweenNodes (d : Distances) (from to : Z) : exec (Z * option error) :=
  match onlineNodes d !! from with
  | None => Returns (-1, Some (ErrUnknownNode from))
  | Some _ =>
      match onlineNodes d !! to with
      | None => Returns (-1, Some (ErrUnknownNode to))
      | Some _ =>
          match index (byNode d) from with
          | Panics msg => Panics msg
          | Returns row =>
              match index (values row) to with
              | Panics msg => Panics msg
              | Returns v => Returns (v, None)
              end
          end
      end
  end.

(** [numa.Nodes], of which only [Online] is used. *)
Record Nodes := { Online : list Z }.

(** Modelled from the spec: packages [numa] and [sysfs] of the repository
    are outside the sources at hand.  The spec gives their interfaces: (1)
    list the online NUMA node IDs, given a root path, as an ordered set of
    integers ([numa.NewNodesFromSysFS]); (2) read the textual content of a
    single pseudo-file, given a node ID and a root path
    ([sysfs.New(root).ForNode(id).ReadFile(name)]).  They are parameters of
    the code below. *)
Record NodeSource := {
  NewNodesFromSysFS : string -> Nodes * option error;
  ForNodeReadFile : string -> Z -> string -> string * option error;
}.

Section Construction.
Variable src : NodeSource.

Fixpoint NewDistancesFromSysfs_loop (sysfsPath : string) (numaNodes : Z)
    (online : list Z) (dist : Distances) : option Distances * option error :=
  match online with
  | [] => (Some dist, None)
  | nodeID :: rest =>
      let dist := {| onlineNodes := <[nodeID := true]> (onlineNodes dist);
                     byNode := byNode dist |} in
      let '(distData, err) := ForNodeReadFile src sysfsPath nodeID "distance" in
      match err with
      | Some err => (None, Some err)
      | None =>
          let '(nodeDist, err) := nodeDistancesFromString numaNodes distData in
          match err with
          | Some err => (None, Some err)
          | None =>
              NewDistancesFromSysfs_loop sysfsPath numaNodes rest
                {| onlineNodes := onlineNodes dist;
                   byNode := byNode dist ++ [nodeDist] |}
          end
      end
  end.

Definition NewDistancesFromSysfs (sysfsPath : string)
    : option Distances * option error :=
  let '(nodes, err) := NewNodesFromSysFS src sysfsPath in
  match err with
  | Some err => (None, Some err)
  | None =>
      let dist := {| onlineNodes := ∅; byNode := [] |} in
      NewDistancesFromSysfs_loop sysfsPath (Z.of_nat (length (Online nodes)))
        (Online nodes) dist
  end.
End Construction.

End distances.

(** ** Package pcidev: the address methods of [SRIOVDeviceInfo] *)
Module pciaddress.

Import pcidev distances.

(** [BusAddress]: the part of the address before the first colon *)
Definition BusAddress (sdi : SRIOVDeviceInfo) : exec string :=
  let items := gostrings.SplitN (address sdi) ":" 2 in
  index items 0.

(** [DevAddress]: the part of the address after the first colon *)
Definition DevAddress (sdi : SRIOVDeviceInfo) : exec string :=
  let items := gostrings.SplitN (address sdi) ":" 2 in
  index items 1.

End pciaddress.

(** ** Package fakesysfs *)
Module fakesysfs.

(** A [Tree] handle is a pointer to a [tree]; the store maps the addresses
    allocated so far to their nodes, the next allocation taking the address
    [length store]. *)
Abbreviation handle := nat (only parsing).

Record tree := {
  name : string;
  attrs : option (gmap string string);
  items : list handle;
}.

Abbreviation store := (list tree) (only parsing).

Definition NewTree (st : store) (name : string) (attrs : option (gmap string string))
    : store * handle :=
  (st ++ [{| name := name; attrs := attrs; items := [] |}], length st).

(** [t.Add]: the child is allocated first; [t] was allocated before it, and
    through a handle that points nowhere the access to [t.items] panics. *)
Definition Add (st : store) (t : handle) (name : string)
    (attrs : option (gmap string string)) : exec (store * handle) :=
  let '(st1, n) := NewTree st name attrs in
  match st !! t with
  | None => Panics "invalid memory address or nil pointer dereference"
  | Some node =>
      Returns (<[t := {| name := fakesysfs.name node; attrs := fakesysfs.attrs node;
                         items := items node ++ [n] |}]> st1, n)
  end.

Definition Items (st : store) (t : handle) : exec (list handle) :=
  match st !! t with
  | None => Panics "invalid memory address or nil pointer dereference"
  | Some node => Returns (items node)
  end.

Definition Name (st : store) (t : handle) : exec string :=
  match st !! t with
  | None => Panics "invalid memory address or nil pointer dereference"
  | Some node => Returns (name node)
  end.

Record FakeSysfs := {
  base : string;
  root : handle;
}.

Definition NewFakeSysfs (st : store) (base : string) : store * (FakeSysfs * option error) :=
  let '(st, r) := NewTree st "_" None in
  (st, ({| base := base; root := r |}, None)).

(** The loop of [AddTree]: [pos = pos.Add(entry, nil)] for every entry *)
Fixpoint AddTree_loop (st : store) (pos : handle) (entries : list string)
    : exec (store * handle) :=
  match entries with
  | [] => Returns (st, pos)
  | entry :: rest =>
      match Add st pos entry None with
      | Panics msg => Panics msg
      | Returns (st, pos) => AddTree_loop st pos rest
      end
  end.

Definition AddTree (st : store) (fs : FakeSysfs) (entries : list string)
    : exec (store * handle) :=
  let pos := root fs in
  AddTree_loop st pos entries.

Definition Base (fs : FakeSysfs) : string := base fs.
Definition Root (fs : FakeSysfs) : handle := root fs.

(** The chained calls [root.Add(e1, nil).Add(e2, nil). ... .Add(en, nil)] of
    the specification, as the expression nests: the receiver of the last
    [Add] is the value of the chain before it.  [chained_rev] takes the
    segments last first. *)
Fixpoint chained_rev (st : store) (root : handle) (rentries : list string)
    : exec (store * handle) :=
  match rentries with
  | [] => Returns (st, root)
  | en :: before =>
      match chained_rev st root before with
      | Panics msg => Panics msg
      | Returns (st, receiver) => Add st receiver en None
      end
  end.

Definition chained (st : store) (root : handle) (entries : list string)
    : exec (store * handle) :=
  chained_rev st root (rev entries).

(** *** Materialization *)

(** The calls that materialization makes on the operating system, as state
    passing over a world [W], and the order in which the runtime hands out
    the entries of a map to a [range] loop (any order, chosen anew at every
    loop: it may depend on the world). *)
Record OS (W : Type) := {
  Mkdir : string -> Z -> W -> W * option error;
  Chdir : string -> W -> W * option error;
  WriteFile : string -> string -> Z -> W -> W * option error;
  Getwd : W -> W * (string * option error);
  RemoveAll : string -> W -> W * option error;
  Range : gmap string string -> W -> list (string * string);
}.
Arguments Mkdir {W} _ _ _ _.
Arguments Chdir {W} _ _ _.
Arguments WriteFile {W} _ _ _ _ _.
Arguments Getwd {W} _ _.
Arguments RemoveAll {W} _ _ _.
Arguments Range {W} _ _ _.

(** The file modes [0644] and [0755] *)
Definition mode0644 : Z := 6 * 64 + 4 * 8 + 4.
Definition mode0755 : Z := 7 * 64 + 5 * 8 + 5.

Section Materialization.
Context {W : Type}.
Variable os : OS W.

(** The loop of [SetAttrs]: [break] at the first write that fails. *)
Fixpoint SetAttrs_loop (entries : list (string * string)) (w : W) (err : option error)
    : W * option error :=
  match entries with
  | [] => (w, err)
  | (name, content) :: rest =>
      let '(w, err) := WriteFile os name content mode0644 w in
      match err with
      | Some _ => (w, err)
      | None => SetAttrs_loop rest w err
      end
  end.

Definition SetAttrs (st : store) (t : handle) (w : W) : exec (W * option error) :=
  match st !! t with
  | None => Panics "invalid memory address or nil pointer dereference"
  | Some node =>
      match attrs node with
      | None => Returns (w, None)
      | Some m => Returns (SetAttrs_loop (Range os m w) w None)
      end
  end.

(** [createItem], given what [st.Create()] does: the error of [Chdir] is
    dropped, and the deferred [Chdir("..")] runs after [Create] returns.
    [None] stands for a recursion that the model cut short. *)
Definition createItem (Create : handle -> W -> option (exec (W * option error)))
    (st : store) (sub : handle) (w : W) : option (exec (W * option error)) :=
  match Name st sub with
  | Panics msg => Some (Panics msg)
  | Returns name =>
      let '(w, _) := Chdir os name w in
      match Create sub w with
      | None => None
      | Some (Panics msg) => Some (Panics msg)
      | Some (Returns (w, err)) =>
          let '(w, _) := Chdir os ".." w in
          Some (Returns (w, err))
      end
  end.

(** The loop of [createItems]: [break] when [Mkdir] fails; the error of
    [createItem] is kept in [err] and the loop goes on. *)
Fixpoint createItems (Create : handle -> W -> option (exec (W * option error)))
    (st : store) (t : list handle) (w : W) (err : option error)
    : option (exec (W * option error)) :=
  match t with
  | [] => Some (Returns (w, err))
  | sub :: rest =>
      match Name st sub with
      | Panics msg => Some (Panics msg)
      | Returns name =>
          let '(w, err) := Mkdir os name mode0755 w in
          match err with
          | Some _ => Some (Returns (w, err))
          | None =>
              match createItem Create st sub w with
              | None => None
              | Some (Panics msg) => Some (Panics msg)
              | Some (Returns (w, err)) => createItems Create st rest w err
              end
          end
      end
  end.

(** [creator.Create], which [tree.Create] calls on itself.  The recursion
    through [createItem] follows the handles of the store; [fuel] bounds
    its depth. *)
Fixpoint Create (fuel : nat) (st : store) (t : handle) (w : W)
    : option (exec (W * option error)) :=
  match fuel with
  | O => None
  | S fuel =>
      match SetAttrs st t w with
      | Panics msg => Some (Panics msg)
      | Returns (w, Some err) => Some (Returns (w, Some err))
      | Returns (w, None) =>
          match Items st t with
          | Panics msg => Some (Panics msg)
          | Returns items => createItems (Create fuel st) st items w None
          end
      end
  end.

Definition Setup (fuel : nat) (st : store) (fs : FakeSysfs) (w : W)
    : option (exec (W * option error)) :=
  let '(w, (oldWd, err)) := Getwd os w in
  match err with
  | Some err => Some (Returns (w, Some err))
  | None =>
      let '(w, _) := Chdir os (base fs) w in
      match Create fuel st (root fs) w with
      | None => None
      | Some (Panics msg) => Some (Panics msg)
      | Some (Returns (w, err)) =>
          let '(w, _) := Chdir os oldWd w in
          Some (Returns (w, err))
      end
  end.

Definition Teardown (fs : FakeSysfs) (w : W) : W * option error :=
  RemoveAll os (base fs) w.
End Materialization.

(** The calls, for the record of what a run did. *)
Inductive call :=
| CallMkdir (name : string) (perm : Z)
| CallChdir (dir : string)
| CallWriteFile (name content : string) (perm : Z)
| CallGetwd
| CallRemoveAll (path : string).

(** An operating system that also keeps the list of the calls made. *)
Definition recording {W : Type} (os : OS W) : OS (W * list call) :=
  {| Mkdir name perm '(w, log) :=
       let '(w, err) := Mkdir os name perm w in ((w, log ++ [CallMkdir name perm]), err);
     Chdir dir '(w, log) :=
       let '(w, err) := Chdir os dir w in ((w, log ++ [CallChdir dir]), err);
     WriteFile name content perm '(w, log) :=
       let '(w, err) := WriteFile os name content perm w in
       ((w, log ++ [CallWriteFile name content perm]), err);
     Getwd '(w, log) :=
       let '(w, r) := Getwd os w in ((w, log ++ [CallGetwd]), r);
     RemoveAll path '(w, log) :=
       let '(w, err) := RemoveAll os path w in ((w, log ++ [CallRemoveAll path]), err);
     Range m '(w, _) := Range os m w |}.

End fakesysfs.

(** ** Fixtures *)

(** Synthetic sysfs trees, as the tests of the repository build them with
    [fakesysfs]: a table from paths to what is found there. *)
Module fixtures.

Import pcidev distances.

Inductive entryKind :=
| Dir (names : list string)
| File (content : string)
| Symlink (dest : string).

Definition table := list (string * entryKind).

Fixpoint find (tbl : table) (path : string) : option entryKind :=
  match tbl with
  | [] => None
  | (p, k) :: rest => if String.eqb p path then Some k else find rest path
  end.

(** Every listed path exists (a link's destination too, so that [stat]
    through it succeeds); reading a directory or following a regular file
    as a link fails as on Linux. *)
Definition fileSystem (tbl : table) : FileSystem :=
  {| ReadDir path :=
       match find tbl path with
       | Some (Dir names) => (names, None)
       | Some _ => ([], Some (PathError "readdirent" path ENOTDIR))
       | None => ([], Some (PathError "open" path ENOENT))
       end;
     Stat path :=
       match find tbl path with
       | Some _ => None
       | None => Some (PathError "stat" path ENOENT)
       end;
     Readlink path :=
       match find tbl path with
       | Some (Symlink dest) => (dest, None)
       | Some _ => ("", Some (PathError "readlink" path EINVAL))
       | None => ("", Some (PathError "readlink" path ENOENT))
       end;
     ReadFile path :=
       match find tbl path with
       | Some (File content) => (content, None)
       | Some _ => ("", Some (PathError "read" path EIO))
       | None => ("", Some (PathError "open" path ENOENT))
       end |}.

Definition devicesDir : string := "/sys/bus/pci/devices".

(** One device whose [numa_node] holds no number. *)
Definition malformedNUMANode : table :=
  [ (devicesDir, Dir ["0000:00:01.0"]);
    ("/sys/bus/pci/devices/0000:00:01.0/numa_node", File "abc");
    ("/sys/bus/pci/devices/0000:00:01.0/class", File "0x020000");
    ("/sys/bus/pci/devices/0000:00:01.0/vendor", File "0x8086");
    ("/sys/bus/pci/devices/0000:00:01.0/device", File "0x1521") ].

(** A physical function whose [sriov_numvfs] holds a number past the range
    of [int]. *)
Definition hugeNumVFS : table :=
  [ (devicesDir, Dir ["0000:00:01.0"]);
    ("/sys/bus/pci/devices/0000:00:01.0/sriov_numvfs", File "9223372036854775808");
    ("/sys/bus/pci/devices/0000:00:01.0/numa_node", File "0");
    ("/sys/bus/pci/devices/0000:00:01.0/class", File "0x020000");
    ("/sys/bus/pci/devices/0000:00:01.0/vendor", File "0x8086");
    ("/sys/bus/pci/devices/0000:00:01.0/device", File "0x1521") ].

(** A physical function with four virtual functions configured and no NUMA
    node reported, one of its virtual functions, and a device whose
    [physfn] is a regular file, as [fakesysfs] writes attributes. *)
Definition sriovTree : table :=
  [ (devicesDir, Dir ["0000:00:01.0"; "0000:00:01.1"; "0000:00:02.0"]);
    ("/sys/bus/pci/devices/0000:00:01.0/sriov_numvfs", File "4
");
    ("/sys/bus/pci/devices/0000:00:01.0/numa_node", File "-1
");
    ("/sys/bus/pci/devices/0000:00:01.0/class", File "0x020000
");
    ("/sys/bus/pci/devices/0000:00:01.0/vendor", File "0x8086
");
    ("/sys/bus/pci/devices/0000:00:01.0/device", File "0x1521
");
    ("/sys/bus/pci/devices/0000:00:01.1/physfn", Symlink "../0000:00:01.0");
    ("/sys/bus/pci/devices/0000:00:01.1/numa_node", File "-1
");
    ("/sys/bus/pci/devices/0000:00:01.1/class", File "0x020000
");
    ("/sys/bus/pci/devices/0000:00:01.1/vendor", File "0x8086
");
    ("/sys/bus/pci/devices/0000:00:01.1/device", File "0x1520
");
    ("/sys/bus/pci/devices/0000:00:02.0/physfn", File "0000:00:01.0");
    ("/sys/bus/pci/devices/0000:00:02.0/numa_node", File "0");
    ("/sys/bus/pci/devices/0000:00:02.0/class", File "0x020000");
    ("/sys/bus/pci/devices/0000:00:02.0/vendor", File "0x8086");
    ("/sys/bus/pci/devices/0000:00:02.0/device", File "0x1520") ].

(** The devices that discovery reports on [sriovTree]. *)
Definition sriovPF : SRIOVDeviceInfo :=
  {| IsPhysFn := true; NumVFS := 4; IsVFn := false; ParentFn := "";
     address := "0000:00:01.0"; numaNode := -1; devClass := 0x0200;
     vendor := 0x8086; device := 0x1521;
     sysfsPath := "/sys/bus/pci/devices/0000:00:01.0" |}.

Definition sriovVF : SRIOVDeviceInfo :=
  {| IsPhysFn := false; NumVFS := 0; IsVFn := true; ParentFn := "0000:00:01.0";
     address := "0000:00:01.1"; numaNode := -1; devClass := 0x0200;
     vendor := 0x8086; device := 0x1520;
     sysfsPath := "/sys/bus/pci/devices/0000:00:01.1" |}.

Definition sriovNoLink : SRIOVDeviceInfo :=
  {| IsPhysFn := false; NumVFS := 0; IsVFn := true; ParentFn := "";
     address := "0000:00:02.0"; numaNode := 0; devClass := 0x0200;
     vendor := 0x8086; device := 0x1520;
     sysfsPath := "/sys/bus/pci/devices/0000:00:02.0" |}.

Definition sriovDevices : PCIDevices SRIOVDeviceInfo :=
  {| Items := [sriovPF; sriovVF; sriovNoLink] |}.

(** Devices on the nodes 0, 0, 1 and -1, in this order. *)
Definition onNode (addr : string) (node : Z) : SRIOVDeviceInfo :=
  {| IsPhysFn := false; NumVFS := 0; IsVFn := false; ParentFn := "";
     address := addr; numaNode := node; devClass := DevClassNetwork;
     vendor := 0x8086; device := 0x1521;
     sysfsPath := filepath.Join [devicesDir; addr] |}.

Definition fourDevices : PCIDevices SRIOVDeviceInfo :=
  {| Items := [ onNode "0000:00:01.0" 0; onNode "0000:00:02.0" 0;
                onNode "0000:81:00.0" 1; onNode "0000:ff:00.0" (-1) ] |}.

(** The node source of a machine whose online nodes are the first
    components of [files], in this order, each with the content of its
    [distance] file. *)
Fixpoint distanceOf (files : list (Z * string)) (nodeID : Z) : option string :=
  match files with
  | [] => None
  | (id, data) :: rest => if id =? nodeID then Some data else distanceOf rest nodeID
  end.

Definition nodeSource (files : list (Z * string)) : NodeSource :=
  {| NewNodesFromSysFS _ := ({| Online := files.*1 |}, None);
     ForNodeReadFile _ nodeID name :=
       match (if String.eqb name "distance" then distanceOf files nodeID else None) with
       | Some data => (data, None)
       | None => ("", Some (PathError "open" name ENOENT))
       end |}.

Definition twoNodes : NodeSource := nodeSource [(0, "10 20"); (1, "20 10")].

(** Node 1 is offline: the online nodes are 0 and 2. *)
Definition sparseNodes : NodeSource := nodeSource [(0, "10 20"); (2, "20 10")].

(** Node 0 has the right number of tokens but not numbers; node 1 has one
    token where two are expected. *)
Definition badThenShort : NodeSource := nodeSource [(0, "x y"); (1, "10")].





End fixtures.

(** ** Vocabulary of the statements *)
Module vocabulary.

Import pcidev.

(** The directory that [NewPCIDevices] lists, and the path of an attribute
    of the device directory [entry] in it. *)
Definition devicesPath (sysfs : string) : string :=
  filepath.Join [sysfs; PathBusPCIDevices].

Definition attrPath (sysfsPath entry attr : string) : string :=
  filepath.Join [filepath.Join [sysfsPath; entry]; attr].

(** The outcome of [os.Stat] on an optional file that does not make the
    code bail out: the file is there, or it does not exist. *)
Definition presentOrAbsent (o : option error) : bool :=
  match o with
  | None => true
  | Some err => IsNotExist err
  end.

Definition isNil (o : option error) : bool :=
  match o with
  | None => true
  | Some _ => false
  end.

(** What the code needs of a device directory to report the device: no
    unexpected [stat] failure on the optional entries, and [class],
    [vendor] and [device] readable as numbers. *)
Definition scannable (fs : FileSystem) (sysfsPath entry : string) : bool :=
  presentOrAbsent (Stat fs (attrPath sysfsPath entry "sriov_numvfs"))
  && presentOrAbsent (Stat fs (attrPath sysfsPath entry "physfn"))
  && isNil (snd (readHexInt64 fs (attrPath sysfsPath entry "class")))
  && isNil (snd (readHexInt64 fs (attrPath sysfsPath entry "vendor")))
  && isNil (snd (readHexInt64 fs (attrPath sysfsPath entry "device"))).

(** The bounds of Go's [int] on the 64-bit platforms the tool runs on. *)
Definition maxInt : Z := 2 ^ 63 - 1.
Definition minInt : Z := - 2 ^ 63.

(** Decimal numerals: the string of the digits [ds], most significant
    first, and the number it denotes. *)
Definition digitChar (d : Z) : ascii := ascii_of_N (Z.to_N (48 + d)).

Fixpoint numeral (ds : list Z) : string :=
  match ds with
  | [] => EmptyString
  | d :: rest => String (digitChar d) (numeral rest)
  end.

Fixpoint numeralValue_from (acc : Z) (ds : list Z) : Z :=
  match ds with
  | [] => acc
  | d :: rest => numeralValue_from (acc * 10 + d) rest
  end.

Definition numeralValue (ds : list Z) : Z := numeralValue_from 0 ds.

Definition isDigits (ds : list Z) : Prop :=
  ds ≠ [] ∧ Forall (λ d, 0 ≤ d ≤ 9) ds.

(** The error with which the loop body of [NewPCIDevices] leaves a device
    directory, if any, in the order in which the body looks: an unexpected
    failure of [stat] on [sriov_numvfs], then on [physfn], then what reading
    [class], [vendor] and [device] reports. *)
Definition unexpected (o : option error) : option error :=
  match o with
  | Some err => if IsNotExist err then None else Some err
  | None => None
  end.

Fixpoint firstError (l : list (option error)) : option error :=
  match l with
  | [] => None
  | Some err :: _ => Some err
  | None :: rest => firstError rest
  end.

Definition scanError (fs : FileSystem) (sysfsPath entry : string) : option error :=
  firstError
    [ unexpected (Stat fs (attrPath sysfsPath entry "sriov_numvfs"));
      unexpected (Stat fs (attrPath sysfsPath entry "physfn"));
      snd (readHexInt64 fs (attrPath sysfsPath entry "class"));
      snd (readHexInt64 fs (attrPath sysfsPath entry "vendor"));
      snd (readHexInt64 fs (attrPath sysfsPath entry "device")) ].

(** White space of the ASCII kind, as the files of sysfs have it after
    their value (a newline). *)
Definition isSpaces (s : string) : Prop :=
  Forall (λ c, gostrings.asciiSpace (strconv.byteZ c) = true) (list_ascii_of_string s).

(** Hexadecimal digits, in lower or upper case, and the number that a
    string of them denotes; [None] for the empty string and for a string
    with another character. *)
Definition hexDigitValue (c : ascii) : option Z :=
  let b := strconv.byteZ c in
  if (48 <=? b) && (b <=? 57) then Some (b - 48)
  else if (97 <=? b) && (b <=? 102) then Some (b - 87)
  else if (65 <=? b) && (b <=? 70) then Some (b - 55)
  else None.

Fixpoint hexValue_from (acc : Z) (s : string) : option Z :=
  match s with
  | EmptyString => Some acc
  | String c rest =>
      match hexDigitValue c with
      | Some d => hexValue_from (acc * 16 + d) rest
      | None => None
      end
  end.

Definition hexValue (s : string) : option Z :=
  match s with
  | EmptyString => None
  | _ => hexValue_from 0 s
  end.

(** The two spellings of the prefix of a hexadecimal numeral. *)
Definition hexPrefix (p : string) : Prop := p = "0x" ∨ p = "0X".

(** A byte of the ASCII range that is not white space. *)
Definition plainByte (c : ascii) : Prop :=
  strconv.byteZ c < 128 ∧ gostrings.asciiSpace (strconv.byteZ c) = false.

(** The error with which [NewDistancesFromSysfs] leaves an online node, if
    any: that of reading its [distance] file, else that of
    [nodeDistancesFromString] on the content. *)
Definition nodeError (src : distances.NodeSource) (sysfsPath : string) (numaNodes nodeID : Z)
    : option error :=
  match distances.ForNodeReadFile src sysfsPath nodeID "distance" with
  | (_, Some err) => Some err
  | (data, None) => snd (distances.nodeDistancesFromString numaNodes data)
  end.

(** The numbers that [Atoi] makes of the tokens of a distance file. *)
Definition parsedTokens (data : string) : list Z :=
  (λ tok, fst (strconv.Atoi tok)) <$> gostrings.Split data distances.distanceSeparator.

(** The store is a forest: the items of a node are allocated handles
    greater than the node's own, and no handle is an item twice. *)
Definition forest (st : list fakesysfs.tree) : Prop :=
  (∀ t node, st !! t = Some node →
             Forall (λ sub, (t < sub < length st)%nat) (fakesysfs.items node))
  ∧ NoDup (mjoin (fakesysfs.items <$> st)).

(** The writes of the attribute files of a node, one per attribute. *)
Definition attrCalls (entries : list (string * string)) : list fakesysfs.call :=
  (λ '(name, content), fakesysfs.CallWriteFile name content fakesysfs.mode0644) <$> entries.

(** The calls that materialize the nodes below [t], depth first: the
    attribute files of [t], in some order, then for each item of [t], in
    order, its directory made and entered, the item materialized, and the
    directory left. *)
Inductive materializes (st : list fakesysfs.tree) : nat → list fakesysfs.call → Prop :=
| materializes_node t node writes body :
    st !! t = Some node →
    writes ≡ₚ match fakesysfs.attrs node with
              | None => []
              | Some m => attrCalls (map_to_list m)
              end →
    materializesItems st (fakesysfs.items node) body →
    materializes st t (writes ++ body)
with materializesItems (st : list fakesysfs.tree) : list nat → list fakesysfs.call → Prop :=
| materializesItems_nil : materializesItems st [] []
| materializesItems_cons sub subnode inner rest body :
    st !! sub = Some subnode →
    materializes st sub inner →
    materializesItems st rest body →
    materializesItems st (sub :: rest)
      ([fakesysfs.CallMkdir (fakesysfs.name subnode) fakesysfs.mode0755;
        fakesysfs.CallChdir (fakesysfs.name subnode)]
       ++ inner ++ [fakesysfs.CallChdir ".."] ++ body).

(** An operating system on which no directory creation and no write
    fails, and a runtime whose [range] hands out every entry of a map
    once. *)
Definition neverFails {W : Type} (os : fakesysfs.OS W) : Prop :=
  (∀ name perm w, snd (fakesysfs.Mkdir os name perm w) = None)
  ∧ (∀ name content perm w, snd (fakesysfs.WriteFile os name content perm w) = None).

Definition rangeSound {W : Type} (os : fakesysfs.OS W) : Prop :=
  ∀ m w, fakesysfs.Range os m w ≡ₚ map_to_list m.

End vocabulary.

(** ** Trees and operating systems to run materialization on *)
Module examples.

Import fakesysfs.

Definition tmpSysfs : FakeSysfs := {| base := "/tmp/fakesysfs"; root := 0 |}.

(** The store after [AddTree("bus", "pci")] on a new [FakeSysfs]. *)
Definition pathStore : list tree :=
  [ {| name := "_"; attrs := None; items := [1%nat] |};
    {| name := "bus"; attrs := None; items := [2%nat] |};
    {| name := "pci"; attrs := None; items := [] |} ].

(** The store after [Add("0000:00:01.0", {numa_node: 0})] and
    [Add("empty", nil)] on the root of a new [FakeSysfs]. *)
Definition deviceStore : list tree :=
  [ {| name := "_"; attrs := None; items := [1%nat; 2%nat] |};
    {| name := "0000:00:01.0"; attrs := Some {[ "numa_node" := "0" ]}; items := [] |};
    {| name := "empty"; attrs := None; items := [] |} ].

(** An operating system on which every call succeeds, and one on which
    files cannot be written; the world is the working directory, which the
    calls leave alone. *)
Definition quietOS : OS string :=
  {| Mkdir _ _ w := (w, None);
     Chdir _ w := (w, None);
     WriteFile _ _ _ w := (w, None);
     Getwd w := (w, (w, None));
     RemoveAll _ w := (w, None);
     Range m _ := map_to_list m |}.

Definition readOnlyOS : OS string :=
  {| Mkdir _ _ w := (w, None);
     Chdir _ w := (w, None);
     WriteFile name _ _ w := (w, Some (PathError "open" name EACCES));
     Getwd w := (w, (w, None));
     RemoveAll _ w := (w, None);
     Range m _ := map_to_list m |}.

End examples.

(** * Properties *)

(** ** pcidev: discovery *)
Section DiscoveryFacts.
Import pcidev vocabulary.
Variable fs : FileSystem.
Variable sysfsPath : string.

Lemma scanEntry_inl entry d :
  scanEntry fs sysfsPath entry = inl d →
  address d = entry
  ∧ pcidev.sysfsPath d = filepath.Join [sysfsPath; entry]
  ∧ match Stat fs (attrPath sysfsPath entry "sriov_numvfs") with
    | None => IsPhysFn d = true
              ∧ NumVFS d = fst (readInt fs (attrPath sysfsPath entry "sriov_numvfs"))
    | Some err => IsNotExist err = true ∧ IsPhysFn d = false ∧ NumVFS d = 0
    end
  ∧ match Stat fs (attrPath sysfsPath entry "physfn") with
    | None => IsVFn d = true
              ∧ ParentFn d =
                  match Readlink fs (attrPath sysfsPath entry "physfn") with
                  | (dest, None) => filepath.Base dest
                  | (_, Some _) => ""
                  end
    | Some err => IsNotExist err = true ∧ IsVFn d = false ∧ ParentFn d = ""
    end
  ∧ numaNode d = fst (readInt fs (attrPath sysfsPath entry "numa_node"))
  ∧ scannable fs sysfsPath entry = true.
Proof.
  unfold scanEntry, scannable, attrPath.
  destruct (Stat fs (filepath.Join [filepath.Join [sysfsPath; entry]; "sriov_numvfs"]))
    as [e1|] eqn:Hs1;
    [destruct (IsNotExist e1) eqn:Hn1; cbn [negb]; [|intros [=]]|];
  (destruct (Stat fs (filepath.Join [filepath.Join [sysfsPath; entry]; "physfn"]))
    as [e2|] eqn:Hs2;
    [destruct (IsNotExist e2) eqn:Hn2; cbn [negb]; [|intros [=]]|]);
  destruct (readInt fs (filepath.Join [_; "numa_node"])) as [nodeNum enode];
  destruct (readHexInt64 fs (filepath.Join [_; "class"])) as [c [ec|]]; try solve [intros [=]];
  destruct (readHexInt64 fs (filepath.Join [_; "vendor"])) as [v [ev|]]; try solve [intros [=]];
  destruct (readHexInt64 fs (filepath.Join [_; "device"])) as [dv [ed|]]; try solve [intros [=]];
  intros [= <-];
  cbn [address pcidev.sysfsPath IsPhysFn NumVFS IsVFn ParentFn numaNode
       fst snd isNil presentOrAbsent andb];
  rewrite ?Hn1, ?Hn2; repeat split; reflexivity.
Qed.

Lemma scanEntry_scannable entry :
  scannable fs sysfsPath entry = true → ∃ d, scanEntry fs sysfsPath entry = inl d.
Proof.
  unfold scanEntry, scannable, attrPath, presentOrAbsent, isNil.
  intros Hs. repeat (apply andb_prop in Hs as [Hs ?]).
  destruct (Stat fs (filepath.Join [filepath.Join [sysfsPath; entry]; "sriov_numvfs"]))
    as [e1|]; [rewrite Hs; cbn [negb]|];
  (destruct (Stat fs (filepath.Join [filepath.Join [sysfsPath; entry]; "physfn"]))
    as [e2|]; [match goal with H : IsNotExist e2 = true |- _ => rewrite H end; cbn [negb]|]);
  destruct (readInt fs (filepath.Join [_; "numa_node"])) as [nodeNum enode];
  destruct (readHexInt64 fs (filepath.Join [_; "class"])) as [c [ec|]];
  destruct (readHexInt64 fs (filepath.Join [_; "vendor"])) as [v [ev|]];
  destruct (readHexInt64 fs (filepath.Join [_; "device"])) as [dv [ed|]];
  cbn [snd] in *; try discriminate; eexists; reflexivity.
Qed.

(** The loop appends one device per entry, in the order of the listing,
    or stops at the first entry that cannot be scanned. *)
Lemma NewPCIDevices_loop_inv entries : ∀ allPCIDevs pd,
  NewPCIDevices_loop fs sysfsPath entries allPCIDevs = (Some pd, None) →
  ∃ devs, Items pd = allPCIDevs ++ devs
          ∧ Forall2 (λ entry d, scanEntry fs sysfsPath entry = inl d) entries devs.
Proof.
  induction entries as [|entry rest IH]; intros acc pd; simpl.
  - intros [= <-]. exists []. rewrite app_nil_r. split; [reflexivity | constructor].
  - destruct (scanEntry fs sysfsPath entry) as [d|err] eqn:Hscan; [|discriminate].
    intros Hloop. destruct (IH _ _ Hloop) as (devs & Hitems & Hall).
    exists (d :: devs). rewrite Hitems, <- app_assoc. split; [reflexivity|].
    constructor; assumption.
Qed.

Lemma NewPCIDevices_loop_scannable entries : ∀ allPCIDevs,
  Forall (λ entry, scannable fs sysfsPath entry = true) entries →
  ∃ pd, NewPCIDevices_loop fs sysfsPath entries allPCIDevs = (Some pd, None).
Proof.
  induction entries as [|entry rest IH]; intros acc Hall; simpl.
  - eexists; reflexivity.
  - inversion Hall as [|? ? Hentry Hrest]; subst.
    destruct (scanEntry_scannable _ Hentry) as [d ->]. apply IH, Hrest.
Qed.

(** Either a collection and no error, or an error and no collection. *)
Lemma NewPCIDevices_loop_result entries : ∀ allPCIDevs,
  (∃ pd, NewPCIDevices_loop fs sysfsPath entries allPCIDevs = (Some pd, None))
  ∨ (∃ err, NewPCIDevices_loop fs sysfsPath entries allPCIDevs = (None, Some err)).
Proof.
  induction entries as [|entry rest IH]; intros acc; simpl.
  - left; eexists; reflexivity.
  - destruct (scanEntry fs sysfsPath entry) as [d|err]; [apply IH|].
    right; eexists; reflexivity.
Qed.
End DiscoveryFacts.

Section NewPCIDevicesFacts.
Import pcidev vocabulary.
Variable fs : FileSystem.
Variable sysfs : string.

(** A successful discovery lists the directory and reports exactly one
    device per entry, under the entry's name and in the listing's order;
    every reported device is what the loop body makes of its directory. *)
Lemma NewPCIDevices_inv pd :
  NewPCIDevices fs sysfs = (Some pd, None) →
  ReadDir fs (devicesPath sysfs) = (address <$> Items pd, None)
  ∧ ∀ d, d ∈ Items pd → scanEntry fs (devicesPath sysfs) (address d) = inl d.
Proof.
  unfold NewPCIDevices, devicesPath.
  destruct (ReadDir fs (filepath.Join [sysfs; PathBusPCIDevices])) as [entries [err|]];
    [discriminate|].
  intros Hloop. apply NewPCIDevices_loop_inv in Hloop as (devs & Hitems & Hall).
  simpl in Hitems. rewrite Hitems. clear Hitems. split.
  - f_equal. induction Hall as [|entry d ? ? Hd _ IH]; [reflexivity|].
    simpl. apply scanEntry_inl in Hd as (-> & _). f_equal. exact IH.
  - intros d Hd. induction Hall as [|entry d' ? ? Hd' _ IH]; [inversion Hd|].
    apply elem_of_cons in Hd as [->|Hd]; [|exact (IH Hd)].
    pose proof (scanEntry_inl _ _ _ _ Hd') as (-> & _). exact Hd'.
Qed.

Lemma NewPCIDevices_scannable entries :
  ReadDir fs (devicesPath sysfs) = (entries, None) →
  Forall (λ entry, scannable fs (devicesPath sysfs) entry = true) entries →
  ∃ pd, NewPCIDevices fs sysfs = (Some pd, None).
Proof.
  unfold NewPCIDevices, devicesPath. intros -> Hall.
  apply NewPCIDevices_loop_scannable, Hall.
Qed.
End NewPCIDevicesFacts.

(** ** strconv: what a failed [Atoi] returns *)
Section AtoiFacts.
Import strconv vocabulary.

Lemma ParseUint_loop_error base0 base cutoff maxVal s0 s : ∀ underscores n v err u,
  ParseUint_loop base0 base cutoff maxVal s0 s underscores n = (v, Some err, u) →
  (v = 0 ∧ err = syntaxError "ParseUint" s0)
  ∨ (v = maxVal ∧ err = rangeError "ParseUint" s0).
Proof.
  induction s as [|ch rest IH]; intros underscores n v err u; cbn [ParseUint_loop].
  - intros [=].
  - destruct ((byteZ ch =? 95) && base0); [apply IH|].
    destruct (if (48 <=? byteZ ch) && (byteZ ch <=? 57) then _ else _) as [d|];
      [|intros [= <- <- _]; left; split; reflexivity].
    destruct (base <=? d); [intros [= <- <- _]; left; split; reflexivity|].
    destruct (cutoff <=? n); [intros [= <- <- _]; right; split; reflexivity|].
    cbv zeta.
    destruct (((n * base + d) mod 2 ^ 64 <? n * base) || (maxVal <? (n * base + d) mod 2 ^ 64));
      [intros [= <- <- _]; right; split; reflexivity|apply IH].
Qed.

Lemma ParseUint_10_error s v err :
  ParseUint s 10 0 = (v, Some err) →
  (v = 0 ∧ err = syntaxError "ParseUint" s)
  ∨ (v = 2 ^ 64 - 1 ∧ err = rangeError "ParseUint" s).
Proof.
  destruct s as [|c0 tl]; [intros [= <- <-]; left; split; reflexivity|].
  unfold ParseUint.
  change ((2 <=? 10) && (10 <=? 36)) with true.
  change ((0 <? 0) || (64 <? 0)) with false.
  change (10 =? 0) with false. change (0 =? 0) with true. cbv iota zeta.
  change (2 ^ IntSize - 1) with (2 ^ 64 - 1).
  destruct (ParseUint_loop _ _ _ _ _ _ _ _) as [[n [e|]] u] eqn:Hloop.
  - intros [= <- <-]. apply ParseUint_loop_error in Hloop. exact Hloop.
  - destruct (u && negb (underscoreOK (String c0 tl)));
      [intros [= <- <-]; left; split; reflexivity | intros [=]].
Qed.

(** A failed [Atoi] returns 0 with a syntax error, or the nearest bound of
    [int] with a range error. *)
Lemma Atoi_error s n err :
  Atoi s = (n, Some err) →
  (n = 0 ∧ err = NumError "Atoi" s ErrSyntax)
  ∨ ((n = maxInt ∨ n = minInt) ∧ err = NumError "Atoi" s ErrRange).
Proof.
  unfold Atoi. destruct s as [|c0 tl]; [intros [= <- <-]; left; split; reflexivity|].
  unfold ParseInt.
  destruct (if byteZ c0 =? 43 then _ else _) as [neg s'].
  destruct (ParseUint s' 10 0) as [un [e|]] eqn:Hu.
  - apply ParseUint_10_error in Hu as [[-> ->]|[-> ->]].
    + intros [= <- <-]. left; split; reflexivity.
    + unfold rangeError. destruct neg; intros [= <- <-]; right; split;
        first [reflexivity | left; reflexivity | right; reflexivity].
  - change (if 0 =? 0 then IntSize else 0) with 64. cbv zeta.
    destruct (negb neg && (2 ^ (64 - 1) <=? un));
      [intros [= <- <-]; right; split; [left|]; reflexivity|].
    destruct (neg && (2 ^ (64 - 1) <? un));
      [intros [= <- <-]; right; split; [right|]; reflexivity|].
    intros [=].
Qed.
Lemma byteZ_digitChar d : 0 ≤ d ≤ 9 → byteZ (digitChar d) = 48 + d.
Proof.
  intros Hd. unfold byteZ, digitChar. rewrite N_ascii_embedding; lia.
Qed.

Lemma numeralValue_from_ge ds : ∀ acc,
  Forall (λ d, 0 ≤ d ≤ 9) ds → 0 ≤ acc → acc ≤ numeralValue_from acc ds.
Proof.
  induction ds as [|d ds IH]; intros acc Hds Hacc; cbn [numeralValue_from]; [lia|].
  inversion Hds as [|? ? Hd Hrest]; subst.
  specialize (IH (acc * 10 + d) Hrest). lia.
Qed.

(** On a string of decimal digits whose number fits 64 bits, the loop of
    [ParseUint] reads the number. *)
Lemma ParseUint_loop_numeral s0 ds : ∀ n,
  Forall (λ d, 0 ≤ d ≤ 9) ds → 0 ≤ n → numeralValue_from n ds ≤ 2 ^ 64 - 1 →
  ParseUint_loop false 10 (maxUint64 / 10 + 1) (2 ^ 64 - 1) s0 (numeral ds) false n
  = (numeralValue_from n ds, None, false).
Proof.
  induction ds as [|d ds IH]; intros n Hds Hn Hfit; [reflexivity|].
  inversion Hds as [|? ? Hd Hrest]; subst.
  cbn [numeral numeralValue_from ParseUint_loop] in *.
  pose proof (numeralValue_from_ge ds (n * 10 + d) Hrest ltac:(lia)) as Hge.
  rewrite (byteZ_digitChar d Hd), andb_false_r.
  assert (H1 : (48 <=? 48 + d) && (48 + d <=? 57) = true).
  { apply andb_true_intro. split; apply Z.leb_le; lia. }
  rewrite H1. replace (48 + d - 48) with d by lia.
  assert (H2 : (10 <=? d) = false) by (apply Z.leb_gt; lia).
  assert (H3 : (maxUint64 / 10 + 1 <=? n) = false).
  { apply Z.leb_gt. change (maxUint64 / 10 + 1) with 1844674407370955162. lia. }
  rewrite H2, H3. cbv zeta.
  rewrite (Z.mod_small (n * 10 + d) (2 ^ 64)) by lia.
  assert (H4 : (n * 10 + d <? n * 10) || (2 ^ 64 - 1 <? n * 10 + d) = false).
  { apply orb_false_intro; apply Z.ltb_ge; lia. }
  rewrite H4. apply IH; [exact Hrest | lia | exact Hfit].
Qed.

Lemma ParseUint_numeral ds :
  isDigits ds → numeralValue ds ≤ 2 ^ 64 - 1 →
  ParseUint (numeral ds) 10 0 = (numeralValue ds, None).
Proof.
  intros [Hne Hds] Hfit. unfold ParseUint.
  destruct (numeral ds) as [|c0 tl] eqn:Hs; [destruct ds; [congruence | discriminate]|].
  change ((2 <=? 10) && (10 <=? 36)) with true.
  change ((0 <? 0) || (64 <? 0)) with false.
  change (10 =? 0) with false. change (0 =? 0) with true. cbv iota zeta.
  change (2 ^ IntSize - 1) with (2 ^ 64 - 1).
  rewrite <- Hs, (ParseUint_loop_numeral (numeral ds) ds 0 Hds ltac:(lia) Hfit).
  reflexivity.
Qed.

(** [Atoi] on a decimal numeral, plain or signed, whose number is in the
    range of [int], returns the number and no error. *)
Lemma Atoi_numeral ds :
  isDigits ds →
  (numeralValue ds ≤ maxInt →
   Atoi (numeral ds) = (numeralValue ds, None)
   ∧ Atoi ("+" +:+ numeral ds) = (numeralValue ds, None))
  ∧ (minInt ≤ - numeralValue ds → Atoi ("-" +:+ numeral ds) = (- numeralValue ds, None)).
Proof.
  intros Hds. pose proof Hds as [Hne Hall].
  pose proof (numeralValue_from_ge ds 0 Hall ltac:(lia)) as Hpos.
  fold (numeralValue ds) in Hpos. unfold maxInt, minInt.
  assert (Hhead : ∃ d rest, ds = d :: rest ∧ 0 ≤ d ≤ 9).
  { destruct ds as [|d rest]; [congruence|]. inversion Hall; subst. eauto. }
  destruct Hhead as (d & rest & Hcons & Hd).
  split; [intros Hmax; split | intros Hmin].
  - unfold Atoi, ParseInt. rewrite Hcons at 1 2. cbn [numeral].
    rewrite (byteZ_digitChar d Hd).
    destruct (Z.eqb_spec (48 + d) 43); [lia|]. destruct (Z.eqb_spec (48 + d) 45); [lia|].
    change (String (digitChar d) (numeral rest)) with (numeral (d :: rest)).
    rewrite <- Hcons, (ParseUint_numeral ds Hds) by lia.
    change (if 0 =? 0 then IntSize else 0) with 64. cbv zeta. cbn [negb andb].
    destruct (Z.leb_spec (2 ^ (64 - 1)) (numeralValue ds)); [lia | reflexivity].
  - unfold Atoi, ParseInt.
    change ("+" +:+ numeral ds) with (String "+" (numeral ds)).
    cbv beta iota zeta. change (byteZ "+" =? 43) with true. cbv beta iota zeta.
    rewrite (ParseUint_numeral ds Hds) by lia.
    change (if 0 =? 0 then IntSize else 0) with 64. cbv zeta. cbn [negb andb].
    destruct (Z.leb_spec (2 ^ (64 - 1)) (numeralValue ds)); [lia | reflexivity].
  - unfold Atoi, ParseInt.
    change ("-" +:+ numeral ds) with (String "-" (numeral ds)).
    cbv beta iota zeta.
    change (byteZ "-" =? 43) with false. change (byteZ "-" =? 45) with true.
    cbv beta iota zeta.
    rewrite (ParseUint_numeral ds Hds) by lia.
    change (if 0 =? 0 then IntSize else 0) with 64. cbv zeta. cbn [negb andb].
    destruct (Z.ltb_spec (2 ^ (64 - 1)) (numeralValue ds)); [lia | reflexivity].
Qed.
End AtoiFacts.

(** ** filepath: the base name of a path that ends in a plain segment *)
Section BaseFacts.
Import filepath.

Lemma list_ascii_of_string_app s t :
  list_ascii_of_string (s +:+ t) = list_ascii_of_string s ++ list_ascii_of_string t.
Proof. induction s as [|c s IH]; simpl; [reflexivity | f_equal; exact IH]. Qed.


End BaseFacts.

(** ** pcidev: lookup by address *)
Section FindByAddressFacts.
Import pcidev.

Lemma FindByAddress_found pd addr pf :
  pf ∈ Items pd → Address pf = addr →
  ∃ pf', FindByAddress pd addr = (pf', true) ∧ pf' ∈ Items pd ∧ Address pf' = addr.
Proof.
  unfold FindByAddress. destruct pd as [items]. cbn [Items].
  induction items as [|x items IH]; intros Hin Haddr; [inversion Hin|].
  cbn [FindByAddress_loop]. destruct (String.eqb (Address x) addr) eqn:Heq.
  - exists x. apply String.eqb_eq in Heq. repeat split; [left | exact Heq].
  - apply elem_of_cons in Hin as [->|Hin].
    + apply String.eqb_neq in Heq. contradiction.
    + destruct (IH Hin Haddr) as (pf' & Hfind & Hin' & Haddr').
      exists pf'. repeat split; [exact Hfind | right; exact Hin' | exact Haddr'].
Qed.
End FindByAddressFacts.

(** ** pcidev: the claims about discovery *)
Section DiscoveryClaims.
Import pcidev vocabulary fixtures.

(** The read of [numa_node] never stops discovery: where the listing
    succeeds and the directories are [scannable], every device is reported,
    with the number that [readInt] returns next to its error, if any. *)
Lemma NewPCIDevices_numa_node_unchecked fs sysfs entries :
  ReadDir fs (devicesPath sysfs) = (entries, None) →
  Forall (λ entry, scannable fs (devicesPath sysfs) entry = true) entries →
  ∃ pd, NewPCIDevices fs sysfs = (Some pd, None)
        ∧ ∀ d, d ∈ Items pd →
               NUMANode d
               = fst (readInt fs (attrPath (devicesPath sysfs) (Address d) "numa_node")).
Proof.
  intros Hdir Hall.
  destruct (NewPCIDevices_scannable _ _ _ Hdir Hall) as [pd Hnew].
  exists pd. split; [exact Hnew|].
  apply NewPCIDevices_inv in Hnew as [_ Hscan].
  intros d Hd. apply Hscan, scanEntry_inl in Hd as (_ & _ & _ & _ & Hnode & _).
  exact Hnode.
Qed.

(** C1 (the code departs from the claim).  The claim: a [numa_node] file
    whose content is not a number makes [NewPCIDevices] return the parse
    error and no collection.  The code assigns the error of that read to
    [err] and overwrites it with the next read without looking at it: on the
    tree [malformedNUMANode], where [numa_node] holds [abc], the read fails
    with a syntax error and discovery still returns the device, on node 0,
    with a nil error. *)
Theorem NewPCIDevices_malformed_numa_node :
  readInt (fileSystem malformedNUMANode)
    (attrPath (devicesPath "/sys") "0000:00:01.0" "numa_node")
  = (0, Some (NumError "Atoi" "abc" ErrSyntax))
  ∧ NewPCIDevices (fileSystem malformedNUMANode) "/sys"
    = (Some {| Items :=
                 [ {| IsPhysFn := false; NumVFS := 0; IsVFn := false; ParentFn := "";
                      address := "0000:00:01.0"; numaNode := 0; devClass := 0x0200;
                      vendor := 0x8086; device := 0x1521;
                      sysfsPath := "/sys/bus/pci/devices/0000:00:01.0" |} ] |},
       None).
Proof. split; vm_compute; reflexivity. Qed.

(** C6, as stated, fails: on the tree [hugeNumVFS] the file [sriov_numvfs]
    is present, its content does not parse ([Atoi] reports a range error),
    and the device is reported with [NumVFS] at the largest [int], not 0. *)
Lemma sriov_numvfs_range_error_not_zero :
  Stat (fileSystem hugeNumVFS)
    (attrPath (devicesPath "/sys") "0000:00:01.0" "sriov_numvfs") = None
  ∧ snd (readInt (fileSystem hugeNumVFS)
           (attrPath (devicesPath "/sys") "0000:00:01.0" "sriov_numvfs"))
    = Some (NumError "Atoi" "9223372036854775808" ErrRange)
  ∧ ∃ d, NewPCIDevices (fileSystem hugeNumVFS) "/sys" = (Some {| Items := [d] |}, None)
         ∧ address d = "0000:00:01.0"
         ∧ IsPhysFn d = true
         ∧ NumVFS d = 9223372036854775807
         ∧ (NumVFS d =? 0) = false.
Proof.
  split; [vm_compute; reflexivity|]. split; [vm_compute; reflexivity|].
  eexists. split; [vm_compute; reflexivity|]. repeat split.
Qed.

(** C6, amended.  For every device that a successful discovery reports:
    if [sriov_numvfs] is present, the device has [IsPhysFn = true] and
    [NumVFS] is the integer that the trimmed content denotes (what [Atoi]
    returns for it; for a decimal numeral in the range of [int], the number
    of the numeral); when the file
    cannot be read or its content is not a number, [NumVFS = 0]; when the
    content is a number outside the range of [int], [NumVFS] is the nearest
    bound of [int]; if the file is absent, [IsPhysFn = false] and
    [NumVFS = 0].  None of these failures aborts discovery: it succeeds,
    with one device per directory, whenever the listing succeeds and every
    directory is [scannable], a condition on the [stat] outcomes and on
    [class], [vendor] and [device] only. *)
Theorem sriov_numvfs_policy :
  (∀ fs sysfs pd d,
     NewPCIDevices fs sysfs = (Some pd, None) → d ∈ Items pd →
     match Stat fs (attrPath (devicesPath sysfs) (Address d) "sriov_numvfs") with
     | None =>
         IsPhysFn d = true
         ∧ match ReadFile fs (attrPath (devicesPath sysfs) (Address d) "sriov_numvfs") with
           | (_, Some _) => NumVFS d = 0
           | (content, None) =>
               match strconv.Atoi (gostrings.TrimSpace content) with
               | (n, None) => NumVFS d = n
               | (n, Some (NumError _ _ ErrRange)) =>
                   NumVFS d = n ∧ (n = maxInt ∨ n = minInt)
               | (_, Some _) => NumVFS d = 0
               end
           end
     | Some err => IsNotExist err = true ∧ IsPhysFn d = false ∧ NumVFS d = 0
     end)
  ∧ (∀ fs sysfs pd d content ds,
       NewPCIDevices fs sysfs = (Some pd, None) → d ∈ Items pd →
       Stat fs (attrPath (devicesPath sysfs) (Address d) "sriov_numvfs") = None →
       ReadFile fs (attrPath (devicesPath sysfs) (Address d) "sriov_numvfs")
       = (content, None) →
       isDigits ds → numeralValue ds ≤ maxInt →
       gostrings.TrimSpace content = numeral ds →
       IsPhysFn d = true ∧ NumVFS d = numeralValue ds)
  ∧ (∀ fs sysfs entries,
       ReadDir fs (devicesPath sysfs) = (entries, None) →
       Forall (λ entry, scannable fs (devicesPath sysfs) entry = true) entries →
       ∃ pd, NewPCIDevices fs sysfs = (Some pd, None)
             ∧ Address <$> Items pd = entries).
Proof.
  split; [|split].
  - intros fs sysfs pd d Hnew Hd.
    apply NewPCIDevices_inv in Hnew as [_ Hscan].
    apply Hscan, scanEntry_inl in Hd as (_ & _ & Hsriov & _).
    change (Address d) with (address d).
    destruct (Stat fs (attrPath (devicesPath sysfs) (address d) "sriov_numvfs"));
      [exact Hsriov|].
    destruct Hsriov as [Hpf Hnum]. split; [exact Hpf|].
    rewrite Hnum. unfold readInt.
    destruct (ReadFile fs _) as [content [e|]]; [reflexivity|].
    destruct (strconv.Atoi (gostrings.TrimSpace content)) as [n [e|]] eqn:Hatoi;
      [|reflexivity].
    apply Atoi_error in Hatoi as [[-> ->]|[Hn ->]]; cbn [fst]; [reflexivity|].
    split; [reflexivity | exact Hn].
  - intros fs sysfs pd d content ds Hnew Hd Hstat Hread Hds Hmax Htrim.
    apply NewPCIDevices_inv in Hnew as [_ Hscan].
    apply Hscan, scanEntry_inl in Hd as (_ & _ & Hsriov & _).
    change (Address d) with (address d) in *.
    rewrite Hstat in Hsriov. destruct Hsriov as [Hpf Hnum]. split; [exact Hpf|].
    rewrite Hnum. unfold readInt. rewrite Hread, Htrim.
    rewrite (proj1 (proj1 (Atoi_numeral ds Hds) Hmax)). reflexivity.
  - intros fs sysfs entries Hdir Hall.
    destruct (NewPCIDevices_scannable _ _ _ Hdir Hall) as [pd Hnew].
    exists pd. split; [exact Hnew|].
    apply NewPCIDevices_inv in Hnew as [Hdir' _].
    rewrite Hdir in Hdir'. injection Hdir' as ->. reflexivity.
Qed.

(** The physical function of [sriovTree], with [sriov_numvfs] holding 4 and
    [numa_node] holding -1, is reported with [IsPhysFn = true], [NumVFS = 4]
    and [NUMANode() = -1]. *)
Lemma sriov_numvfs_policy_witness :
  NewPCIDevices (fileSystem sriovTree) "/sys" = (Some sriovDevices, None)
  ∧ sriovPF ∈ Items sriovDevices
  ∧ gostrings.TrimSpace "4
" = numeral [4]
  ∧ (IsPhysFn sriovPF = true ∧ NumVFS sriovPF = numeralValue [4])
  ∧ NUMANode sriovPF = -1.
Proof.
  assert (Hnew : NewPCIDevices (fileSystem sriovTree) "/sys" = (Some sriovDevices, None))
    by (vm_compute; reflexivity).
  assert (Hin : sriovPF ∈ Items sriovDevices) by left.
  assert (Hstat : Stat (fileSystem sriovTree)
                    (attrPath (devicesPath "/sys") (Address sriovPF) "sriov_numvfs") = None)
    by (vm_compute; reflexivity).
  assert (Hread : ReadFile (fileSystem sriovTree)
                    (attrPath (devicesPath "/sys") (Address sriovPF) "sriov_numvfs")
                  = ("4
", None))
    by (vm_compute; reflexivity).
  assert (Hds : isDigits [4]) by (split; [discriminate | repeat constructor; lia]).
  assert (Hmax : numeralValue [4] ≤ maxInt) by (vm_compute; discriminate).
  assert (Htrim : gostrings.TrimSpace "4
" = numeral [4]) by (vm_compute; reflexivity).
  split; [exact Hnew|]. split; [exact Hin|]. split; [exact Htrim|].
  split; [|reflexivity].
  exact (proj1 (proj2 sriov_numvfs_policy) _ _ _ _ _ _ Hnew Hin Hstat Hread Hds Hmax Htrim).
Defined.






End DiscoveryClaims.

(** ** pcidev: grouping by NUMA node *)
Section PerNUMAFacts.
Import pcidev fixtures.
Context {T : Type} `{PCIDeviceInfo T}.

(** One step of the loop of [PerNUMA]. *)
Lemma PerNUMA_step (items : list T) : ∀ (m : gmap Z (list T)) (id : Z),
  foldl (λ numaNodePCIDevs devInfo,
           <[NUMANode devInfo := default [] (numaNodePCIDevs !! NUMANode devInfo) ++ [devInfo]]>
             numaNodePCIDevs) m items !! id
  = match filter (λ d, NUMANode d = id) items with
    | [] => m !! id
    | group => Some (default [] (m !! id) ++ group)
    end.
Proof.
  induction items as [|x items IH]; intros m id; [reflexivity|].
  cbn [foldl]. rewrite IH, filter_cons.
  destruct (decide (NUMANode x = id)) as [<-|Hne].
  - rewrite lookup_insert_eq. cbn [default].
    destruct (filter _ items) as [|y group]; [reflexivity|].
    unfold id. rewrite <- app_assoc. reflexivity.
  - rewrite lookup_insert_ne by exact Hne. reflexivity.
Qed.

(** A key is in the map when some device is on that node, and its value is
    then the devices of that node in the order of [Items]. *)
Lemma PerNUMA_lookup (pd : PCIDevices T) (id : Z) :
  PerNUMA pd !! id
  = match filter (λ d, NUMANode d = id) (Items pd) with
    | [] => None
    | group => Some group
    end.
Proof.
  unfold PerNUMA. rewrite PerNUMA_step, lookup_empty. reflexivity.
Qed.

Lemma filter_NUMANode_length (items : list T) (id : Z) :
  length (filter (λ d, NUMANode d = id) items)
  = length (filter (λ n, n = id) (NUMANode <$> items)).
Proof.
  induction items as [|x items IH]; [reflexivity|].
  rewrite fmap_cons, !filter_cons.
  destruct (decide (NUMANode x = id)); cbn [length]; rewrite IH; reflexivity.
Qed.
End PerNUMAFacts.

Section PerNUMAClaims.
Import pcidev fixtures.

(** C8.  For every collection and every node ID (the sentinel -1 like any
    other), [PerNUMA] has the ID as a key exactly when some device is on
    that node, and what is read at the ID (the nil list for a missing key)
    is the sub-list of [Items] of the devices on that node, in the order of
    [Items].  For devices on the nodes 0, 0, 1, -1, in any order, the group
    sizes are 0:2, 1:1, -1:1. *)
Theorem PerNUMA_groups :
  (∀ (T : Type) (I : PCIDeviceInfo T) (pd : PCIDevices T) (id : Z),
     default [] (PerNUMA pd !! id) = filter (λ d, NUMANode d = id) (Items pd)
     ∧ (is_Some (PerNUMA pd !! id) ↔ ∃ d, d ∈ Items pd ∧ NUMANode d = id))
  ∧ (∀ (T : Type) (I : PCIDeviceInfo T) (pd : PCIDevices T),
       NUMANode <$> Items pd ≡ₚ [0; 0; 1; -1] →
       length <$> PerNUMA pd = <[0 := 2%nat]> (<[1 := 1%nat]> (<[-1 := 1%nat]> ∅))).
Proof.
  split.
  - intros T I pd id. rewrite PerNUMA_lookup. split.
    + destruct (filter _ (Items pd)); reflexivity.
    + destruct (filter (λ d, NUMANode d = id) (Items pd)) as [|x group] eqn:Hf; split.
      * intros [? [=]].
      * intros (d & Hd & Hid). exfalso.
        assert (Hin : d ∈ filter (λ d, NUMANode d = id) (Items pd))
          by (apply list_elem_of_filter; split; assumption).
        rewrite Hf in Hin. inversion Hin.
      * intros _. exists x.
        assert (Hin : x ∈ filter (λ d, NUMANode d = id) (Items pd))
          by (rewrite Hf; left).
        apply list_elem_of_filter in Hin as [Hid Hin]. split; assumption.
      * intros _. eexists; reflexivity.
  - intros T I pd Hperm. apply map_eq. intros id.
    rewrite lookup_fmap, PerNUMA_lookup.
    assert (Hlen : length (filter (λ d, NUMANode d = id) (Items pd))
                   = length (filter (λ n, n = id) [0; 0; 1; -1])).
    { rewrite filter_NUMANode_length. apply Permutation_length.
      rewrite Hperm. reflexivity. }
    destruct (decide (id = 0)) as [->|H0]; [|rewrite lookup_insert_ne by congruence].
    { rewrite lookup_insert_eq.
      destruct (filter _ (Items pd)); [discriminate Hlen|]. cbn. f_equal. exact Hlen. }
    destruct (decide (id = 1)) as [->|H1]; [|rewrite lookup_insert_ne by congruence].
    { rewrite lookup_insert_eq.
      destruct (filter _ (Items pd)); [discriminate Hlen|]. cbn. f_equal. exact Hlen. }
    destruct (decide (id = -1)) as [->|H2]; [|rewrite lookup_insert_ne by congruence].
    { rewrite lookup_insert_eq.
      destruct (filter _ (Items pd)); [discriminate Hlen|]. cbn. f_equal. exact Hlen. }
    rewrite lookup_empty.
    rewrite !filter_cons, filter_nil in Hlen.
    rewrite !decide_False in Hlen by congruence.
    destruct (filter _ (Items pd)); [reflexivity | discriminate Hlen].
Qed.

(** The collection [fourDevices], on the nodes 0, 0, 1 and -1: two devices
    on node 0, in the order of discovery, one on node 1 and one on -1. *)
Lemma PerNUMA_groups_witness :
  NUMANode <$> Items fourDevices ≡ₚ [0; 0; 1; -1]
  ∧ length <$> PerNUMA fourDevices = <[0 := 2%nat]> (<[1 := 1%nat]> (<[-1 := 1%nat]> ∅))
  ∧ default [] (PerNUMA fourDevices !! 0)
    = [onNode "0000:00:01.0" 0; onNode "0000:00:02.0" 0]
  ∧ default [] (PerNUMA fourDevices !! (-1)) = [onNode "0000:ff:00.0" (-1)].
Proof.
  assert (Hperm : NUMANode <$> Items fourDevices ≡ₚ [0; 0; 1; -1]) by reflexivity.
  split; [exact Hperm|].
  split; [exact (proj2 PerNUMA_groups _ _ fourDevices Hperm)|].
  split.
  - rewrite (proj1 (proj1 PerNUMA_groups _ _ fourDevices 0)). reflexivity.
  - rewrite (proj1 (proj1 PerNUMA_groups _ _ fourDevices (-1))). reflexivity.
Defined.

End PerNUMAClaims.

(** ** distances: construction *)
Section ConstructionFacts.
Import distances.
Variable src : NodeSource.
Variable sysfsPath : string.

Lemma nodeDistancesFromString_count numaNodes data :
  Z.of_nat (length (gostrings.Split data distanceSeparator)) ≠ numaNodes →
  nodeDistancesFromString numaNodes data
  = ({| values := [] |},
     Some (ErrDistanceCount
             (Z.of_nat (length (gostrings.Split data distanceSeparator))) numaNodes)).
Proof.
  intros Hne. unfold nodeDistancesFromString.
  destruct (Z.eqb_spec (Z.of_nat (length (gostrings.Split data distanceSeparator))) numaNodes);
    [contradiction | reflexivity].
Qed.

Lemma nodeDistancesFromString_loop_length dists : ∀ idx ret nd err,
  nodeDistancesFromString_loop dists idx ret = (nd, err) →
  length (values nd) = length (values ret).
Proof.
  induction dists as [|dist rest IH]; intros idx ret nd err; cbn [nodeDistancesFromString_loop].
  - intros [= <- _]. reflexivity.
  - destruct (strconv.Atoi dist) as [val [e|]]; [intros [= <- _]; reflexivity|].
    intros Hloop. apply IH in Hloop. cbn [values] in Hloop.
    rewrite Hloop. apply length_insert.
Qed.

(** A vector that was built has one entry per online node. *)
Lemma nodeDistancesFromString_length numaNodes data nd :
  nodeDistancesFromString numaNodes data = (nd, None) →
  Z.of_nat (length (values nd)) = numaNodes.
Proof.
  unfold nodeDistancesFromString.
  destruct (Z.eqb_spec (Z.of_nat (length (gostrings.Split data distanceSeparator))) numaNodes)
    as [Heq|]; cbn [negb]; [|intros [=]].
  intros Hloop. apply nodeDistancesFromString_loop_length in Hloop.
  cbn [values] in Hloop. rewrite Hloop, length_replicate. lia.
Qed.

(** The loop returns a table and no error, or an error and no table. *)
Lemma NewDistancesFromSysfs_loop_result numaNodes online : ∀ dist,
  (∃ d, NewDistancesFromSysfs_loop src sysfsPath numaNodes online dist = (Some d, None))
  ∨ (∃ err, NewDistancesFromSysfs_loop src sysfsPath numaNodes online dist = (None, Some err)).
Proof.
  induction online as [|nodeID rest IH]; intros dist; cbn [NewDistancesFromSysfs_loop].
  - left. eexists; reflexivity.
  - destruct (ForNodeReadFile src sysfsPath nodeID "distance") as [distData [e|]];
      [right; eexists; reflexivity|].
    destruct (nodeDistancesFromString numaNodes distData) as [nodeDist [e|]];
      [right; eexists; reflexivity|].
    apply IH.
Qed.

(** A node whose vector has the wrong number of entries stops the loop with
    an error, whatever comes before it. *)
Lemma NewDistancesFromSysfs_loop_mismatch numaNodes before nodeID after data : ∀ dist,
  ForNodeReadFile src sysfsPath nodeID "distance" = (data, None) →
  Z.of_nat (length (gostrings.Split data distanceSeparator)) ≠ numaNodes →
  ∃ err, NewDistancesFromSysfs_loop src sysfsPath numaNodes (before ++ nodeID :: after) dist
         = (None, Some err).
Proof.
  intros dist Hread Hne. revert dist.
  induction before as [|id before IH]; intros dist; cbn [app NewDistancesFromSysfs_loop].
  - rewrite Hread, (nodeDistancesFromString_count _ _ Hne). eexists; reflexivity.
  - destruct (ForNodeReadFile src sysfsPath id "distance") as [distData [e|]];
      [eexists; reflexivity|].
    destruct (nodeDistancesFromString numaNodes distData) as [nodeDist [e|]];
      [eexists; reflexivity|].
    apply IH.
Qed.

(** When the nodes before it are read and parsed, the error is the count
    mismatch of that node. *)
Lemma NewDistancesFromSysfs_loop_first_mismatch numaNodes before nodeID after data : ∀ dist,
  Forall (λ id, ∃ distData nodeDist,
            ForNodeReadFile src sysfsPath id "distance" = (distData, None)
            ∧ nodeDistancesFromString numaNodes distData = (nodeDist, None)) before →
  ForNodeReadFile src sysfsPath nodeID "distance" = (data, None) →
  Z.of_nat (length (gostrings.Split data distanceSeparator)) ≠ numaNodes →
  NewDistancesFromSysfs_loop src sysfsPath numaNodes (before ++ nodeID :: after) dist
  = (None, Some (ErrDistanceCount
                   (Z.of_nat (length (gostrings.Split data distanceSeparator))) numaNodes)).
Proof.
  intros dist Hbefore Hread Hne. revert dist.
  induction Hbefore as [|id before (distData & nodeDist & Hid & Hparse) _ IH];
    intros dist; cbn [app NewDistancesFromSysfs_loop].
  - rewrite Hread, (nodeDistancesFromString_count _ _ Hne). reflexivity.
  - rewrite Hid, Hparse. apply IH.
Qed.

(** What a successful loop leaves in the table: a row of [numaNodes]
    entries appended per node, and the nodes entered as online. *)
Lemma NewDistancesFromSysfs_loop_inv numaNodes online : ∀ dist d,
  NewDistancesFromSysfs_loop src sysfsPath numaNodes online dist = (Some d, None) →
  length (byNode d) = (length (byNode dist) + length online)%nat
  ∧ (Forall (λ row, Z.of_nat (length (values row)) = numaNodes) (byNode dist) →
     Forall (λ row, Z.of_nat (length (values row)) = numaNodes) (byNode d))
  ∧ ∀ id, is_Some (onlineNodes d !! id) ↔ id ∈ online ∨ is_Some (onlineNodes dist !! id).
Proof.
  induction online as [|nodeID rest IH]; intros dist d; cbn [NewDistancesFromSysfs_loop].
  - intros [= <-]. split; [cbn [length]; lia|]. split; [tauto|].
    intros id. split; [right; assumption | intros [Hin|Hsome]; [inversion Hin | exact Hsome]].
  - destruct (ForNodeReadFile src sysfsPath nodeID "distance") as [distData [e|]];
      [intros [=]|].
    destruct (nodeDistancesFromString numaNodes distData) as [nodeDist [e|]] eqn:Hparse;
      [intros [=]|].
    intros Hloop. apply IH in Hloop as (Hlen & Hrows & Honline).
    cbn [byNode onlineNodes] in *. split; [|split].
    + rewrite Hlen, length_app. cbn [length]. lia.
    + intros Hdist. apply Hrows, Forall_app. split; [exact Hdist|].
      constructor; [|constructor]. apply nodeDistancesFromString_length in Hparse. exact Hparse.
    + intros id. rewrite Honline, elem_of_cons.
      destruct (decide (nodeID = id)) as [->|Hne].
      * rewrite lookup_insert_eq. split; [intros _; left; left; reflexivity | eauto].
      * rewrite lookup_insert_ne by exact Hne.
        split; [intros [Hin|Hs]; [left; right; exact Hin | right; exact Hs]|].
        intros [[Heq|Hin]|Hs]; [congruence | left; exact Hin | right; exact Hs].
Qed.
End ConstructionFacts.

(** ** distances: queries *)
Section BetweenNodesFacts.
Import distances.

(** An error is returned exactly for a node that is not online; it names
    the first such node of the pair, and comes with the value -1. *)
Lemma BetweenNodes_error (d : Distances) (from to : Z) :
  (onlineNodes d !! from = None
   → BetweenNodes d from to = Returns (-1, Some (ErrUnknownNode from)))
  ∧ (is_Some (onlineNodes d !! from) → onlineNodes d !! to = None
     → BetweenNodes d from to = Returns (-1, Some (ErrUnknownNode to)))
  ∧ (∀ v err, BetweenNodes d from to = Returns (v, Some err)
     → onlineNodes d !! from = None ∨ onlineNodes d !! to = None).
Proof.
  unfold BetweenNodes. split; [intros ->; reflexivity|]. split.
  - intros [? ->] ->. reflexivity.
  - intros v err.
    destruct (onlineNodes d !! from); [|left; reflexivity].
    destruct (onlineNodes d !! to); [|right; reflexivity].
    destruct (index (byNode d) from) as [row|]; [|intros [=]].
    destruct (index (values row) to); intros [=].
Qed.

Lemma index_in_bounds {A : Type} (l : list A) (i : Z) :
  0 ≤ i < Z.of_nat (length l) → ∃ x, index l i = Returns x ∧ l !! Z.to_nat i = Some x.
Proof.
  intros Hi. unfold index. destruct (Z.ltb_spec i 0); [lia|].
  destruct (l !! Z.to_nat i) as [x|] eqn:Hl; [eauto|].
  apply lookup_ge_None in Hl. lia.
Qed.

(** Within the bounds of the table, the query of two online nodes returns
    the stored entry. *)
Lemma BetweenNodes_in_bounds (d : Distances) (from to : Z) row :
  is_Some (onlineNodes d !! from) → is_Some (onlineNodes d !! to) →
  0 ≤ from → byNode d !! Z.to_nat from = Some row →
  0 ≤ to < Z.of_nat (length (values row)) →
  ∃ v, values row !! Z.to_nat to = Some v ∧ BetweenNodes d from to = Returns (v, None).
Proof.
  intros [? Hf] [? Ht] Hfrom Hrow Hto. unfold BetweenNodes. rewrite Hf, Ht.
  unfold index at 1. destruct (Z.ltb_spec from 0); [lia|]. rewrite Hrow.
  destruct (index_in_bounds (values row) to Hto) as (v & -> & Hv). eauto.
Qed.

(** On a machine whose online nodes are 0, 1, ..., n-1, a table that was
    built answers every query without a panic. *)
Lemma BetweenNodes_dense src sysfsPath nodes d (from to : Z) :
  NewNodesFromSysFS src sysfsPath = (nodes, None) →
  Online nodes = seqZ 0 (Z.of_nat (length (Online nodes))) →
  NewDistancesFromSysfs src sysfsPath = (Some d, None) →
  ∃ r, BetweenNodes d from to = Returns r.
Proof.
  intros Hnodes Hdense. unfold NewDistancesFromSysfs. rewrite Hnodes.
  intros Hloop. apply NewDistancesFromSysfs_loop_inv in Hloop as (Hlen & Hrows & Honline).
  cbn [byNode onlineNodes length] in *.
  specialize (Hrows (Forall_nil_2 _)).
  assert (Hmem : ∀ id, is_Some (onlineNodes d !! id)
                       → 0 ≤ id < Z.of_nat (length (Online nodes))).
  { intros id Hid. apply Honline in Hid as [Hin|[? Hempty]].
    - rewrite Hdense in Hin. apply elem_of_seqZ in Hin. lia.
    - rewrite lookup_empty in Hempty. discriminate. }
  destruct (onlineNodes d !! from) as [bf|] eqn:Hf;
    [|eexists; apply (proj1 (BetweenNodes_error d from to)); exact Hf].
  destruct (onlineNodes d !! to) as [bt|] eqn:Ht;
    [|eexists; apply (proj1 (proj2 (BetweenNodes_error d from to))); [eauto | exact Ht]].
  assert (Hfrom : 0 ≤ from < Z.of_nat (length (Online nodes))) by (apply Hmem; eauto).
  assert (Hto : 0 ≤ to < Z.of_nat (length (Online nodes))) by (apply Hmem; eauto).
  destruct (byNode d !! Z.to_nat from) as [row|] eqn:Hrow;
    [|apply lookup_ge_None in Hrow; lia].
  assert (Hrowlen : Z.of_nat (length (values row)) = Z.of_nat (length (Online nodes))).
  { eapply Forall_lookup_1 in Hrows; [exact Hrows | exact Hrow]. }
  destruct (BetweenNodes_in_bounds d from to row) as (v & _ & Hv);
    [eauto | eauto | lia | exact Hrow | lia |].
  eexists; exact Hv.
Qed.
End BetweenNodesFacts.

(** ** distances: the claims *)
Section DistancesClaims.
Import distances fixtures.

(** C2 (the code departs from the claim).  The claim: on a table built by
    [NewDistancesFromSysfs], [BetweenNodes] never panics.  The code indexes
    [byNode] by the node ID, while a row is appended per online node: on
    [sparseNodes], where the online nodes are 0 and 2, the table is built
    with two rows, both membership checks of [BetweenNodes(2, 0)] pass, and
    the index 2 is out of range. *)
Theorem BetweenNodes_sparse_panics :
  ∃ d, NewDistancesFromSysfs sparseNodes "/sys" = (Some d, None)
       ∧ onlineNodes d !! 2 = Some true
       ∧ onlineNodes d !! 0 = Some true
       ∧ length (byNode d) = 2%nat
       ∧ BetweenNodes d 2 0 = Panics "runtime error: index out of range [2] with length 2".
Proof.
  eexists. split; [vm_compute; reflexivity|].
  repeat split; vm_compute; reflexivity.
Qed.

(** C3 (the code departs from the claim).  The claim: for two online nodes
    [BetweenNodes] returns the stored entry without error.  On the table of
    [sparseNodes] the nodes 0 and 2 are both online, and
    [BetweenNodes(0, 2)] panics on the index 2 into the row of two entries
    instead of returning a distance. *)
Theorem BetweenNodes_members_no_value :
  ∃ d, NewDistancesFromSysfs sparseNodes "/sys" = (Some d, None)
       ∧ is_Some (onlineNodes d !! 0)
       ∧ is_Some (onlineNodes d !! 2)
       ∧ byNode d !! 0%nat = Some {| values := [10; 20] |}
       ∧ BetweenNodes d 0 2 = Panics "runtime error: index out of range [2] with length 2".
Proof.
  eexists. split; [vm_compute; reflexivity|].
  split; [exists true; vm_compute; reflexivity|].
  split; [exists true; vm_compute; reflexivity|].
  split; vm_compute; reflexivity.
Qed.

(** C4, as stated, fails: on [badThenShort] the file of node 1 has one
    token where two are expected, and the error that comes back is the
    parse error of node 0, read before it, not a count mismatch. *)
Lemma count_mismatch_behind_parse_error :
  NewNodesFromSysFS badThenShort "/sys" = ({| Online := [0; 1] |}, None)
  ∧ ForNodeReadFile badThenShort "/sys" 1 "distance" = ("10", None)
  ∧ gostrings.Split "10" distanceSeparator = ["10"]
  ∧ NewDistancesFromSysfs badThenShort "/sys"
    = (None, Some (NumError "Atoi" "x" ErrSyntax)).
Proof. repeat split; vm_compute; reflexivity. Qed.

(** C4, amended.  When the distance file of some online node splits into a
    number of tokens other than the number of online nodes,
    [NewDistancesFromSysfs] returns an error and no table.  When the files
    of the nodes before it are read and parsed, the error is the count
    mismatch of that node, whose message gives the count found and the
    count expected. *)
Theorem distance_count_mismatch src sysfsPath nodes before nodeID after data :
  NewNodesFromSysFS src sysfsPath = (nodes, None) →
  Online nodes = before ++ nodeID :: after →
  ForNodeReadFile src sysfsPath nodeID "distance" = (data, None) →
  length (gostrings.Split data distanceSeparator) ≠ length (Online nodes) →
  (∃ err, NewDistancesFromSysfs src sysfsPath = (None, Some err))
  ∧ (Forall (λ id, ∃ distData nodeDist,
               ForNodeReadFile src sysfsPath id "distance" = (distData, None)
               ∧ nodeDistancesFromString (Z.of_nat (length (Online nodes))) distData
                 = (nodeDist, None)) before →
     ∃ err, NewDistancesFromSysfs src sysfsPath = (None, Some err)
            ∧ err = ErrDistanceCount
                      (Z.of_nat (length (gostrings.Split data distanceSeparator)))
                      (Z.of_nat (length (Online nodes)))
            ∧ Error err
              = "found "
                +:+ fmt.d (Z.of_nat (length (gostrings.Split data distanceSeparator)))
                +:+ " distance values, expected "
                +:+ fmt.d (Z.of_nat (length (Online nodes)))).
Proof.
  intros Hnodes Honline Hread Hne.
  assert (HneZ : Z.of_nat (length (gostrings.Split data distanceSeparator))
                 ≠ Z.of_nat (length (Online nodes))) by lia.
  unfold NewDistancesFromSysfs. rewrite Hnodes. cbv beta iota zeta.
  generalize dependent (Z.of_nat (length (Online nodes))). intros numaNodes HneZ.
  rewrite Honline. split.
  - apply NewDistancesFromSysfs_loop_mismatch with (data := data); assumption.
  - intros Hbefore. eexists. split; [|split; reflexivity].
    apply NewDistancesFromSysfs_loop_first_mismatch; assumption.
Qed.

(** Two online nodes, the second with a single distance: construction fails
    with [found 1 distance values, expected 2]. *)
Lemma distance_count_mismatch_witness :
  NewDistancesFromSysfs (nodeSource [(0, "10 20"); (1, "10")]) "/sys"
  = (None, Some (ErrDistanceCount 1 2))
  ∧ Error (ErrDistanceCount 1 2) = "found 1 distance values, expected 2".
Proof.
  pose (src := nodeSource [(0, "10 20"); (1, "10")]).
  assert (Hnodes : NewNodesFromSysFS src "/sys" = ({| Online := [0; 1] |}, None))
    by reflexivity.
  assert (Honline : Online {| Online := [0; 1] |} = [0] ++ 1 :: []) by reflexivity.
  assert (Hread : ForNodeReadFile src "/sys" 1 "distance" = ("10", None)) by reflexivity.
  assert (Hne : length (gostrings.Split "10" distanceSeparator)
                ≠ length (Online {| Online := [0; 1] |}))
    by (vm_compute; discriminate).
  assert (Hbefore : Forall (λ id, ∃ distData nodeDist,
             ForNodeReadFile src "/sys" id "distance" = (distData, None)
             ∧ nodeDistancesFromString (Z.of_nat (length (Online {| Online := [0; 1] |})))
                 distData = (nodeDist, None)) [0]).
  { constructor; [|constructor]. eexists _, _. split; [reflexivity|]. vm_compute. reflexivity. }
  destruct (distance_count_mismatch src "/sys" _ _ _ _ _ Hnodes Honline Hread Hne)
    as [_ Hfirst].
  destruct (Hfirst Hbefore) as (err & Hnew & -> & Hmsg).
  split; [exact Hnew | vm_compute; reflexivity].
Defined.

(** C5.  When the online nodes are 0 and 1, the distance file of node 0
    holds [10 20] and that of node 1 holds [20 10], the table is built and
    [BetweenNodes(0, 1)] and [BetweenNodes(1, 0)] both return 20. *)
Theorem two_nodes_distances src sysfsPath nodes :
  NewNodesFromSysFS src sysfsPath = (nodes, None) →
  Online nodes = [0; 1] →
  ForNodeReadFile src sysfsPath 0 "distance" = ("10 20", None) →
  ForNodeReadFile src sysfsPath 1 "distance" = ("20 10", None) →
  ∃ d, NewDistancesFromSysfs src sysfsPath = (Some d, None)
       ∧ BetweenNodes d 0 1 = Returns (20, None)
       ∧ BetweenNodes d 1 0 = Returns (20, None).
Proof.
  intros Hnodes Honline H0 H1.
  unfold NewDistancesFromSysfs. rewrite Hnodes, Honline.
  cbn [NewDistancesFromSysfs_loop length]. rewrite H0, H1.
  change (nodeDistancesFromString (Z.of_nat 2) "10 20")
    with ({| values := [10; 20] |}, @None error).
  change (nodeDistancesFromString (Z.of_nat 2) "20 10")
    with ({| values := [20; 10] |}, @None error).
  cbv iota beta. eexists. split; [reflexivity|].
  split; vm_compute; reflexivity.
Qed.

Lemma two_nodes_distances_witness :
  ∃ d, NewDistancesFromSysfs twoNodes "/sys" = (Some d, None)
       ∧ BetweenNodes d 0 1 = Returns (20, None)
       ∧ BetweenNodes d 1 0 = Returns (20, None).
Proof.
  apply (two_nodes_distances twoNodes "/sys" {| Online := [0; 1] |}); reflexivity.
Defined.

End DistancesClaims.

(** ** fakesysfs: building the tree *)
Section AddTreeFacts.
Import fakesysfs.

(** The loop of [AddTree] with one more segment makes one more [Add], on
    the handle that the loop without it returns. *)
Lemma AddTree_loop_snoc entries entry : ∀ st pos,
  AddTree_loop st pos (entries ++ [entry])
  = match AddTree_loop st pos entries with
    | Panics msg => Panics msg
    | Returns (st', pos') => Add st' pos' entry None
    end.
Proof.
  induction entries as [|e entries IH]; intros st pos; cbn [app AddTree_loop].
  - destruct (Add st pos entry None) as [[st' pos']|msg]; reflexivity.
  - destruct (Add st pos e None) as [[st' pos']|msg]; [apply IH | reflexivity].
Qed.

Lemma AddTree_loop_chained entries : ∀ st pos,
  AddTree_loop st pos entries = chained st pos entries.
Proof.
  unfold chained. induction entries as [|entry entries IH] using rev_ind; intros st pos.
  - reflexivity.
  - rewrite AddTree_loop_snoc, rev_app_distr. cbn [rev app chained_rev].
    rewrite IH. reflexivity.
Qed.

(** [Add] on an allocated node: the child is a new node with the given name
    and attributes and no items, appended to the items of the receiver;
    nothing else changes. *)
Lemma Add_spec st t name attrs node :
  st !! t = Some node →
  ∃ st', Add st t name attrs = Returns (st', length st)
         ∧ st !! length st = None
         ∧ length st' = S (length st)
         ∧ st' !! length st = Some {| fakesysfs.name := name; fakesysfs.attrs := attrs;
                                      items := [] |}
         ∧ st' !! t = Some {| fakesysfs.name := fakesysfs.name node;
                              fakesysfs.attrs := fakesysfs.attrs node;
                              items := items node ++ [length st] |}
         ∧ ∀ t', t' ≠ t → t' ≠ length st → st' !! t' = st !! t'.
Proof.
  intros Ht. unfold Add, NewTree. rewrite Ht.
  assert (Hlt : (t < length st)%nat) by (eapply lookup_lt_Some; exact Ht).
  eexists. split; [reflexivity|].
  split; [apply lookup_ge_None; lia|].
  split; [rewrite length_insert, length_app; cbn [length]; lia|].
  split; [|split].
  - rewrite list_lookup_insert_ne by lia.
    rewrite lookup_app_r by lia. rewrite Nat.sub_diag. reflexivity.
  - apply list_lookup_insert_eq. rewrite length_app. lia.
  - intros t' Hne Hnew. rewrite list_lookup_insert_ne by congruence.
    destruct (decide (t' < length st)%nat) as [Hlt'|Hge].
    + apply lookup_app_l. exact Hlt'.
    + rewrite (proj2 (lookup_ge_None st t')) by lia.
      apply lookup_ge_None. rewrite length_app. cbn [length]. lia.
Qed.
End AddTreeFacts.

Section AddTreeClaims.
Import fakesysfs.

(** C9.  For every store, every [FakeSysfs] and every sequence of segments,
    [AddTree] leaves the same store and returns the same handle as the
    chained calls [root.Add(e1, nil).Add(e2, nil). ... .Add(en, nil)] (and
    panics when they do); and each [Add] on an allocated receiver appends a
    new child, with the given name and no items, to the receiver's items,
    returns the child's handle and changes no other node. *)
Theorem AddTree_is_chained_Add :
  (∀ st fs entries, AddTree st fs entries = chained st (Root fs) entries)
  ∧ (∀ st t name attrs node,
       st !! t = Some node →
       ∃ st', Add st t name attrs = Returns (st', length st)
              ∧ st !! length st = None
              ∧ length st' = S (length st)
              ∧ st' !! length st
                = Some {| fakesysfs.name := name; fakesysfs.attrs := attrs; items := [] |}
              ∧ st' !! t
                = Some {| fakesysfs.name := fakesysfs.name node;
                          fakesysfs.attrs := fakesysfs.attrs node;
                          items := items node ++ [length st] |}
              ∧ ∀ t', t' ≠ t → t' ≠ length st → st' !! t' = st !! t').
Proof.
  split.
  - intros st fs entries. unfold AddTree, Root. apply AddTree_loop_chained.
  - intros st t name attrs node. apply Add_spec.
Qed.

(** On a new [FakeSysfs], [AddTree("bus", "pci", "devices")] builds the
    path below the root and returns the handle of [devices]. *)
Lemma AddTree_is_chained_Add_witness :
  let '(st, (fs, _)) := NewFakeSysfs [] "/tmp/fakesysfs" in
  AddTree st fs ["bus"; "pci"; "devices"] = chained st (Root fs) ["bus"; "pci"; "devices"]
  ∧ AddTree st fs ["bus"; "pci"; "devices"]
    = Returns ([ {| name := "_"; attrs := None; items := [1%nat] |};
                 {| name := "bus"; attrs := None; items := [2%nat] |};
                 {| name := "pci"; attrs := None; items := [3%nat] |};
                 {| name := "devices"; attrs := None; items := [] |} ], 3%nat).
Proof.
  cbn [NewFakeSysfs NewTree app length].
  split; [apply (proj1 AddTree_is_chained_Add) | reflexivity].
Defined.

End AddTreeClaims.

(** * Further properties of the packages *)

(** ** pcidev: the outcome of discovery *)
Section DiscoveryOutcome.
Import pcidev vocabulary.
Variable fs : FileSystem.
Variable sysfsPath : string.

Lemma scanEntry_scanError entry :
  match scanEntry fs sysfsPath entry with
  | inl _ => scanError fs sysfsPath entry = None
  | inr err => scanError fs sysfsPath entry = Some err
  end.
Proof.
  unfold scanEntry, scanError, attrPath, unexpected.
  destruct (Stat fs (filepath.Join [filepath.Join [sysfsPath; entry]; "sriov_numvfs"]))
    as [e1|];
    [destruct (IsNotExist e1); cbn [negb firstError]; [|reflexivity]|];
  (destruct (Stat fs (filepath.Join [filepath.Join [sysfsPath; entry]; "physfn"]))
    as [e2|];
    [destruct (IsNotExist e2); cbn [negb firstError]; [|reflexivity]|]);
  destruct (readInt fs (filepath.Join [_; "numa_node"])) as [nodeNum enode];
  destruct (readHexInt64 fs (filepath.Join [_; "class"])) as [c [ec|]]; try reflexivity;
  destruct (readHexInt64 fs (filepath.Join [_; "vendor"])) as [v [ev|]]; try reflexivity;
  destruct (readHexInt64 fs (filepath.Join [_; "device"])) as [dv [ed|]]; reflexivity.
Qed.

(** The loop stops at the first entry that leaves an error, with that
    error. *)
Lemma NewPCIDevices_loop_first_error entries : ∀ allPCIDevs i entry,
  list_find (λ entry, is_Some (scanError fs sysfsPath entry)) entries = Some (i, entry) →
  NewPCIDevices_loop fs sysfsPath entries allPCIDevs
  = (None, scanError fs sysfsPath entry).
Proof.
  induction entries as [|e entries IH]; intros acc i entry; [intros [=]|].
  cbn [list_find NewPCIDevices_loop]. pose proof (scanEntry_scanError e) as Hscan.
  destruct (decide (is_Some (scanError fs sysfsPath e))) as [Hsome|Hnone].
  - intros [= <- <-]. destruct (scanEntry fs sysfsPath e) as [d|err].
    + rewrite Hscan in Hsome. destruct Hsome as [? [=]].
    + rewrite Hscan. reflexivity.
  - destruct (scanEntry fs sysfsPath e) as [d|err].
    + destruct (list_find _ entries) as [[j x]|] eqn:Hfind; [|intros [=]].
      cbn [fmap option_fmap option_map prod_map fst snd]. intros [= <- <-].
      apply (IH _ j x). reflexivity.
    + exfalso. apply Hnone. rewrite Hscan. eauto.
Qed.

Lemma scannable_no_error entries :
  list_find (λ entry, is_Some (scanError fs sysfsPath entry)) entries = None →
  Forall (λ entry, scannable fs sysfsPath entry = true) entries.
Proof.
  intros Hfind. apply Forall_forall. intros entry Hin.
  eapply list_find_None in Hfind. rewrite Forall_forall in Hfind.
  specialize (Hfind entry Hin).
  pose proof (scanEntry_scanError entry) as Hscan.
  destruct (scanEntry fs sysfsPath entry) as [d|err] eqn:Hentry.
  - apply scanEntry_inl in Hentry as (_ & _ & _ & _ & _ & Hok). exact Hok.
  - exfalso. apply Hfind. rewrite Hscan. eauto.
Qed.
End DiscoveryOutcome.

Section DiscoveryExtras.
Import pcidev vocabulary fixtures.

(** X1.  The outcome of [NewPCIDevices] in full.  When the listing fails,
    its error and no collection.  Otherwise, when some directory leaves an
    error, the error of the first such directory in the order of the
    listing, and no collection.  Otherwise a collection and no error, with
    one device per entry, in the order of the listing, under the entry's
    name and with the path of its directory. *)
Theorem NewPCIDevices_outcome fs sysfs :
  match ReadDir fs (devicesPath sysfs) with
  | (_, Some err) => NewPCIDevices fs sysfs = (None, Some err)
  | (entries, None) =>
      match list_find (λ entry, is_Some (scanError fs (devicesPath sysfs) entry)) entries with
      | Some (_, entry) =>
          NewPCIDevices fs sysfs = (None, scanError fs (devicesPath sysfs) entry)
      | None =>
          ∃ pd, NewPCIDevices fs sysfs = (Some pd, None)
                ∧ Address <$> Items pd = entries
                ∧ SysfsPath <$> Items pd
                  = (λ entry, filepath.Join [devicesPath sysfs; entry]) <$> entries
      end
  end.
Proof.
  destruct (ReadDir fs (devicesPath sysfs)) as [entries [err|]] eqn:Hdir.
  - unfold NewPCIDevices. fold (devicesPath sysfs). rewrite Hdir. reflexivity.
  - destruct (list_find _ entries) as [[i entry]|] eqn:Hfind.
    + unfold NewPCIDevices. fold (devicesPath sysfs). rewrite Hdir.
      apply (NewPCIDevices_loop_first_error _ _ _ _ i). exact Hfind.
    + apply scannable_no_error in Hfind.
      destruct (NewPCIDevices_scannable _ _ _ Hdir Hfind) as [pd Hnew].
      exists pd. split; [exact Hnew|].
      apply NewPCIDevices_inv in Hnew as [Hdir' Hscan].
      rewrite Hdir in Hdir'. injection Hdir' as ->. split; [reflexivity|].
      rewrite <- list_fmap_compose. apply list_fmap_ext.
      intros i d Hd. cbn.
      assert (Hin : d ∈ Items pd) by (eapply list_elem_of_lookup_2; exact Hd).
      apply Hscan, scanEntry_inl in Hin as (_ & Hpath & _). exact Hpath.
Qed.

End DiscoveryExtras.

(** ** pcidev: lookup by address, in full *)
Section FindByAddressExtras.
Import pcidev vocabulary fixtures.

Lemma FindByAddress_loop_spec items addr :
  (snd (FindByAddress_loop items addr) = true
   → ∃ i, items !! i = Some (fst (FindByAddress_loop items addr))
          ∧ Address (fst (FindByAddress_loop items addr)) = addr
          ∧ ∀ j d', (j < i)%nat → items !! j = Some d' → Address d' ≠ addr)
  ∧ (snd (FindByAddress_loop items addr) = false
     → fst (FindByAddress_loop items addr) = SRIOVDeviceInfo_zero
       ∧ ∀ d', d' ∈ items → Address d' ≠ addr).
Proof.
  induction items as [|x items [IHt IHf]]; cbn [FindByAddress_loop].
  - split; [intros [=]|]. intros _. split; [reflexivity|]. intros d' Hin. inversion Hin.
  - destruct (String.eqb (Address x) addr) eqn:Heq; cbn [fst snd].
    + apply String.eqb_eq in Heq. split; [|intros [=]].
      intros _. exists 0%nat. split; [reflexivity|]. split; [exact Heq|].
      intros j d' Hj. lia.
    + apply String.eqb_neq in Heq. split.
      * intros Hok. destruct (IHt Hok) as (i & Hi & Haddr & Hfirst).
        exists (S i). split; [exact Hi|]. split; [exact Haddr|].
        intros [|j] d' Hj Hd'; [injection Hd' as <-; exact Heq|].
        apply (Hfirst j d'); [lia | exact Hd'].
      * intros Hno. destruct (IHf Hno) as [Hzero Hnone]. split; [exact Hzero|].
        intros d' Hin. apply elem_of_cons in Hin as [->|Hin]; [exact Heq | exact (Hnone d' Hin)].
Qed.

(** X2.  [FindByAddress] reports [true] exactly when some device of the
    collection has the address; the device it returns is then the first one
    with that address, in the order of [Items]; when it reports [false] the
    device returned is the zero value. *)
Theorem FindByAddress_first_match (pd : PCIDevices SRIOVDeviceInfo) (addr : string) :
  (snd (FindByAddress pd addr) = true ↔ ∃ d', d' ∈ Items pd ∧ Address d' = addr)
  ∧ (snd (FindByAddress pd addr) = true
     → ∃ i, Items pd !! i = Some (fst (FindByAddress pd addr))
            ∧ Address (fst (FindByAddress pd addr)) = addr
            ∧ ∀ j d', (j < i)%nat → Items pd !! j = Some d' → Address d' ≠ addr)
  ∧ (snd (FindByAddress pd addr) = false
     → fst (FindByAddress pd addr) = SRIOVDeviceInfo_zero).
Proof.
  unfold FindByAddress.
  destruct (FindByAddress_loop_spec (Items pd) addr) as [Ht Hf].
  split; [|split; [exact Ht | intros Hno; apply Hf, Hno]].
  split.
  - intros Hok. destruct (Ht Hok) as (i & Hi & Haddr & _).
    eexists. split; [eapply list_elem_of_lookup_2; exact Hi | exact Haddr].
  - intros (d' & Hin & Haddr).
    destruct (snd (FindByAddress_loop (Items pd) addr)) eqn:Hok; [reflexivity|].
    exfalso. exact (proj2 (Hf eq_refl) d' Hin Haddr).
Qed.

(** X3.  After a successful discovery every reported device is found under
    its own address, and what is found is that very device. *)
Theorem FindByAddress_discovered fs sysfs pd d :
  NewPCIDevices fs sysfs = (Some pd, None) →
  d ∈ Items pd →
  FindByAddress pd (Address d) = (d, true).
Proof.
  intros Hnew Hd. apply NewPCIDevices_inv in Hnew as [_ Hscan].
  destruct (FindByAddress_found pd (Address d) d Hd eq_refl) as (d0 & Hfind & Hin & Haddr).
  rewrite Hfind. f_equal.
  pose proof (Hscan _ Hin) as Hfound. pose proof (Hscan _ Hd) as Hd'.
  change (address d0 = address d) in Haddr. rewrite Haddr, Hd' in Hfound.
  injection Hfound as <-. reflexivity.
Qed.

Lemma FindByAddress_discovered_witness :
  FindByAddress sriovDevices "0000:00:01.1" = (sriovVF, true).
Proof.
  apply (FindByAddress_discovered (fileSystem sriovTree) "/sys" sriovDevices sriovVF).
  - vm_compute. reflexivity.
  - right. left.
Defined.

End FindByAddressExtras.

(** ** pcidev: the two halves of an address *)
Section AddressFacts.
Import pcidev pciaddress distances gostrings.

(** [Index] for a separator of one byte. *)
Lemma Index_byte c s :
  match Index s (String c EmptyString) with
  | None => c ∉ list_ascii_of_string s
  | Some m => ∃ before after,
      list_ascii_of_string s = before ++ c :: after
      ∧ length before = m ∧ c ∉ before
  end.
Proof.
  induction s as [|a s IH]; cbn [Index String.prefix].
  - cbn. apply not_elem_of_nil.
  - destruct (Ascii.ascii_dec c a) as [<-|Hne].
    + assert (Hp : String.prefix EmptyString s = true) by (destruct s; reflexivity).
      rewrite Hp. exists [], (list_ascii_of_string s). cbn. repeat split.
      apply not_elem_of_nil.
    + revert IH.
      destruct (Index s (String c EmptyString)) as [m|]; cbn [fmap option_fmap option_map];
        intros IH.
      * destruct IH as (before & after & Hs & Hlen & Hnot).
        exists (a :: before), after. cbn. rewrite Hs, Hlen. repeat split.
        apply not_elem_of_cons. split; [exact Hne | exact Hnot].
      * cbn. apply not_elem_of_cons. split; [exact Hne | exact IH].
Qed.

Lemma string_of_list_ascii_inj_app before c after s :
  list_ascii_of_string s = before ++ c :: after →
  s = string_of_list_ascii before +:+ String c EmptyString +:+ string_of_list_ascii after.
Proof.
  intros Hs. rewrite <- (string_of_list_ascii_of_string s), Hs.
  rewrite <- (string_of_list_ascii_of_string (_ +:+ _)).
  f_equal. rewrite !list_ascii_of_string_app, !list_ascii_of_string_of_list_ascii.
  reflexivity.
Qed.

(** What [SplitN(s, sep, 2)] returns for a separator of one byte. *)
Lemma SplitN_2_byte c s :
  match Index s (String c EmptyString) with
  | None => SplitN s (String c EmptyString) 2 = [s]
  | Some m => SplitN s (String c EmptyString) 2 = [sliceTo s m; sliceFrom s (m + 1)]
  end.
Proof.
  unfold SplitN. change (2 =? 0) with false. change (2 <? 0) with false. cbv iota.
  destruct s as [|a s].
  - cbn. reflexivity.
  - replace (Z.min 2 (Z.of_nat (String.length (String a s)) + 1)) with 2
      by (cbn [String.length]; lia).
    change (Nat.pred (Z.to_nat 2)) with 1%nat. cbn [genSplit_loop].
    destruct (Index (String a s) (String c EmptyString)); reflexivity.
Qed.
End AddressFacts.

Section AddressExtras.
Import pcidev pciaddress distances gostrings fixtures.

(** X4.  [BusAddress] never panics.  For an address without colon it
    returns the whole address, and [DevAddress] panics on the index 1 into
    a slice of length 1.  For an address with a colon, the two methods
    return the parts before and after the first colon: put back together
    around a colon they give the address, and the bus part has no colon. *)
Theorem address_halves (sdi : SRIOVDeviceInfo) :
  (∃ bus, BusAddress sdi = Returns bus)
  ∧ (":"%char ∉ list_ascii_of_string (Address sdi) →
     BusAddress sdi = Returns (Address sdi)
     ∧ DevAddress sdi = Panics "runtime error: index out of range [1] with length 1")
  ∧ (":"%char ∈ list_ascii_of_string (Address sdi) →
     ∃ bus dev, BusAddress sdi = Returns bus
                ∧ DevAddress sdi = Returns dev
                ∧ Address sdi = bus +:+ ":" +:+ dev
                ∧ ":"%char ∉ list_ascii_of_string bus).
Proof.
  unfold BusAddress, DevAddress. change (Address sdi) with (address sdi).
  pose proof (SplitN_2_byte ":"%char (address sdi)) as Hsplit.
  pose proof (Index_byte ":"%char (address sdi)) as Hindex.
  change (String ":" EmptyString) with ":" in *.
  revert Hsplit Hindex.
  destruct (Index (address sdi) ":") as [m|]; intros Hsplit Hindex; rewrite Hsplit.
  - destruct Hindex as (before & after & Hs & Hlen & Hnot).
    split; [eexists; reflexivity|]. split.
    + intros Hno. exfalso. apply Hno. rewrite Hs. apply elem_of_app. right. left.
    + intros _. exists (sliceTo (address sdi) m), (sliceFrom (address sdi) (m + 1)).
      split; [reflexivity|]. split; [reflexivity|].
      assert (Hto : sliceTo (address sdi) m = string_of_list_ascii before).
      { unfold sliceTo. rewrite Hs, <- Hlen, take_app_length. reflexivity. }
      assert (Hfrom : sliceFrom (address sdi) (m + 1) = string_of_list_ascii after).
      { unfold sliceFrom. rewrite Hs, <- Hlen.
        rewrite (cons_middle ":"%char before after), app_assoc.
        replace (length before + 1)%nat with (length (before ++ [":"%char]))
          by (rewrite length_app; reflexivity).
        rewrite drop_app_length. reflexivity. }
      rewrite Hto, Hfrom. split.
      * apply string_of_list_ascii_inj_app. exact Hs.
      * rewrite list_ascii_of_string_of_list_ascii. exact Hnot.
  - split; [eexists; reflexivity|]. split.
    + intros _. split; reflexivity.
    + intros Hyes. contradiction.
Qed.

(** The address [0000:00:01.0] of [sriovPF]: the part before the first
    colon is [0000], the part after it [00:01.0]. *)
Lemma address_halves_witness :
  BusAddress sriovPF = Returns "0000"
  ∧ DevAddress sriovPF = Returns "00:01.0"
  ∧ ∃ bus dev, BusAddress sriovPF = Returns bus
               ∧ DevAddress sriovPF = Returns dev
               ∧ Address sriovPF = bus +:+ ":" +:+ dev
               ∧ ":"%char ∉ list_ascii_of_string bus.
Proof.
  split; [reflexivity|]. split; [reflexivity|].
  apply (proj2 (proj2 (address_halves sriovPF))).
  cbn. right; right; right; right; left.
Defined.

End AddressExtras.

(** ** strings: white space around a plain value *)
Section TrimSpaceFacts.
Import strconv gostrings vocabulary.

Lemma space2_plain_l a b : byteZ a < 128 → space2 (byteZ a) (byteZ b) = false.
Proof.
  intros Ha. unfold space2. rewrite (proj2 (Z.eqb_neq (byteZ a) 194)) by lia. reflexivity.
Qed.

Lemma space3_plain_l a b c : byteZ a < 128 → space3 (byteZ a) (byteZ b) (byteZ c) = false.
Proof.
  intros Ha. unfold space3.
  rewrite (proj2 (Z.eqb_neq (byteZ a) 225)), (proj2 (Z.eqb_neq (byteZ a) 226)),
    (proj2 (Z.eqb_neq (byteZ a) 227)) by lia.
  reflexivity.
Qed.

Lemma space2_plain_r a b : byteZ a < 128 → space2 (byteZ b) (byteZ a) = false.
Proof.
  intros Ha. unfold space2.
  rewrite (proj2 (Z.eqb_neq (byteZ a) 133)), (proj2 (Z.eqb_neq (byteZ a) 160)) by lia.
  apply andb_false_r.
Qed.

Lemma space3_plain_r a b c : byteZ a < 128 → space3 (byteZ c) (byteZ b) (byteZ a) = false.
Proof.
  intros Ha. unfold space3.
  rewrite (proj2 (Z.eqb_neq (byteZ a) 128)), (proj2 (Z.eqb_neq (byteZ a) 168)),
    (proj2 (Z.eqb_neq (byteZ a) 169)), (proj2 (Z.eqb_neq (byteZ a) 175)),
    (proj2 (Z.eqb_neq (byteZ a) 159)), (proj2 (Z.leb_gt 128 (byteZ a))) by lia.
  cbn [andb orb]. rewrite !andb_false_r. reflexivity.
Qed.

Lemma trimLeft_spaces pre l :
  Forall (λ c, asciiSpace (byteZ c) = true) pre → trimLeft (pre ++ l) = trimLeft l.
Proof.
  induction 1 as [|c pre Hc _ IH]; [reflexivity|].
  cbn [app trimLeft]. rewrite Hc. exact IH.
Qed.

Lemma trimLeft_plain a l : plainByte a → trimLeft (a :: l) = a :: l.
Proof.
  intros [Ha Hns]. cbn [trimLeft]. rewrite Hns.
  destruct l as [|b [|c l]]; [reflexivity| |];
    rewrite (space2_plain_l a b Ha); [reflexivity|].
  rewrite (space3_plain_l a b c Ha). reflexivity.
Qed.

Lemma trimRight_rev_spaces post l :
  Forall (λ c, asciiSpace (byteZ c) = true) post → trimRight_rev (post ++ l) = trimRight_rev l.
Proof.
  induction 1 as [|c post Hc _ IH]; [reflexivity|].
  cbn [app trimRight_rev]. rewrite Hc. exact IH.
Qed.

Lemma trimRight_rev_plain a l : plainByte a → trimRight_rev (a :: l) = a :: l.
Proof.
  intros [Ha Hns]. cbn [trimRight_rev]. rewrite Hns.
  destruct l as [|b [|c l]]; [reflexivity| |];
    rewrite (space2_plain_r a b Ha); [reflexivity|].
  rewrite (space3_plain_r a b c Ha). reflexivity.
Qed.

(** [TrimSpace] takes the ASCII white space off both ends of a value made
    of plain bytes, and nothing of the value. *)
Lemma TrimSpace_padded pre core post :
  isSpaces pre → isSpaces post →
  core ≠ "" → Forall plainByte (list_ascii_of_string core) →
  TrimSpace (pre +:+ core +:+ post) = core.
Proof.
  unfold isSpaces, TrimSpace. intros Hpre Hpost Hne Hcore.
  rewrite !list_ascii_of_string_app, (trimLeft_spaces _ _ Hpre).
  destruct (list_ascii_of_string core) as [|a l] eqn:Hl.
  { exfalso. apply Hne. rewrite <- (string_of_list_ascii_of_string core), Hl. reflexivity. }
  assert (Ha : plainByte a) by (inversion Hcore; assumption).
  cbn [app]. rewrite (trimLeft_plain a _ Ha).
  change (a :: l ++ list_ascii_of_string post) with ((a :: l) ++ list_ascii_of_string post).
  rewrite rev_app_distr, trimRight_rev_spaces.
  2:{ apply Forall_forall. intros c Hc. apply list_elem_of_In in Hc. apply <- in_rev in Hc.
      rewrite Forall_forall in Hpost. apply Hpost, list_elem_of_In, Hc. }
  assert (Hrev : Forall plainByte (rev (a :: l))).
  { apply Forall_forall. intros c Hc. apply list_elem_of_In in Hc. apply <- in_rev in Hc.
    rewrite Forall_forall in Hcore. apply Hcore, list_elem_of_In, Hc. }
  destruct (rev (a :: l)) as [|z r] eqn:Hr.
  { apply (f_equal (@length _)) in Hr. rewrite length_rev in Hr. discriminate. }
  rewrite (trimRight_rev_plain z r); [|inversion Hrev; assumption].
  rewrite <- Hr, rev_involutive, <- Hl. apply string_of_list_ascii_of_string.
Qed.

Lemma digitChar_plain d : 0 ≤ d ≤ 9 → plainByte (digitChar d).
Proof.
  intros Hd. unfold plainByte. rewrite (byteZ_digitChar d Hd). split; [lia|].
  unfold asciiSpace.
  repeat match goal with
         | |- context [?x =? ?y] => rewrite (proj2 (Z.eqb_neq x y)) by lia
         end.
  reflexivity.
Qed.

Lemma numeral_plain ds :
  Forall (λ d, 0 ≤ d ≤ 9) ds → Forall plainByte (list_ascii_of_string (numeral ds)).
Proof.
  induction 1 as [|d ds Hd _ IH]; cbn; constructor; [apply digitChar_plain, Hd | exact IH].
Qed.

Lemma numeral_nonempty ds : ds ≠ [] → numeral ds ≠ "".
Proof. destruct ds; [congruence | discriminate]. Qed.
End TrimSpaceFacts.

(** ** pcidev: the numbers read from the attribute files *)
Section ReadIntFacts.
Import strconv gostrings pcidev vocabulary.

Lemma minus_plain : plainByte "-"%char.
Proof. split; [vm_compute; reflexivity | reflexivity]. Qed.

(** [readInt] on a file that holds a decimal numeral, plain or negative,
    between ASCII white space. *)
Lemma readInt_padded fs path pre post ds :
  isSpaces pre → isSpaces post → isDigits ds →
  (ReadFile fs path = (pre +:+ numeral ds +:+ post, None) →
   numeralValue ds ≤ maxInt → readInt fs path = (numeralValue ds, None))
  ∧ (ReadFile fs path = (pre +:+ "-" +:+ numeral ds +:+ post, None) →
     minInt ≤ - numeralValue ds → readInt fs path = (- numeralValue ds, None)).
Proof.
  intros Hpre Hpost Hds. pose proof Hds as [Hne Hall]. unfold readInt. split.
  - intros -> Hmax.
    rewrite (TrimSpace_padded pre (numeral ds) post Hpre Hpost
               (numeral_nonempty ds Hne) (numeral_plain ds Hall)).
    exact (proj1 (proj1 (Atoi_numeral ds Hds) Hmax)).
  - intros -> Hmin.
    change ("-" +:+ numeral ds +:+ post) with (("-" +:+ numeral ds) +:+ post).
    rewrite (TrimSpace_padded pre ("-" +:+ numeral ds) post Hpre Hpost).
    + exact (proj2 (Atoi_numeral ds Hds) Hmin).
    + discriminate.
    + change ("-" +:+ numeral ds) with (String "-" (numeral ds)). cbn.
      constructor; [exact minus_plain | apply numeral_plain, Hall].
Qed.
End ReadIntFacts.

Section NUMANodeExtras.
Import strconv gostrings pcidev vocabulary fixtures.

(** X5.  The NUMA node of a reported device, from the content of its
    [numa_node] file.  A decimal numeral in the range of [int], plain or
    negative, with ASCII white space around it (the newline of sysfs),
    gives that number: [-1] gives [NUMANodeUnknown].  A file that cannot be
    read, and a content that is not a number, give node 0. *)
Theorem NUMANode_of_content fs sysfs pd d :
  NewPCIDevices fs sysfs = (Some pd, None) →
  d ∈ Items pd →
  (∀ pre post ds,
     isSpaces pre → isSpaces post → isDigits ds →
     (ReadFile fs (attrPath (devicesPath sysfs) (Address d) "numa_node")
      = (pre +:+ numeral ds +:+ post, None) →
      numeralValue ds ≤ maxInt → NUMANode d = numeralValue ds)
     ∧ (ReadFile fs (attrPath (devicesPath sysfs) (Address d) "numa_node")
        = (pre +:+ "-" +:+ numeral ds +:+ post, None) →
        minInt ≤ - numeralValue ds → NUMANode d = - numeralValue ds))
  ∧ (∀ content err,
       ReadFile fs (attrPath (devicesPath sysfs) (Address d) "numa_node")
       = (content, Some err) → NUMANode d = 0)
  ∧ (∀ content n num,
       ReadFile fs (attrPath (devicesPath sysfs) (Address d) "numa_node")
       = (content, None) →
       Atoi (TrimSpace content) = (n, Some (NumError "Atoi" num ErrSyntax)) →
       NUMANode d = 0).
Proof.
  intros Hnew Hd. apply NewPCIDevices_inv in Hnew as [_ Hscan].
  apply Hscan, scanEntry_inl in Hd as (_ & _ & _ & _ & Hnode & _).
  change (NUMANode d) with (numaNode d). change (Address d) with (address d).
  rewrite Hnode. split; [|split].
  - intros pre post ds Hpre Hpost Hds.
    destruct (readInt_padded fs (attrPath (devicesPath sysfs) (address d) "numa_node")
                pre post ds Hpre Hpost Hds) as [Hplain Hneg].
    split; intros Hread Hrange;
      [rewrite (Hplain Hread Hrange) | rewrite (Hneg Hread Hrange)]; reflexivity.
  - intros content err Hread. unfold readInt. rewrite Hread. reflexivity.
  - intros content n num Hread Hatoi. unfold readInt. rewrite Hread, Hatoi. cbn [fst].
    apply Atoi_error in Hatoi as [[-> _]|[_ [=]]]. reflexivity.
Qed.

(** The devices of [sriovTree] whose [numa_node] holds [-1] and a newline
    are on [NUMANodeUnknown]. *)
Lemma NUMANode_of_content_witness :
  NewPCIDevices (fileSystem sriovTree) "/sys" = (Some sriovDevices, None)
  ∧ ReadFile (fileSystem sriovTree)
      (attrPath (devicesPath "/sys") (Address sriovPF) "numa_node")
    = ("" +:+ "-" +:+ numeral [1] +:+ "
", None)
  ∧ NUMANode sriovPF = - numeralValue [1]
  ∧ NUMANode sriovPF = NUMANodeUnknown.
Proof.
  assert (Hnew : NewPCIDevices (fileSystem sriovTree) "/sys" = (Some sriovDevices, None))
    by (vm_compute; reflexivity).
  assert (Hin : sriovPF ∈ Items sriovDevices) by left.
  assert (Hread : ReadFile (fileSystem sriovTree)
                    (attrPath (devicesPath "/sys") (Address sriovPF) "numa_node")
                  = ("" +:+ "-" +:+ numeral [1] +:+ "
", None)) by (vm_compute; reflexivity).
  assert (Hpre : isSpaces "") by constructor.
  assert (Hpost : isSpaces "
") by (repeat constructor).
  assert (Hds : isDigits [1]) by (split; [discriminate | repeat constructor; lia]).
  assert (Hmin : minInt ≤ - numeralValue [1]) by (vm_compute; discriminate).
  destruct (NUMANode_of_content _ _ _ _ Hnew Hin) as [Hnum _].
  split; [exact Hnew|]. split; [exact Hread|].
  split; [exact (proj2 (Hnum "" _ [1] Hpre Hpost Hds) Hread Hmin) | reflexivity].
Defined.

End NUMANodeExtras.

(** ** strconv: hexadecimal numerals with the prefix 0x *)
Section HexFacts.
Import strconv gostrings pcidev vocabulary.

(** How the loop of [ParseUint] reads a hexadecimal digit of either case:
    not an underscore, and the digit it stands for. *)
Lemma hexDigitValue_decode c d : hexDigitValue c = Some d →
  0 ≤ d ≤ 15
  ∧ (byteZ c =? 95) = false
  ∧ (if (48 <=? byteZ c) && (byteZ c <=? 57)
     then Some (byteZ c - 48)
     else if (97 <=? lower (byteZ c)) && (lower (byteZ c) <=? 122)
          then Some (lower (byteZ c) - 97 + 10)
          else None) = Some d
  ∧ plainByte c.
Proof.
  unfold plainByte.
  destruct c as [[] [] [] [] [] [] [] []]; intros Hc; vm_compute in Hc;
    try discriminate Hc; injection Hc as <-; vm_compute;
    repeat split; try reflexivity; discriminate.
Qed.

Lemma hexValue_from_ge s : ∀ acc v,
  hexValue_from acc s = Some v → 0 ≤ acc → acc ≤ v.
Proof.
  induction s as [|c s IH]; intros acc v; cbn [hexValue_from].
  - intros [= <-] _. lia.
  - destruct (hexDigitValue c) as [d|] eqn:Hc; [|intros [=]].
    intros Hv Hacc. apply hexDigitValue_decode in Hc as (Hd & _).
    apply IH in Hv; lia.
Qed.

Lemma ParseUint_loop_hex s0 s : ∀ n v,
  hexValue_from n s = Some v → 0 ≤ n → v ≤ 2 ^ 64 - 1 →
  ParseUint_loop true 16 (maxUint64 / 16 + 1) (2 ^ 64 - 1) s0 s false n = (v, None, false).
Proof.
  induction s as [|c s IH]; intros n v; cbn [hexValue_from ParseUint_loop].
  - intros [= <-] _ _. reflexivity.
  - destruct (hexDigitValue c) as [d|] eqn:Hc; [|intros [=]].
    intros Hv Hn Hfit.
    pose proof (hexValue_from_ge s (n * 16 + d) v Hv) as Hge.
    destruct (hexDigitValue_decode c d Hc) as (Hd & Hus & Hdigit & _).
    specialize (Hge ltac:(lia)).
    rewrite Hus. cbn [andb]. rewrite Hdigit.
    assert (H2 : (16 <=? d) = false) by (apply Z.leb_gt; lia).
    assert (H3 : (maxUint64 / 16 + 1 <=? n) = false).
    { apply Z.leb_gt. change (maxUint64 / 16 + 1) with 1152921504606846976. lia. }
    rewrite H2, H3. cbv zeta.
    rewrite (Z.mod_small (n * 16 + d) (2 ^ 64)) by lia.
    assert (H4 : (n * 16 + d <? n * 16) || (2 ^ 64 - 1 <? n * 16 + d) = false).
    { apply orb_false_intro; apply Z.ltb_ge; lia. }
    rewrite H4. apply IH; [exact Hv | lia | exact Hfit].
Qed.

(** [ParseInt] with base 0 and 64 bits on [0x] or [0X] and hexadecimal
    digits that denote a number below [2^63] returns that number. *)
Lemma ParseInt_hex p s v :
  hexPrefix p → hexValue s = Some v → v ≤ maxInt →
  ParseInt (p +:+ s) 0 64 = (v, None).
Proof.
  intros Hp Hs Hmax. unfold maxInt in Hmax.
  destruct s as [|c s]; [discriminate Hs|]. cbn [hexValue] in Hs.
  pose proof (hexValue_from_ge _ _ _ Hs ltac:(lia)) as Hpos.
  assert (Hu : ∀ x, lower (byteZ x) = 120 →
                    ParseUint (String "0" (String x (String c s))) 0 64 = (v, None)).
  { intros x Hx. unfold ParseUint.
    change ((2 <=? 0) && (0 <=? 36)) with false. change (0 =? 0) with true.
    change (byteZ "0" =? 48) with true. rewrite Hx.
    change (120 =? 98) with false. change (120 =? 111) with false.
    change (120 =? 120) with true.
    change ((64 <? 0) || (64 <? 64)) with false.
    change (64 =? 0) with false. cbv iota zeta.
    rewrite (ParseUint_loop_hex _ (String c s) 0 v Hs ltac:(lia)) by lia.
    reflexivity. }
  assert (Hi : ∀ x, lower (byteZ x) = 120 →
                    ParseInt (String "0" (String x (String c s))) 0 64 = (v, None)).
  { intros x Hx. unfold ParseInt.
    change (byteZ "0" =? 43) with false. change (byteZ "0" =? 45) with false.
    cbv iota zeta. rewrite (Hu x Hx).
    change (if 64 =? 0 then IntSize else 64) with 64. cbv iota zeta. cbn [negb andb].
    destruct (Z.leb_spec (2 ^ (64 - 1)) v); [lia | reflexivity]. }
  destruct Hp as [-> | ->].
  - change ("0x" +:+ String c s) with (String "0" (String "x" (String c s))).
    apply Hi. reflexivity.
  - change ("0X" +:+ String c s) with (String "0" (String "X" (String c s))).
    apply Hi. reflexivity.
Qed.

Lemma hexValue_from_plain s : ∀ acc v,
  hexValue_from acc s = Some v → Forall plainByte (list_ascii_of_string s).
Proof.
  induction s as [|c s IH]; intros acc v; cbn [hexValue_from list_ascii_of_string];
    [constructor|].
  destruct (hexDigitValue c) as [d|] eqn:Hc; [|intros [=]].
  intros Hv. constructor; [apply (hexDigitValue_decode c d Hc) | exact (IH _ _ Hv)].
Qed.

(** [readHexInt64] on a file that holds a prefixed hexadecimal numeral
    between ASCII white space. *)
Lemma readHexInt64_padded fs path pre post p s v :
  isSpaces pre → isSpaces post → hexPrefix p → hexValue s = Some v → v ≤ maxInt →
  ReadFile fs path = (pre +:+ p +:+ s +:+ post, None) →
  readHexInt64 fs path = (v, None).
Proof.
  intros Hpre Hpost Hp Hs Hmax Hread. unfold readHexInt64. rewrite Hread.
  assert (Happ : p +:+ s +:+ post = (p +:+ s) +:+ post)
    by (destruct Hp as [-> | ->]; reflexivity).
  rewrite Happ.
  rewrite (TrimSpace_padded pre (p +:+ s) post Hpre Hpost).
  - apply ParseInt_hex; assumption.
  - destruct Hp as [-> | ->]; discriminate.
  - assert (Hplain : Forall plainByte (list_ascii_of_string s)).
    { destruct s as [|c s]; [constructor|]. exact (hexValue_from_plain _ _ _ Hs). }
    destruct Hp as [-> | ->].
    + change ("0x" +:+ s) with (String "0" (String "x" s)). cbn.
      constructor; [split; [vm_compute|]; reflexivity|].
      constructor; [split; [vm_compute|]; reflexivity|]. exact Hplain.
    + change ("0X" +:+ s) with (String "0" (String "X" s)). cbn.
      constructor; [split; [vm_compute|]; reflexivity|].
      constructor; [split; [vm_compute|]; reflexivity|]. exact Hplain.
Qed.

(** The identifiers of a reported device are what [readHexInt64] returns
    for its files, the class without its low byte. *)
Lemma scanEntry_identifiers fs sysfsPath entry d :
  scanEntry fs sysfsPath entry = inl d →
  devClass d = Z.shiftr (fst (readHexInt64 fs (attrPath sysfsPath entry "class"))) 8
  ∧ vendor d = fst (readHexInt64 fs (attrPath sysfsPath entry "vendor"))
  ∧ device d = fst (readHexInt64 fs (attrPath sysfsPath entry "device")).
Proof.
  unfold scanEntry, attrPath.
  destruct (Stat fs (filepath.Join [filepath.Join [sysfsPath; entry]; "sriov_numvfs"]))
    as [e1|];
    [destruct (IsNotExist e1); cbn [negb]; [|intros [=]]|];
  (destruct (Stat fs (filepath.Join [filepath.Join [sysfsPath; entry]; "physfn"]))
    as [e2|];
    [destruct (IsNotExist e2); cbn [negb]; [|intros [=]]|]);
  destruct (readInt fs (filepath.Join [_; "numa_node"])) as [nodeNum enode];
  destruct (readHexInt64 fs (filepath.Join [_; "class"])) as [c [ec|]]; try solve [intros [=]];
  destruct (readHexInt64 fs (filepath.Join [_; "vendor"])) as [v [ev|]]; try solve [intros [=]];
  destruct (readHexInt64 fs (filepath.Join [_; "device"])) as [dv [ed|]]; try solve [intros [=]];
  intros [= <-]; repeat split.
Qed.
End HexFacts.

Section IdentifierExtras.
Import strconv gostrings pcidev vocabulary fixtures.

(** X6.  The identifiers of a reported device, from the contents of its
    [class], [vendor] and [device] files, each the prefix [0x] or [0X] and
    one or more hexadecimal digits, of lower or upper case, that denote a
    number below [2^63], with ASCII white space around it: [Vendor()] and
    [Device()] are the numbers of their numerals, and [DevClass()] is the
    number of the class numeral without its low byte (its quotient by
    256). *)
Theorem identifiers_of_content fs sysfs pd d :
  NewPCIDevices fs sysfs = (Some pd, None) →
  d ∈ Items pd →
  ∀ pre post p s v,
    isSpaces pre → isSpaces post → hexPrefix p → hexValue s = Some v → v ≤ maxInt →
    (ReadFile fs (attrPath (devicesPath sysfs) (Address d) "class")
     = (pre +:+ p +:+ s +:+ post, None) →
     DevClass d = v `div` 256)
    ∧ (ReadFile fs (attrPath (devicesPath sysfs) (Address d) "vendor")
       = (pre +:+ p +:+ s +:+ post, None) →
       Vendor d = v)
    ∧ (ReadFile fs (attrPath (devicesPath sysfs) (Address d) "device")
       = (pre +:+ p +:+ s +:+ post, None) →
       Device d = v).
Proof.
  intros Hnew Hd pre post p s v Hpre Hpost Hp Hs Hmax.
  apply NewPCIDevices_inv in Hnew as [_ Hscan].
  apply Hscan, scanEntry_identifiers in Hd as (Hclass & Hvendor & Hdevice).
  change (DevClass d) with (devClass d). change (Vendor d) with (vendor d).
  change (Device d) with (device d). change (Address d) with (address d).
  rewrite Hclass, Hvendor, Hdevice.
  split; [|split]; intros Hread;
    rewrite (readHexInt64_padded _ _ pre post p s v Hpre Hpost Hp Hs Hmax Hread); cbn [fst];
    [|reflexivity..].
  rewrite Z.shiftr_div_pow2 by lia. reflexivity.
Qed.

(** The class [0x020000] of the physical function of [sriovTree] gives the
    device class [0x0200], that of network controllers; and [1F] denotes
    the same number as [1f]. *)
Lemma identifiers_of_content_witness :
  NewPCIDevices (fileSystem sriovTree) "/sys" = (Some sriovDevices, None)
  ∧ hexValue "020000" = Some 0x020000
  ∧ hexValue "1F" = hexValue "1f"
  ∧ DevClass sriovPF = 0x020000 `div` 256
  ∧ DevClass sriovPF = DevClassNetwork.
Proof.
  assert (Hnew : NewPCIDevices (fileSystem sriovTree) "/sys" = (Some sriovDevices, None))
    by (vm_compute; reflexivity).
  assert (Hin : sriovPF ∈ Items sriovDevices) by left.
  assert (Hread : ReadFile (fileSystem sriovTree)
                    (attrPath (devicesPath "/sys") (Address sriovPF) "class")
                  = ("" +:+ "0x" +:+ "020000" +:+ "
", None)) by (vm_compute; reflexivity).
  assert (Hpre : isSpaces "") by constructor.
  assert (Hpost : isSpaces "
") by (repeat constructor).
  assert (Hp : hexPrefix "0x") by (left; reflexivity).
  assert (Hs : hexValue "020000" = Some 0x020000) by reflexivity.
  assert (Hmax : 0x020000 ≤ maxInt) by (vm_compute; discriminate).
  split; [exact Hnew|]. split; [exact Hs|]. split; [reflexivity|].
  split; [|reflexivity].
  exact (proj1 (identifiers_of_content _ _ _ _ Hnew Hin "" _ _ _ _ Hpre Hpost Hp Hs Hmax)
           Hread).
Defined.

End IdentifierExtras.

(** ** pcidev: the groups of PerNUMA together *)
Section PerNUMAPartition.
Import pcidev.
Context {T : Type} `{PCIDeviceInfo T}.

(** One more device in the map: one more element in the groups together. *)
Lemma PerNUMA_step_groups (m : gmap Z (list T)) (k : Z) (x : T) :
  mjoin ((map_to_list (<[k := default [] (m !! k) ++ [x]]> m)).*2)
  ≡ₚ mjoin ((map_to_list m).*2) ++ [x].
Proof.
  destruct (m !! k) as [v|] eqn:Hk; cbn [default].
  - rewrite <- insert_delete_eq.
    rewrite map_to_list_insert by apply lookup_delete_eq.
    rewrite <- (map_to_list_delete m k v Hk).
    cbn [fmap list_fmap snd mjoin list_join].
    rewrite <- !app_assoc. apply Permutation_app_head, Permutation_app_comm.
  - rewrite map_to_list_insert by exact Hk.
    cbn [fmap list_fmap snd mjoin list_join app].
    apply Permutation_cons_append.
Qed.

Lemma PerNUMA_fold_groups (items : list T) : ∀ m : gmap Z (list T),
  mjoin ((map_to_list
            (foldl (λ numaNodePCIDevs devInfo,
                      <[NUMANode devInfo :=
                          default [] (numaNodePCIDevs !! NUMANode devInfo) ++ [devInfo]]>
                        numaNodePCIDevs) m items)).*2)
  ≡ₚ mjoin ((map_to_list m).*2) ++ items.
Proof.
  induction items as [|x items IH]; intros m; cbn [foldl].
  - rewrite app_nil_r. reflexivity.
  - rewrite IH, PerNUMA_step_groups, <- app_assoc. reflexivity.
Qed.
End PerNUMAPartition.

Section PerNUMAExtras.
Import pcidev fixtures.

(** X7.  The groups of [PerNUMA] partition the collection: taken together
    they hold the devices of [Items], each as often as [Items] does; no
    group is empty, and every device of a group is on the node of its
    key. *)
Theorem PerNUMA_partition (T : Type) (I : PCIDeviceInfo T) (pd : PCIDevices T) :
  mjoin ((map_to_list (PerNUMA pd)).*2) ≡ₚ Items pd
  ∧ map_Forall (λ id group, group ≠ [] ∧ Forall (λ d, NUMANode d = id) group)
      (PerNUMA pd).
Proof.
  split.
  - unfold PerNUMA. rewrite PerNUMA_fold_groups, map_to_list_empty. reflexivity.
  - intros id group. rewrite PerNUMA_lookup.
    destruct (filter (λ d, NUMANode d = id) (Items pd)) as [|x l] eqn:Hf; [intros [=]|].
    intros [= <-]. split; [discriminate|].
    rewrite <- Hf. apply Forall_forall. intros d Hd.
    apply list_elem_of_filter in Hd as [Hid _]. exact Hid.
Qed.

End PerNUMAExtras.

(** ** distances: one vector *)
Section VectorFacts.
Import strconv gostrings distances vocabulary.

(** The loop of [nodeDistancesFromString], started behind the entries
    [done] with room for the tokens left: it stops at the first token that
    [Atoi] rejects, with the error of [Atoi], or fills in the numbers of
    all the tokens. *)
Lemma nodeDistancesFromString_loop_spec dists : ∀ done rest,
  length rest = length dists →
  match list_find (λ tok, is_Some (snd (Atoi tok))) dists with
  | Some (_, tok) =>
      snd (nodeDistancesFromString_loop dists (length done) {| values := done ++ rest |})
      = snd (Atoi tok)
  | None =>
      nodeDistancesFromString_loop dists (length done) {| values := done ++ rest |}
      = ({| values := done ++ ((λ tok, fst (Atoi tok)) <$> dists) |}, None)
  end.
Proof.
  induction dists as [|dist dists IH]; intros done rest Hlen.
  - destruct rest; [|discriminate]. reflexivity.
  - destruct rest as [|r rest]; [discriminate|]. injection Hlen as Hlen.
    cbn [list_find nodeDistancesFromString_loop].
    destruct (Atoi dist) as [val [err|]] eqn:Hatoi; cbn [snd].
    + rewrite decide_True by eauto. cbn [snd]. rewrite Hatoi. reflexivity.
    + rewrite decide_False by (intros [? [=]]).
      cbn [values]. rewrite insert_app_r_alt, Nat.sub_diag by lia. cbn [insert list_insert].
      specialize (IH (done ++ [val]) rest Hlen).
      rewrite length_app, Nat.add_1_r, <- app_assoc in IH. cbn [app] in IH.
      destruct (list_find _ dists) as [[i tok]|]; cbn [fmap option_fmap option_map prod_map snd].
      * exact IH.
      * rewrite IH, <- app_assoc. cbn [fmap list_fmap fst]. rewrite Hatoi. reflexivity.
Qed.

(** A vector is built exactly when the count of tokens is the expected one
    and [Atoi] accepts them all; it holds their numbers, in order. *)
Lemma nodeDistancesFromString_ok numaNodes data nd :
  nodeDistancesFromString numaNodes data = (nd, None) →
  Z.of_nat (length (Split data distanceSeparator)) = numaNodes
  ∧ Forall (λ tok, snd (Atoi tok) = None) (Split data distanceSeparator)
  ∧ nd = {| values := parsedTokens data |}.
Proof.
  unfold nodeDistancesFromString, parsedTokens.
  destruct (Z.eqb_spec (Z.of_nat (length (Split data distanceSeparator))) numaNodes)
    as [Heq|]; cbn [negb]; [|intros [=]].
  pose proof (nodeDistancesFromString_loop_spec (Split data distanceSeparator) []
                (replicate (Z.to_nat numaNodes) 0)) as Hloop.
  rewrite length_replicate in Hloop. specialize (Hloop ltac:(lia)).
  cbn [app length] in Hloop.
  destruct (list_find _ (Split data distanceSeparator)) as [[i tok]|] eqn:Hfind.
  - intros Hnd. rewrite Hnd in Hloop. cbn [snd] in Hloop.
    apply list_find_Some in Hfind as (_ & [e He] & _). congruence.
  - rewrite Hloop. intros [= <-]. split; [exact Heq|]. split; [|reflexivity].
    eapply list_find_None in Hfind. eapply Forall_impl; [exact Hfind|].
    intros tok Htok. cbn in Htok. destruct (snd (Atoi tok)); [exfalso; eauto | reflexivity].
Qed.
End VectorFacts.

Section VectorExtras.
Import strconv gostrings distances vocabulary fixtures.

(** X8.  The outcome of [nodeDistancesFromString] in full.  When the count
    of the tokens between single spaces is not [numaNodes]: no vector and
    the count mismatch.  Otherwise, when [Atoi] rejects a token: the error
    of [Atoi] for the first such token.  Otherwise the vector of the
    numbers of the tokens, in order, and no error. *)
Theorem nodeDistancesFromString_outcome (numaNodes : Z) (data : string) :
  if decide (Z.of_nat (length (Split data distanceSeparator)) = numaNodes)
  then
    match list_find (λ tok, is_Some (snd (Atoi tok))) (Split data distanceSeparator) with
    | Some (_, tok) => snd (nodeDistancesFromString numaNodes data) = snd (Atoi tok)
    | None =>
        nodeDistancesFromString numaNodes data = ({| values := parsedTokens data |}, None)
    end
  else
    nodeDistancesFromString numaNodes data
    = ({| values := [] |},
       Some (ErrDistanceCount (Z.of_nat (length (Split data distanceSeparator))) numaNodes)).
Proof.
  destruct (decide _) as [Heq|Hne]; [|apply nodeDistancesFromString_count, Hne].
  unfold nodeDistancesFromString, parsedTokens.
  destruct (Z.eqb_spec (Z.of_nat (length (Split data distanceSeparator))) numaNodes);
    [|contradiction].
  cbn [negb].
  pose proof (nodeDistancesFromString_loop_spec (Split data distanceSeparator) []
                (replicate (Z.to_nat numaNodes) 0)) as Hloop.
  rewrite length_replicate in Hloop. specialize (Hloop ltac:(lia)).
  exact Hloop.
Qed.

End VectorExtras.

(** ** distances: the table that is built *)
Section TableFacts.
Import strconv gostrings distances vocabulary.
Variable src : NodeSource.
Variable sysfsPath : string.

(** A successful loop has read and parsed the file of every node, and
    appended the vectors in the order of the nodes. *)
Lemma NewDistancesFromSysfs_loop_rows numaNodes online : ∀ dist d,
  NewDistancesFromSysfs_loop src sysfsPath numaNodes online dist = (Some d, None) →
  ∃ rows, byNode d = byNode dist ++ rows
          ∧ Forall2 (λ nodeID row, ∃ data,
                       ForNodeReadFile src sysfsPath nodeID "distance" = (data, None)
                       ∧ nodeDistancesFromString numaNodes data = (row, None))
              online rows.
Proof.
  induction online as [|nodeID rest IH]; intros dist d; cbn [NewDistancesFromSysfs_loop].
  - intros [= <-]. exists []. rewrite app_nil_r. split; [reflexivity | constructor].
  - destruct (ForNodeReadFile src sysfsPath nodeID "distance") as [data [e|]] eqn:Hread;
      [intros [=]|].
    destruct (nodeDistancesFromString numaNodes data) as [row [e|]] eqn:Hparse;
      [intros [=]|].
    intros Hloop. apply IH in Hloop as (rows & Hrows & Hall). cbn [byNode] in Hrows.
    exists (row :: rows). rewrite Hrows, <- app_assoc. split; [reflexivity|].
    constructor; [eauto | exact Hall].
Qed.

(** The loop stops at the first node that leaves an error, with that
    error; without such a node it builds a table. *)
Lemma NewDistancesFromSysfs_loop_outcome numaNodes online : ∀ dist,
  match list_find (λ nodeID, is_Some (nodeError src sysfsPath numaNodes nodeID)) online with
  | Some (_, nodeID) =>
      NewDistancesFromSysfs_loop src sysfsPath numaNodes online dist
      = (None, nodeError src sysfsPath numaNodes nodeID)
  | None =>
      ∃ d, NewDistancesFromSysfs_loop src sysfsPath numaNodes online dist = (Some d, None)
  end.
Proof.
  induction online as [|nodeID rest IH]; intros dist;
    cbn [list_find NewDistancesFromSysfs_loop]; [eexists; reflexivity|].
  destruct (nodeError src sysfsPath numaNodes nodeID) as [e|] eqn:Herr.
  - rewrite decide_True by eauto. rewrite Herr. unfold nodeError in Herr.
    destruct (ForNodeReadFile src sysfsPath nodeID "distance") as [data [e'|]];
      [congruence|].
    destruct (nodeDistancesFromString numaNodes data) as [row [e'|]]; cbn [snd] in Herr;
      [congruence | discriminate].
  - rewrite decide_False by (intros [? [=]]). unfold nodeError in Herr.
    destruct (ForNodeReadFile src sysfsPath nodeID "distance") as [data [e'|]];
      [discriminate|].
    destruct (nodeDistancesFromString numaNodes data) as [row [e'|]]; cbn [snd] in Herr;
      [discriminate|].
    specialize (IH {| onlineNodes := <[nodeID:=true]> (onlineNodes dist);
                      byNode := byNode dist ++ [row] |}).
    cbn [byNode onlineNodes].
    destruct (list_find _ rest) as [[i x]|]; exact IH.
Qed.
End TableFacts.

Section TableExtras.
Import strconv gostrings distances vocabulary fixtures.

(** X9.  A table that [NewDistancesFromSysfs] returns is square and in
    the order of the enumeration: it has one row per online node; the row
    at position [i] holds the numbers of the tokens of the [distance] file
    of the [i]-th node, of which there are as many as online nodes and
    which [Atoi] all accepts; and the online set of the table is the set of
    the enumerated nodes. *)
Theorem NewDistancesFromSysfs_table src sysfsPath nodes d :
  NewNodesFromSysFS src sysfsPath = (nodes, None) →
  NewDistancesFromSysfs src sysfsPath = (Some d, None) →
  length (byNode d) = length (Online nodes)
  ∧ (∀ id, is_Some (onlineNodes d !! id) ↔ id ∈ Online nodes)
  ∧ ∀ i nodeID,
      Online nodes !! i = Some nodeID →
      ∃ data,
        ForNodeReadFile src sysfsPath nodeID "distance" = (data, None)
        ∧ byNode d !! i = Some {| values := parsedTokens data |}
        ∧ length (parsedTokens data) = length (Online nodes)
        ∧ Forall (λ tok, snd (Atoi tok) = None) (Split data distanceSeparator).
Proof.
  intros Hnodes. unfold NewDistancesFromSysfs. rewrite Hnodes. cbv beta iota zeta.
  intros Hloop.
  pose proof (NewDistancesFromSysfs_loop_inv _ _ _ _ _ _ Hloop) as (Hlen & _ & Honline).
  apply NewDistancesFromSysfs_loop_rows in Hloop as (rows & Hrows & Hall).
  cbn [byNode onlineNodes length] in *. split; [exact Hlen|]. split.
  - intros id. rewrite Honline. split; [intros [Hin|[? Hempty]] | auto].
    + exact Hin.
    + rewrite lookup_empty in Hempty. discriminate.
  - intros i nodeID Hi. rewrite Hrows.
    destruct (Forall2_lookup_l _ _ _ _ _ Hall Hi) as (row & Hrow & data & Hread & Hparse).
    apply nodeDistancesFromString_ok in Hparse as (Hcount & Hok & ->).
    exists data. split; [exact Hread|]. split; [exact Hrow|]. split; [|exact Hok].
    unfold parsedTokens. rewrite length_fmap. lia.
Qed.

Lemma NewDistancesFromSysfs_table_witness :
  ∃ d, NewDistancesFromSysfs twoNodes "/sys" = (Some d, None)
       ∧ length (byNode d) = 2%nat
       ∧ byNode d !! 1%nat = Some {| values := [20; 10] |}.
Proof.
  destruct (NewDistancesFromSysfs twoNodes "/sys") as [[d|] err] eqn:Hnew;
    [|vm_compute in Hnew; discriminate].
  assert (Herr : err = None) by (vm_compute in Hnew; congruence). subst err.
  assert (Hnodes : NewNodesFromSysFS twoNodes "/sys" = ({| Online := [0; 1] |}, None))
    by reflexivity.
  destruct (NewDistancesFromSysfs_table _ _ _ _ Hnodes Hnew) as (Hlen & _ & Hrows).
  destruct (Hrows 1%nat 1 eq_refl) as (data & Hread & Hrow & _).
  injection Hread as <-.
  exists d. split; [reflexivity|]. split; [exact Hlen | exact Hrow].
Defined.

(** X10.  The outcome of [NewDistancesFromSysfs], by the first failure.
    When the enumeration of the nodes fails: its error and no table.
    Otherwise, when some online node leaves an error (its file cannot be
    read, has the wrong count of tokens, or a token that is not a number):
    the error of the first such node in the order of the enumeration, and
    no table.  Otherwise a table and no error. *)
Theorem NewDistancesFromSysfs_outcome src sysfsPath :
  match NewNodesFromSysFS src sysfsPath with
  | (_, Some err) => NewDistancesFromSysfs src sysfsPath = (None, Some err)
  | (nodes, None) =>
      match list_find (λ nodeID, is_Some (nodeError src sysfsPath
                                            (Z.of_nat (length (Online nodes))) nodeID))
              (Online nodes) with
      | Some (_, nodeID) =>
          NewDistancesFromSysfs src sysfsPath
          = (None, nodeError src sysfsPath (Z.of_nat (length (Online nodes))) nodeID)
      | None => ∃ d, NewDistancesFromSysfs src sysfsPath = (Some d, None)
      end
  end.
Proof.
  unfold NewDistancesFromSysfs.
  destruct (NewNodesFromSysFS src sysfsPath) as [nodes [err|]]; [reflexivity|].
  apply NewDistancesFromSysfs_loop_outcome.
Qed.

End TableExtras.

(** ** distances: queries on a built table *)
Section QueryExtras.
Import strconv gostrings distances vocabulary fixtures.

(** X11.  On a machine whose online nodes are 0, 1, ..., n-1, in this
    order, a table that was built answers every query without a panic, and
    for two nodes [from] and [to] of that range [BetweenNodes] returns,
    without error, the number of the token at position [to] of the
    [distance] file of the node [from]. *)
Theorem BetweenNodes_contiguous src sysfsPath nodes d :
  NewNodesFromSysFS src sysfsPath = (nodes, None) →
  Online nodes = seqZ 0 (Z.of_nat (length (Online nodes))) →
  NewDistancesFromSysfs src sysfsPath = (Some d, None) →
  (∀ from to, ∃ r, BetweenNodes d from to = Returns r)
  ∧ ∀ from to,
      0 ≤ from < Z.of_nat (length (Online nodes)) →
      0 ≤ to < Z.of_nat (length (Online nodes)) →
      ∃ data v,
        ForNodeReadFile src sysfsPath from "distance" = (data, None)
        ∧ parsedTokens data !! Z.to_nat to = Some v
        ∧ BetweenNodes d from to = Returns (v, None).
Proof.
  intros Hnodes Hdense Hnew. split.
  { intros from to. exact (BetweenNodes_dense _ _ _ _ from to Hnodes Hdense Hnew). }
  intros from to Hfrom Hto.
  unfold NewDistancesFromSysfs in Hnew. rewrite Hnodes in Hnew. cbv beta iota zeta in Hnew.
  pose proof (NewDistancesFromSysfs_loop_inv _ _ _ _ _ _ Hnew) as (_ & _ & Honline).
  apply NewDistancesFromSysfs_loop_rows in Hnew as (rows & Hrows & Hall).
  cbn [byNode onlineNodes app] in *.
  assert (Hpos : ∀ id, 0 ≤ id < Z.of_nat (length (Online nodes)) →
                       Online nodes !! Z.to_nat id = Some id).
  { intros id Hid. rewrite Hdense at 1. apply lookup_seqZ. split; lia. }
  assert (Hmem : ∀ id, 0 ≤ id < Z.of_nat (length (Online nodes)) →
                       is_Some (onlineNodes d !! id)).
  { intros id Hid. apply Honline. left. eapply list_elem_of_lookup_2, Hpos, Hid. }
  destruct (Forall2_lookup_l _ _ _ _ _ Hall (Hpos from Hfrom))
    as (row & Hrow & data & Hread & Hparse).
  apply nodeDistancesFromString_ok in Hparse as (Hcount & _ & ->).
  rewrite <- Hrows in Hrow.
  destruct (BetweenNodes_in_bounds d from to _ (Hmem from Hfrom) (Hmem to Hto)
              ltac:(lia) Hrow) as (v & Hv & Hquery).
  { cbn [values]. unfold parsedTokens. rewrite length_fmap. lia. }
  exists data, v. split; [exact Hread|]. split; [exact Hv | exact Hquery].
Qed.

Lemma BetweenNodes_contiguous_witness :
  ∃ d, NewDistancesFromSysfs twoNodes "/sys" = (Some d, None)
       ∧ parsedTokens "10 20" !! 1%nat = Some 20
       ∧ BetweenNodes d 0 1 = Returns (20, None).
Proof.
  destruct (NewDistancesFromSysfs twoNodes "/sys") as [[d|] err] eqn:Hnew;
    [|vm_compute in Hnew; discriminate].
  assert (Herr : err = None) by (vm_compute in Hnew; congruence). subst err.
  assert (Hnodes : NewNodesFromSysFS twoNodes "/sys" = ({| Online := [0; 1] |}, None))
    by reflexivity.
  assert (Hdense : Online {| Online := [0; 1] |}
                   = seqZ 0 (Z.of_nat (length (Online {| Online := [0; 1] |}))))
    by reflexivity.
  destruct (BetweenNodes_contiguous _ _ _ _ Hnodes Hdense Hnew) as [_ Hvalue].
  destruct (Hvalue 0 1 ltac:(cbn; lia) ltac:(cbn; lia)) as (data & v & Hread & Hv & Hquery).
  injection Hread as <-.
  assert (Hv20 : v = 20) by (vm_compute in Hv; congruence). subst v.
  exists d. split; [reflexivity|]. split; [exact Hv | exact Hquery].
Defined.

(** X12.  A query that names a node outside the online set of the table
    returns the value -1 with the error for an unknown node, which names
    [from] when [from] is not online and [to] otherwise; and this is the
    only error that [BetweenNodes] returns. *)
Theorem BetweenNodes_unknown_node (d : Distances) (from to : Z) :
  (onlineNodes d !! from = None
   → BetweenNodes d from to = Returns (-1, Some (ErrUnknownNode from)))
  ∧ (is_Some (onlineNodes d !! from) → onlineNodes d !! to = None
     → BetweenNodes d from to = Returns (-1, Some (ErrUnknownNode to)))
  ∧ (∀ v err, BetweenNodes d from to = Returns (v, Some err)
     → v = -1
       ∧ (onlineNodes d !! from = None ∧ err = ErrUnknownNode from
          ∨ is_Some (onlineNodes d !! from) ∧ onlineNodes d !! to = None
            ∧ err = ErrUnknownNode to)).
Proof.
  destruct (BetweenNodes_error d from to) as (Hfrom & Hto & _).
  split; [exact Hfrom|]. split; [exact Hto|].
  intros v err Hquery.
  destruct (onlineNodes d !! from) as [b|] eqn:Hf.
  - destruct (onlineNodes d !! to) as [b'|] eqn:Ht.
    + unfold BetweenNodes in Hquery. rewrite Hf, Ht in Hquery.
      destruct (index (byNode d) from) as [row|]; [|discriminate].
      destruct (index (values row) to); discriminate.
    + rewrite (Hto ltac:(eauto) eq_refl) in Hquery. injection Hquery as <- <-.
      split; [reflexivity|]. right. eauto.
  - rewrite (Hfrom eq_refl) in Hquery. injection Hquery as <- <-.
    split; [reflexivity|]. left. eauto.
Qed.

End QueryExtras.

(** ** fakesysfs: the store stays a forest *)
Section ForestFacts.
Import fakesysfs vocabulary.

Lemma forest_items_lt st sub :
  forest st → sub ∈ mjoin (items <$> st) → (sub < length st)%nat.
Proof.
  intros [Hbound _] Hin. apply list_elem_of_join in Hin as (l & Hsub & Hl).
  apply list_elem_of_fmap in Hl as (node & -> & Hnode).
  apply list_elem_of_lookup in Hnode as [t Ht].
  specialize (Hbound t node Ht). rewrite Forall_forall in Hbound.
  specialize (Hbound sub Hsub). lia.
Qed.

Lemma forest_NewTree st name attrs : forest st → forest (fst (NewTree st name attrs)).
Proof.
  intros Hforest. pose proof Hforest as [Hbound Hnodup]. cbn [NewTree fst]. split.
  - intros t node Ht. rewrite length_app. cbn [length].
    destruct (decide (t < length st)%nat) as [Hlt|Hge].
    + rewrite lookup_app_l in Ht by exact Hlt.
      eapply Forall_impl; [exact (Hbound t node Ht)|]. cbn. lia.
    + rewrite lookup_app_r in Ht by lia.
      destruct (t - length st)%nat; [|discriminate]. injection Ht as <-. constructor.
  - rewrite fmap_app, join_app. cbn. rewrite !app_nil_r. exact Hnodup.
Qed.

(** The items of all the nodes, after the update that [Add] makes. *)
Lemma join_items_insert (st : list tree) t node node' new n :
  st !! t = Some node →
  items node' = items node ++ [n] → items new = [] →
  mjoin (items <$> <[t := node']> (st ++ [new])) ≡ₚ mjoin (items <$> st) ++ [n].
Proof.
  intros Ht Hitems Hnew.
  apply list_elem_of_split_length in Ht as (l1 & l2 & -> & ->).
  rewrite <- app_assoc. cbn [app].
  rewrite insert_app_r_alt, Nat.sub_diag by lia. cbn [insert list_insert].
  rewrite !fmap_app, !fmap_cons, !join_app.
  change (mjoin (items node' :: (items <$> l2 ++ [new])))
    with (items node' ++ mjoin (items <$> l2 ++ [new])).
  change (mjoin (items node :: (items <$> l2)))
    with (items node ++ mjoin (items <$> l2)).
  rewrite fmap_app, join_app. cbn [fmap list_fmap].
  change (mjoin [items new]) with (items new ++ []).
  rewrite Hitems, Hnew, !app_nil_r.
  rewrite <- !app_assoc. apply Permutation_app_head, Permutation_app_head.
  cbn [app]. apply Permutation_cons_append.
Qed.

(** [Add] on a forest leaves a forest. *)
Lemma forest_Add st t name attrs st' n :
  forest st → Add st t name attrs = Returns (st', n) → forest st'.
Proof.
  intros Hforest. pose proof Hforest as [Hbound Hnodup]. unfold Add, NewTree.
  destruct (st !! t) as [node|] eqn:Ht; [|intros [=]]. intros [= <- <-].
  assert (Hlt : (t < length st)%nat) by (eapply lookup_lt_Some; exact Ht).
  split.
  - intros t' nd. rewrite length_insert, length_app. cbn [length].
    destruct (decide (t' = t)) as [->|Hne].
    + rewrite list_lookup_insert_eq by (rewrite length_app; cbn [length]; lia).
      intros [= <-]. cbn [items]. apply Forall_app. split.
      * eapply Forall_impl; [exact (Hbound t node Ht)|]. cbn. lia.
      * constructor; [lia | constructor].
    + rewrite list_lookup_insert_ne by congruence.
      destruct (decide (t' < length st)%nat) as [Hlt'|Hge].
      * rewrite lookup_app_l by exact Hlt'. intros Ht'.
        eapply Forall_impl; [exact (Hbound t' nd Ht')|]. cbn. lia.
      * rewrite lookup_app_r by lia.
        destruct (t' - length st)%nat; [|intros [=]]. intros [= <-]. constructor.
  - assert (Hperm : mjoin (items <$> <[t := {| name := fakesysfs.name node;
                                               attrs := fakesysfs.attrs node;
                                               items := items node ++ [length st] |}]>
                                      (st ++ [{| name := name; attrs := attrs; items := [] |}]))
                    ≡ₚ mjoin (items <$> st) ++ [length st]).
    { apply (join_items_insert st t node); [exact Ht | reflexivity | reflexivity]. }
    rewrite Hperm. apply NoDup_app. split; [exact Hnodup|]. split; [|apply NoDup_singleton].
    intros sub Hin Hnew. apply list_elem_of_singleton in Hnew. subst sub.
    apply (forest_items_lt st _ Hforest) in Hin. lia.
Qed.

Lemma forest_AddTree_loop entries : ∀ st pos st' h,
  forest st → AddTree_loop st pos entries = Returns (st', h) → forest st'.
Proof.
  induction entries as [|entry entries IH]; intros st pos st' h Hforest;
    cbn [AddTree_loop].
  - intros [= <- _]. exact Hforest.
  - destruct (Add st pos entry None) as [[st1 pos1]|msg] eqn:Hadd; [|intros [=]].
    apply IH. eapply forest_Add; [exact Hforest | exact Hadd].
Qed.
End ForestFacts.

Section ForestExtras.
Import fakesysfs vocabulary.

(** X13.  The store that the builder keeps is a forest, whatever is
    added: the empty store is one, and [NewTree], [NewFakeSysfs], [Add] and
    [AddTree] turn a forest into a forest.  So the items of a node are
    always allocated nodes made after it, and no node is an item twice. *)
Theorem forest_kept :
  forest []
  ∧ (∀ st name attrs, forest st → forest (fst (NewTree st name attrs)))
  ∧ (∀ st base, forest st → forest (fst (NewFakeSysfs st base)))
  ∧ (∀ st t name attrs st' n,
       forest st → Add st t name attrs = Returns (st', n) → forest st')
  ∧ (∀ st fs entries st' h,
       forest st → AddTree st fs entries = Returns (st', h) → forest st').
Proof.
  split; [split; [intros t node [=] | constructor]|].
  split; [exact forest_NewTree|].
  split; [intros st base Hforest; exact (forest_NewTree st "_" None Hforest)|].
  split; [exact forest_Add|].
  intros st fs entries st' h. unfold AddTree. apply forest_AddTree_loop.
Qed.

(** The store of a new [FakeSysfs] with the path [bus/pci] added is a
    forest. *)
Lemma forest_kept_witness :
  AddTree [ {| name := "_"; attrs := None; items := [] |} ]
    {| base := "/tmp/fakesysfs"; root := 0 |} ["bus"; "pci"]
  = Returns ([ {| name := "_"; attrs := None; items := [1%nat] |};
               {| name := "bus"; attrs := None; items := [2%nat] |};
               {| name := "pci"; attrs := None; items := [] |} ], 2%nat)
  ∧ forest [ {| name := "_"; attrs := None; items := [1%nat] |};
             {| name := "bus"; attrs := None; items := [2%nat] |};
             {| name := "pci"; attrs := None; items := [] |} ].
Proof.
  assert (Hadd : AddTree [ {| name := "_"; attrs := None; items := [] |} ]
                   {| base := "/tmp/fakesysfs"; root := 0 |} ["bus"; "pci"]
                 = Returns ([ {| name := "_"; attrs := None; items := [1%nat] |};
                              {| name := "bus"; attrs := None; items := [2%nat] |};
                              {| name := "pci"; attrs := None; items := [] |} ], 2%nat))
    by reflexivity.
  split; [exact Hadd|].
  destruct forest_kept as (Hnil & _ & Hnew & _ & Htree).
  exact (Htree _ _ _ _ _ (Hnew [] "/tmp/fakesysfs" Hnil) Hadd).
Defined.

End ForestExtras.

(** ** fakesysfs: what AddTree adds *)
Section AddTreeChain.
Import fakesysfs vocabulary.

Lemma AddTree_loop_chain entries : ∀ st pos pn,
  st !! pos = Some pn →
  ∃ st' h,
    AddTree_loop st pos entries = Returns (st', h)
    ∧ length st' = (length st + length entries)%nat
    ∧ h = match entries with
          | [] => pos
          | _ => (length st + length entries - 1)%nat
          end
    ∧ st' !! pos = Some match entries with
                        | [] => pn
                        | _ => {| name := name pn; attrs := attrs pn;
                                  items := items pn ++ [length st] |}
                        end
    ∧ (∀ i entry,
         entries !! i = Some entry →
         st' !! (length st + i)%nat
         = Some {| name := entry; attrs := None;
                   items := if decide (S i = length entries) then []
                            else [(length st + S i)%nat] |})
    ∧ (∀ t, (t < length st)%nat → t ≠ pos → st' !! t = st !! t).
Proof.
  induction entries as [|e es IH]; intros st pos pn Hpos.
  - exists st, pos. cbn [AddTree_loop length]. rewrite Nat.add_0_r.
    repeat split; [exact Hpos|]. intros i entry [=].
  - assert (Hlt : (pos < length st)%nat) by (eapply lookup_lt_Some; exact Hpos).
    destruct (Add_spec st pos e None pn Hpos)
      as (st1 & Hadd & _ & Hlen1 & Hnew & Hpos1 & Hother1).
    destruct (IH st1 (length st) _ Hnew)
      as (st' & h & Hloop & Hlen & Hh & Hchild & Hchain & Hother).
    exists st', h. cbn [AddTree_loop length]. rewrite Hadd.
    split; [exact Hloop|]. split; [lia|]. split.
    { rewrite Hh. destruct es; cbn [length]; lia. }
    split.
    { rewrite (Hother pos) by lia. exact Hpos1. }
    split.
    + intros [|j] entry Hentry.
      * injection Hentry as <-. rewrite Nat.add_0_r, Hchild.
        destruct es as [|e2 es]; cbn [length name attrs items app].
        -- rewrite decide_True by reflexivity. reflexivity.
        -- rewrite decide_False by lia. do 3 f_equal. lia.
      * cbn [lookup list_lookup] in Hentry. specialize (Hchain j entry Hentry).
        replace (length st + S j)%nat with (length st1 + j)%nat by lia.
        rewrite Hchain. f_equal. f_equal.
        destruct (decide (S j = length es)), (decide (S (S j) = S (length es)));
          try lia; [reflexivity|]. f_equal. lia.
    + intros t Ht Hne. rewrite (Hother t) by lia. apply Hother1; [exact Hne | lia].
Qed.
End AddTreeChain.

Section AddTreeExtras.
Import fakesysfs vocabulary.

(** X14.  On an allocated root, [AddTree(e1, ..., en)] never panics and
    never reuses a node: it allocates [n] new nodes, named [e1], ..., [en],
    without attributes, each the only item of the one before it and the
    last without items; for [n > 0] the first is appended to the items of
    the root, whatever the root's items were, and the handle returned is
    that of the last; for [n = 0] the root is returned.  Every other node
    of the store is left as it was. *)
Theorem AddTree_adds_a_chain st fs entries rootNode :
  st !! Root fs = Some rootNode →
  ∃ st' h,
    AddTree st fs entries = Returns (st', h)
    ∧ length st' = (length st + length entries)%nat
    ∧ h = match entries with
          | [] => Root fs
          | _ => (length st + length entries - 1)%nat
          end
    ∧ st' !! Root fs = Some match entries with
                            | [] => rootNode
                            | _ => {| name := name rootNode; attrs := attrs rootNode;
                                      items := items rootNode ++ [length st] |}
                            end
    ∧ (∀ i entry,
         entries !! i = Some entry →
         st' !! (length st + i)%nat
         = Some {| name := entry; attrs := None;
                   items := if decide (S i = length entries) then []
                            else [(length st + S i)%nat] |})
    ∧ (∀ t, (t < length st)%nat → t ≠ Root fs → st' !! t = st !! t).
Proof.
  intros Hroot. unfold AddTree, Root in *. apply AddTree_loop_chain. exact Hroot.
Qed.

(** Adding the path [bus/pci] twice gives the root two items named [bus]:
    the second call does not follow the first path. *)
Lemma AddTree_adds_a_chain_witness :
  ∃ st1 h1 st2 h2,
    AddTree [ {| name := "_"; attrs := None; items := [] |} ]
      {| base := "/tmp/fakesysfs"; root := 0 |} ["bus"; "pci"] = Returns (st1, h1)
    ∧ AddTree st1 {| base := "/tmp/fakesysfs"; root := 0 |} ["bus"; "pci"] = Returns (st2, h2)
    ∧ length st2 = 5%nat ∧ h2 = 4%nat
    ∧ st2 !! 0%nat = Some {| name := "_"; attrs := None; items := [1%nat; 3%nat] |}
    ∧ st2 !! 3%nat = Some {| name := "bus"; attrs := None; items := [4%nat] |}.
Proof.
  pose (fs := {| base := "/tmp/fakesysfs"; root := 0 |}).
  pose (st1 := [ {| name := "_"; attrs := None; items := [1%nat] |};
                 {| name := "bus"; attrs := None; items := [2%nat] |};
                 {| name := "pci"; attrs := None; items := [] |} ]).
  destruct (AddTree_adds_a_chain st1 fs ["bus"; "pci"] _ eq_refl)
    as (st2 & h2 & Hadd & Hlen & Hh & Hroot & Hchain & _).
  exists st1, 2%nat, st2, h2. split; [reflexivity|]. split; [exact Hadd|].
  split; [exact Hlen|]. split; [exact Hh|]. split; [exact Hroot|].
  exact (Hchain 0%nat "bus" eq_refl).
Defined.

End AddTreeExtras.

(** ** fakesysfs: materialization runs to its end *)
Section CreateFacts.
Import fakesysfs vocabulary.
Context {W : Type}.
Variable os : OS W.

Lemma SetAttrs_returns (st : list tree) t :
  (t < length st)%nat → ∀ w, ∃ r, SetAttrs os st t w = Returns r.
Proof.
  intros Ht w. unfold SetAttrs.
  destruct (st !! t) as [node|] eqn:Hnode; [|apply lookup_ge_None in Hnode; lia].
  destruct (attrs node); eexists; reflexivity.
Qed.

(** [createItems] depends on [Create] only at the items it is given. *)
Lemma createItems_ext C1 C2 (st : list tree) items :
  (∀ sub, sub ∈ items → ∀ w, C1 sub w = C2 sub w) →
  ∀ w err, createItems os C1 st items w err = createItems os C2 st items w err.
Proof.
  induction items as [|sub rest IH]; intros Hagree w err; [reflexivity|].
  cbn [createItems]. destruct (Name st sub) as [name|msg]; [|reflexivity].
  destruct (Mkdir os name mode0755 w) as [w1 [e|]]; [reflexivity|].
  unfold createItem. destruct (Name st sub) as [name'|msg]; [|reflexivity].
  destruct (Chdir os name' w1) as [w2 e2].
  rewrite (Hagree sub ltac:(left) w2).
  destruct (C2 sub w2) as [[[w3 e3]|msg]|]; try reflexivity.
  destruct (Chdir os ".." w3) as [w4 e4].
  apply IH. intros sub' Hin. apply Hagree. right. exact Hin.
Qed.

Lemma createItems_returns C (st : list tree) items :
  (∀ sub, sub ∈ items → (sub < length st)%nat ∧ ∀ w, ∃ r, C sub w = Some (Returns r)) →
  ∀ w err, ∃ r, createItems os C st items w err = Some (Returns r).
Proof.
  induction items as [|sub rest IH]; intros Hitems w err; [eexists; reflexivity|].
  destruct (Hitems sub ltac:(left)) as [Hlt Hsub].
  cbn [createItems]. unfold createItem, Name.
  destruct (st !! sub) as [node|] eqn:Hnode; [|apply lookup_ge_None in Hnode; lia].
  destruct (Mkdir os (name node) mode0755 w) as [w1 [e|]]; [eexists; reflexivity|].
  destruct (Chdir os (name node) w1) as [w2 e2].
  destruct (Hsub w2) as [[w3 e3] ->].
  destruct (Chdir os ".." w3) as [w4 e4].
  apply IH. intros sub' Hin. apply Hitems. right. exact Hin.
Qed.

(** On a forest, [Create] on the node [t] returns when it may recurse as
    deep as there are handles above [t]; it does not panic. *)
Lemma Create_returns (st : list tree) :
  forest st →
  ∀ fuel t, (t < length st)%nat → (length st - t ≤ fuel)%nat →
            ∀ w, ∃ r, Create os fuel st t w = Some (Returns r).
Proof.
  intros [Hbound _]. induction fuel as [|fuel IH]; intros t Ht Hfuel w; [lia|].
  cbn [Create]. destruct (SetAttrs_returns st t Ht w) as [[w1 [e|]] ->];
    [eexists; reflexivity|].
  unfold Items. destruct (st !! t) as [node|] eqn:Hnode;
    [|apply lookup_ge_None in Hnode; lia].
  apply createItems_returns. intros sub Hin.
  specialize (Hbound t node Hnode). rewrite Forall_forall in Hbound.
  specialize (Hbound sub Hin). split; [lia|]. intros w'. apply IH; lia.
Qed.

(** More fuel than that changes nothing. *)
Lemma Create_fuel (st : list tree) :
  forest st →
  ∀ fuel1 fuel2 t, (t < length st)%nat →
                   (length st - t ≤ fuel1)%nat → (length st - t ≤ fuel2)%nat →
                   ∀ w, Create os fuel1 st t w = Create os fuel2 st t w.
Proof.
  intros [Hbound _]. induction fuel1 as [|fuel1 IH]; intros fuel2 t Ht H1 H2 w; [lia|].
  destruct fuel2 as [|fuel2]; [lia|]. cbn [Create].
  destruct (SetAttrs os st t w) as [[w1 [e|]]|msg]; try reflexivity.
  unfold Items. destruct (st !! t) as [node|] eqn:Hnode; [|reflexivity].
  apply createItems_ext. intros sub Hin w'.
  specialize (Hbound t node Hnode). rewrite Forall_forall in Hbound.
  specialize (Hbound sub Hin). apply IH; lia.
Qed.
End CreateFacts.

Section ExampleStores.
Import fakesysfs vocabulary.

Lemma forest_pathStore : forest examples.pathStore.
Proof.
  split.
  - intros [|[|[|t]]] node [= <-]; repeat constructor; cbn; lia.
  - apply (bool_decide_unpack _). vm_compute. reflexivity.
Qed.

Lemma forest_deviceStore : forest examples.deviceStore.
Proof.
  split.
  - intros [|[|[|t]]] node [= <-]; repeat constructor; cbn; lia.
  - apply (bool_decide_unpack _). vm_compute. reflexivity.
Qed.
End ExampleStores.

Section CreateExtras.
Import fakesysfs vocabulary.

(** X15.  On a store that is a forest, materialization comes to an end
    without a panic, whatever the operating system answers: [Create] on an
    allocated node and [Setup] on a [FakeSysfs] with an allocated root
    return, with a recursion no deeper than the store is long, and a deeper
    bound gives the same result. *)
Theorem Create_terminates {W : Type} (os : OS W) (st : list tree) :
  forest st →
  (∀ t w, (t < length st)%nat →
          (∃ r, Create os (length st) st t w = Some (Returns r))
          ∧ ∀ fuel, (length st ≤ fuel)%nat →
                    Create os fuel st t w = Create os (length st) st t w)
  ∧ (∀ fs w, (Root fs < length st)%nat →
             (∃ r, Setup os (length st) st fs w = Some (Returns r))
             ∧ ∀ fuel, (length st ≤ fuel)%nat →
                       Setup os fuel st fs w = Setup os (length st) st fs w).
Proof.
  intros Hforest. split.
  - intros t w Ht. split.
    + apply Create_returns; [exact Hforest | exact Ht | lia].
    + intros fuel Hfuel. apply Create_fuel; [exact Hforest | exact Ht | lia | lia].
  - intros fs w Hroot. unfold Setup, Root in *.
    destruct (Getwd os w) as [w1 [oldWd [e|]]].
    { split; [eexists; reflexivity | reflexivity]. }
    destruct (Chdir os (base fs) w1) as [w2 e2]. split.
    + destruct (Create_returns os st Hforest (length st) (root fs) Hroot ltac:(lia) w2)
        as [[w3 e3] ->].
      destruct (Chdir os oldWd w3). eexists; reflexivity.
    + intros fuel Hfuel.
      rewrite (Create_fuel os st Hforest fuel (length st) (root fs) Hroot) by lia.
      reflexivity.
Qed.

(** The path [bus/pci] below the root is materialized to its end. *)
Lemma Create_terminates_witness :
  forest examples.pathStore
  ∧ ∃ r, Setup examples.quietOS (length examples.pathStore) examples.pathStore
           examples.tmpSysfs "/home" = Some (Returns r).
Proof.
  split; [exact forest_pathStore|].
  apply (proj2 (Create_terminates examples.quietOS _ forest_pathStore)
           examples.tmpSysfs "/home").
  cbn. lia.
Defined.

End CreateExtras.

(** ** fakesysfs: the calls that materialization makes *)
Section RecordingFacts.
Import fakesysfs vocabulary.
Context {W : Type}.
Variable os : OS W.

Lemma recording_Mkdir name perm w log :
  Mkdir (recording os) name perm (w, log)
  = ((fst (Mkdir os name perm w), log ++ [CallMkdir name perm]), snd (Mkdir os name perm w)).
Proof. cbn. destruct (Mkdir os name perm w). reflexivity. Qed.

Lemma recording_Chdir dir w log :
  Chdir (recording os) dir (w, log)
  = ((fst (Chdir os dir w), log ++ [CallChdir dir]), snd (Chdir os dir w)).
Proof. cbn. destruct (Chdir os dir w). reflexivity. Qed.

Lemma recording_WriteFile name content perm w log :
  WriteFile (recording os) name content perm (w, log)
  = ((fst (WriteFile os name content perm w), log ++ [CallWriteFile name content perm]),
     snd (WriteFile os name content perm w)).
Proof. cbn. destruct (WriteFile os name content perm w). reflexivity. Qed.

Lemma recording_Getwd w log :
  Getwd (recording os) (w, log)
  = ((fst (Getwd os w), log ++ [CallGetwd]), snd (Getwd os w)).
Proof. cbn. destruct (Getwd os w). reflexivity. Qed.

(** The record only grows. *)
Lemma SetAttrs_loop_grows entries : ∀ w log err w' log' err',
  SetAttrs_loop (recording os) entries (w, log) err = ((w', log'), err') →
  ∃ body, log' = log ++ body.
Proof.
  induction entries as [|[name content] rest IH]; intros w log err w' log' err';
    cbn [SetAttrs_loop].
  - intros [= <- <- <-]. exists []. rewrite app_nil_r. reflexivity.
  - rewrite recording_WriteFile.
    destruct (snd (WriteFile os name content mode0644 w)) as [e|].
    + intros [= <- <- <-]. eexists; reflexivity.
    + intros Hloop. apply IH in Hloop as [body ->]. rewrite <- app_assoc. eexists; reflexivity.
Qed.

Lemma createItems_grows C (st : list tree) items :
  (∀ sub w log w' log' e,
     C sub (w, log) = Some (Returns ((w', log'), e)) → ∃ body, log' = log ++ body) →
  ∀ w log err w' log' e,
    createItems (recording os) C st items (w, log) err = Some (Returns ((w', log'), e)) →
    ∃ body, log' = log ++ body.
Proof.
  intros HC. induction items as [|sub rest IH]; intros w log err w' log' e;
    cbn [createItems].
  - intros [= <- <- <-]. exists []. rewrite app_nil_r. reflexivity.
  - unfold createItem. destruct (Name st sub) as [name|msg]; [|intros [=]].
    rewrite recording_Mkdir. destruct (snd (Mkdir os name mode0755 w)) as [e1|].
    + intros [= <- <- <-]. eexists; reflexivity.
    + cbv beta iota zeta. rewrite recording_Chdir. cbv beta iota zeta.
      destruct (C sub _) as [[[[w3 log3] e3]|msg]|] eqn:Hsub; try solve [intros [=]].
      apply HC in Hsub as [body1 ->]. rewrite recording_Chdir. cbv beta iota zeta.
      intros Hrest. apply IH in Hrest as [body2 ->].
      rewrite <- !app_assoc. eexists; reflexivity.
Qed.

Lemma Create_grows (st : list tree) : ∀ fuel t w log w' log' e,
  Create (recording os) fuel st t (w, log) = Some (Returns ((w', log'), e)) →
  ∃ body, log' = log ++ body.
Proof.
  induction fuel as [|fuel IH]; intros t w log w' log' e; [intros [=]|].
  cbn [Create]. unfold SetAttrs. destruct (st !! t) as [node|] eqn:Hnode; [|intros [=]].
  assert (Hattrs : ∃ w1 body1 e1,
            match attrs node with
            | None => Returns ((w, log), None)
            | Some m => Returns (SetAttrs_loop (recording os)
                                   (Range (recording os) m (w, log)) (w, log) None)
            end = Returns ((w1, log ++ body1), e1)).
  { destruct (attrs node) as [m|].
    - destruct (SetAttrs_loop _ _ _ _) as [[w1 log1] e1] eqn:Hloop.
      apply SetAttrs_loop_grows in Hloop as [body1 ->]. eauto.
    - exists w, [], None. rewrite app_nil_r. reflexivity. }
  destruct Hattrs as (w1 & body1 & e1 & ->).
  destruct e1 as [e1|]; [intros [= <- <- <-]; eexists; reflexivity|].
  unfold Items. rewrite Hnode. intros Hitems.
  apply createItems_grows in Hitems as [body2 ->]; [|exact (IH)].
  rewrite <- app_assoc. eexists; reflexivity.
Qed.
End RecordingFacts.

Section SetupFrame.
Import fakesysfs vocabulary.

(** X16.  [Setup] first asks for the working directory.  When that
    fails, it returns the error and makes no other call.  Otherwise, on a
    store that is a forest, it changes to the base directory, and whatever
    the calls after that answer, it returns and its last call changes back
    to the directory it started in. *)
Theorem Setup_restores_directory {W : Type} (os : OS W) (fuel : nat) (st : list tree)
    (fs : FakeSysfs) (w : W) (log : list call) :
  forest st → (Root fs < length st)%nat → (length st ≤ fuel)%nat →
  match snd (snd (Getwd os w)) with
  | Some err =>
      Setup (recording os) fuel st fs (w, log)
      = Some (Returns ((fst (Getwd os w), log ++ [CallGetwd]), Some err))
  | None =>
      ∃ r body, Setup (recording os) fuel st fs (w, log) = Some (Returns r)
                ∧ snd (fst r)
                  = log ++ [CallGetwd; CallChdir (Base fs)] ++ body
                        ++ [CallChdir (fst (snd (Getwd os w)))]
  end.
Proof.
  intros Hforest Hroot Hfuel. unfold Setup, Base, Root in *. rewrite recording_Getwd.
  destruct (Getwd os w) as [w1 [oldWd [err|]]]; cbn [fst snd]; [reflexivity|].
  rewrite recording_Chdir.
  destruct (Create_returns (recording os) st Hforest fuel (root fs) Hroot ltac:(lia)
              (fst (Chdir os (base fs) w1), (log ++ [CallGetwd]) ++ [CallChdir (base fs)]))
    as [[[w3 log3] e3] Hcreate].
  rewrite Hcreate. apply Create_grows in Hcreate as [body ->]. rewrite recording_Chdir.
  eexists _, body. split; [reflexivity|]. cbn [fst snd].
  rewrite <- !app_assoc. reflexivity.
Qed.

Lemma Setup_restores_directory_witness :
  ∃ r body,
    Setup (recording examples.readOnlyOS) 3 examples.deviceStore examples.tmpSysfs
      ("/home", []) = Some (Returns r)
    ∧ snd (fst r)
      = [] ++ [CallGetwd; CallChdir "/tmp/fakesysfs"] ++ body ++ [CallChdir "/home"].
Proof.
  exact (Setup_restores_directory examples.readOnlyOS 3 examples.deviceStore
           examples.tmpSysfs "/home" [] forest_deviceStore
           ltac:(cbn; lia) ltac:(cbn; lia)).
Defined.

End SetupFrame.

(** ** fakesysfs: materialization when no call fails *)
Section MaterializationFacts.
Import fakesysfs vocabulary.
Context {W : Type}.
Variable os : OS W.
Hypothesis Hok : neverFails os.

Lemma SetAttrs_loop_all_written entries : ∀ w log,
  ∃ w', SetAttrs_loop (recording os) entries (w, log) None
        = ((w', log ++ attrCalls entries), None).
Proof.
  induction entries as [|[name content] rest IH]; intros w log; cbn [SetAttrs_loop].
  - exists w. unfold attrCalls. cbn. rewrite app_nil_r. reflexivity.
  - rewrite recording_WriteFile. rewrite (proj2 Hok).
    destruct (IH (fst (WriteFile os name content mode0644 w))
                 (log ++ [CallWriteFile name content mode0644])) as [w' ->].
    exists w'. unfold attrCalls. cbn [fmap list_fmap]. rewrite <- app_assoc. reflexivity.
Qed.

Lemma createItems_materializes C (st : list tree) items :
  (∀ sub, sub ∈ items →
          (sub < length st)%nat
          ∧ ∀ w log, ∃ w' inner, C sub (w, log) = Some (Returns ((w', log ++ inner), None))
                                 ∧ materializes st sub inner) →
  ∀ w log, ∃ w' body,
    createItems (recording os) C st items (w, log) None
    = Some (Returns ((w', log ++ body), None))
    ∧ materializesItems st items body.
Proof.
  induction items as [|sub rest IH]; intros Hitems w log.
  - exists w, []. rewrite app_nil_r. split; [reflexivity | constructor].
  - destruct (Hitems sub ltac:(left)) as [Hlt Hsub].
    cbn [createItems]. unfold createItem, Name.
    destruct (st !! sub) as [node|] eqn:Hnode; [|apply lookup_ge_None in Hnode; lia].
    rewrite recording_Mkdir. rewrite (proj1 Hok). cbv beta iota zeta.
    rewrite recording_Chdir. cbv beta iota zeta.
    destruct (Hsub (fst (Chdir os (name node) (fst (Mkdir os (name node) mode0755 w))))
                   ((log ++ [CallMkdir (name node) mode0755]) ++ [CallChdir (name node)]))
      as (w3 & inner & -> & Hinner).
    rewrite recording_Chdir. cbv beta iota zeta.
    destruct (IH (λ sub' Hin, Hitems sub' ltac:(right; exact Hin))
                 (fst (Chdir os ".." w3))
                 ((((log ++ [CallMkdir (name node) mode0755]) ++ [CallChdir (name node)])
                   ++ inner) ++ [CallChdir ".."]))
      as (w' & body & -> & Hbody).
    exists w', ([CallMkdir (name node) mode0755; CallChdir (name node)]
                ++ inner ++ [CallChdir ".."] ++ body).
    split.
    + rewrite <- !app_assoc. reflexivity.
    + econstructor; eassumption.
Qed.

Hypothesis Hrange : rangeSound os.

Lemma Create_materializes (st : list tree) :
  forest st →
  ∀ fuel t, (t < length st)%nat → (length st - t ≤ fuel)%nat →
            ∀ w log, ∃ w' body,
              Create (recording os) fuel st t (w, log)
              = Some (Returns ((w', log ++ body), None))
              ∧ materializes st t body.
Proof.
  intros [Hbound _]. induction fuel as [|fuel IH]; intros t Ht Hfuel w log; [lia|].
  cbn [Create]. unfold SetAttrs, Items.
  destruct (st !! t) as [node|] eqn:Hnode; [|apply lookup_ge_None in Hnode; lia].
  assert (Hitems : ∀ sub, sub ∈ items node →
            (sub < length st)%nat
            ∧ ∀ w log, ∃ w' inner,
                Create (recording os) fuel st sub (w, log)
                = Some (Returns ((w', log ++ inner), None))
                ∧ materializes st sub inner).
  { intros sub Hin. specialize (Hbound t node Hnode). rewrite Forall_forall in Hbound.
    specialize (Hbound sub Hin). split; [lia|]. intros w0 log0. apply IH; lia. }
  destruct (attrs node) as [m|] eqn:Hattrs.
  - destruct (SetAttrs_loop_all_written (Range (recording os) m (w, log)) w log)
      as [w1 ->].
    destruct (createItems_materializes _ st (items node) Hitems w1
                (log ++ attrCalls (Range (recording os) m (w, log))))
      as (w' & body & -> & Hbody).
    exists w', (attrCalls (Range (recording os) m (w, log)) ++ body).
    split; [rewrite <- app_assoc; reflexivity|].
    econstructor; [exact Hnode | | exact Hbody].
    rewrite Hattrs. unfold attrCalls. apply fmap_Permutation. apply Hrange.
  - destruct (createItems_materializes _ st (items node) Hitems w log)
      as (w' & body & -> & Hbody).
    exists w', ([] ++ body). split; [reflexivity|].
    econstructor; [exact Hnode | | exact Hbody].
    rewrite Hattrs. reflexivity.
Qed.
End MaterializationFacts.

Section SetupExtras.
Import fakesysfs vocabulary.

(** X17.  When [Getwd] succeeds, no directory creation and no write
    fails, the runtime's [range] hands out every entry of a map once, and the
    store is a forest with the root allocated: [Setup] returns no error, and
    between changing to the base directory and changing back it makes
    exactly the calls that materialize the tree below the root, depth first:
    every attribute of a node written once with mode 0644, then every item,
    in the order it was added, made as a directory with mode 0755, entered,
    materialized and left.  No directory is made for the root itself.  (When
    [Getwd] fails, [Setup] returns its error and nothing is made.) *)
Theorem Setup_materializes {W : Type} (os : OS W) (fuel : nat) (st : list tree)
    (fs : FakeSysfs) (w : W) (log : list call) :
  neverFails os → rangeSound os → forest st →
  (Root fs < length st)%nat → (length st ≤ fuel)%nat →
  snd (snd (Getwd os w)) = None →
  ∃ w' body,
    Setup (recording os) fuel st fs (w, log)
    = Some (Returns ((w', log ++ [CallGetwd; CallChdir (Base fs)] ++ body
                              ++ [CallChdir (fst (snd (Getwd os w)))]), None))
    ∧ materializes st (Root fs) body.
Proof.
  intros Hok Hrange Hforest Hroot Hfuel Hwd. unfold Setup, Base, Root in *.
  rewrite recording_Getwd.
  destruct (Getwd os w) as [w1 [oldWd err]]; cbn [fst snd] in *. subst err.
  rewrite recording_Chdir.
  destruct (Create_materializes os Hok Hrange st Hforest fuel (root fs) Hroot ltac:(lia)
              (fst (Chdir os (base fs) w1)) ((log ++ [CallGetwd]) ++ [CallChdir (base fs)]))
    as (w3 & body & -> & Hbody).
  rewrite recording_Chdir. exists (fst (Chdir os oldWd w3)), body.
  split; [|exact Hbody]. rewrite <- !app_assoc. reflexivity.
Qed.

Lemma Setup_materializes_witness :
  ∃ w' body,
    Setup (recording examples.quietOS) 3 examples.deviceStore examples.tmpSysfs
      ("/home", [])
    = Some (Returns ((w', [] ++ [CallGetwd; CallChdir "/tmp/fakesysfs"] ++ body
                              ++ [CallChdir "/home"]), None))
    ∧ materializes examples.deviceStore 0 body.
Proof.
  refine (Setup_materializes examples.quietOS 3 examples.deviceStore examples.tmpSysfs
            "/home" [] _ _ forest_deviceStore _ _ _).
  - split; reflexivity.
  - intros m w. reflexivity.
  - cbn. lia.
  - cbn. lia.
  - reflexivity.
Defined.

End SetupExtras.

(** ** fakesysfs: failures during materialization *)
Section FailureFacts.
Import fakesysfs vocabulary.
Context {W : Type}.
Variable os : OS W.


(** When no [Mkdir] fails, the error that [createItems] returns is the one
    of its last item. *)
Lemma createItems_last C (st : list tree) init last :
  (∀ name perm w, snd (Mkdir os name perm w) = None) →
  ∀ w err,
    createItems os C st (init ++ [last]) w err
    = match createItems os C st init w err with
      | Some (Returns (w1, _)) => createItems os C st [last] w1 None
      | other => other
      end.
Proof.
  intros Hmkdir. induction init as [|sub init IH]; intros w err; cbn [app].
  - cbn [createItems]. destruct (Name st last) as [name|msg]; [|reflexivity].
    destruct (Mkdir os name mode0755 w) as [w1 e1]. reflexivity.
  - cbn [createItems]. destruct (Name st sub) as [name|msg]; [|reflexivity].
    specialize (Hmkdir name mode0755 w).
    destruct (Mkdir os name mode0755 w) as [w1 e1]. cbn [snd] in Hmkdir. subst e1.
    destruct (createItem os C st sub w1) as [[[w2 e2]|msg]|]; try reflexivity.
    apply IH.
Qed.
End FailureFacts.

Section FailureExtras.
Import fakesysfs vocabulary.



(** X19.  The error of [createItems] is overwritten by each item: when the
    root has no attributes, no [Mkdir] fails and the item added last is a
    leaf without attributes, [Setup] returns no error, whatever happened in
    the items before it, a failed attribute write included. *)
Theorem Setup_reports_last_item_only {W : Type} (os : OS W) (fuel : nat) (st : list tree)
    (fs : FakeSysfs) (w : W) (rootNode leaf : tree) (init : list nat) (last : nat) :
  forest st → (length st ≤ fuel)%nat →
  (∀ name perm w, snd (Mkdir os name perm w) = None) →
  snd (snd (Getwd os w)) = None →
  st !! Root fs = Some rootNode → attrs rootNode = None →
  items rootNode = init ++ [last] →
  st !! last = Some leaf → attrs leaf = None → items leaf = [] →
  ∃ w', Setup os fuel st fs w = Some (Returns (w', None)).
Proof.
  intros Hforest Hfuel Hmkdir Hwd Hroot Hrattrs Hritems Hleaf Hlattrs Hlitems.
  unfold Setup, Root in *.
  destruct (Getwd os w) as [w1 [oldWd err]]; cbn [fst snd] in *. subst err.
  destruct (Chdir os (base fs) w1) as [w2 e2].
  pose proof (proj1 Hforest _ _ Hroot) as Hbound. rewrite Forall_forall in Hbound.
  assert (Hlast : (root fs < last < length st)%nat).
  { apply Hbound. rewrite Hritems. apply elem_of_app. right. left. }
  destruct fuel as [|fuel]; [lia|].
  cbn [Create]. unfold SetAttrs, Items. rewrite Hroot, Hrattrs, Hritems.
  rewrite (createItems_last os _ st init last Hmkdir).
  destruct (createItems_returns os (Create os fuel st) st init) with (w := w2) (err := @None error)
    as [[w3 e3] ->].
  { intros sub Hin.
    assert (Hsub : (root fs < sub < length st)%nat).
    { apply Hbound. rewrite Hritems. apply elem_of_app. left. exact Hin. }
    split; [lia|]. intros w0. apply Create_returns; [exact Hforest | lia | lia]. }
  cbn [createItems]. unfold createItem, Name. rewrite Hleaf.
  specialize (Hmkdir (name leaf) mode0755 w3).
  destruct (Mkdir os (name leaf) mode0755 w3) as [w4 e4]. cbn [snd] in Hmkdir. subst e4.
  destruct (Chdir os (name leaf) w4) as [w5 e5].
  destruct fuel as [|fuel]; [lia|].
  cbn [Create createItems]. unfold SetAttrs, Items. rewrite Hleaf, Hlattrs, Hlitems.
  cbn [createItems].
  destruct (Chdir os ".." w5) as [w6 e6]. destruct (Chdir os oldWd w6) as [w7 e7].
  exists w7. reflexivity.
Qed.

Lemma Setup_reports_last_item_only_witness :
  ∃ w', Setup examples.readOnlyOS 3 examples.deviceStore examples.tmpSysfs "/home"
        = Some (Returns (w', None)).
Proof.
  refine (Setup_reports_last_item_only examples.readOnlyOS 3 examples.deviceStore
            examples.tmpSysfs "/home" _ _ [1%nat] 2%nat forest_deviceStore _ _ _ _ _ _ _ _ _).
  - cbn. lia.
  - reflexivity.
  - reflexivity.
  - reflexivity.
  - reflexivity.
  - reflexivity.
  - reflexivity.
  - reflexivity.
  - reflexivity.
Defined.

End FailureExtras.
